(** * Rules subsystem of the MTG server: zones, timing, targeting,
      state-based actions and the action-validation engine.

    The TypeScript classes embedded here, with the file of the source tree
    that holds their text:
      - [ZoneManager]              rules/timing.ts, second half
                                   (exported as rules/zone-manager.ts),
      - [TimingManager]            rules/timing.ts, first half,
      - [TargetingManager]         rules/targeting.ts,
      - [StateBasedActionManager]  rules/index.ts, middle part
                                   (exported as rules/state-based-actions.ts),
      - [MTGRulesEngine]           rules/index.ts, last part
                                   (exported as rules/engine.ts),
      - the data model             types/index.ts.

    Conventions of the embedding.
      - A JS [string] is a Rocq [string]; [toLowerCase] maps the ASCII
        letters A-Z and leaves every other character alone, and the regular
        expression classes [\s], [\w], [\d] are their ASCII parts.
      - A JS [number] that holds a count, a life total or a position is a
        [Z]; [NaN] (from [parseInt]) is [None].
      - An optional field ([x?: T]) is an [option T].
      - The two-key objects [players] and [battlefield] are records with a
        field per key and a field for the order in which the keys were
        created, which is the order [Object.entries] and [Object.values]
        visit them in.
      - Indexing a plain object with a string ([legalities[format]]) finds
        the object's own property or, failing that, a member inherited from
        [Object.prototype].
      - A thrown [ValidationError] is the [Throw] result of a small
        state-and-error monad over a store of snapshots; methods that mutate
        an object they were handed act on that store. *)

From Stdlib Require Import ZArith Ascii String List Bool Lia DecimalString.
From stdpp Require Import base option list strings gmap.

Local Open Scope string_scope.
Local Open Scope list_scope.

(** ** JavaScript string primitives *)

Module JS.

Definition is_upper (c : ascii) : bool :=
  Nat.leb 65 (nat_of_ascii c) && Nat.leb (nat_of_ascii c) 90.

Definition lower_char (c : ascii) : ascii :=
  if is_upper c then ascii_of_nat (nat_of_ascii c + 32) else c.

(** [s.toLowerCase()] *)
Fixpoint toLowerCase (s : string) : string :=
  match s with
  | EmptyString => EmptyString
  | String c s' => String (lower_char c) (toLowerCase s')
  end.

(** [hay.includes(needle)] *)
Fixpoint includes (hay needle : string) : bool :=
  String.prefix needle hay ||
  match hay with
  | EmptyString => false
  | String _ hay' => includes hay' needle
  end.

(** [\d] *)
Definition is_digit (c : ascii) : bool :=
  Nat.leb 48 (nat_of_ascii c) && Nat.leb (nat_of_ascii c) 57.

(** [\s]: tab, line feed, vertical tab, form feed, carriage return, space *)
Definition is_space (c : ascii) : bool :=
  let n := nat_of_ascii c in
  (Nat.leb 9 n && Nat.leb n 13) || Nat.eqb n 32.

(** [\w]: letters, digits and the underscore *)
Definition is_word (c : ascii) : bool :=
  let n := nat_of_ascii c in
  is_digit c || (Nat.leb 65 n && Nat.leb n 90) ||
  (Nat.leb 97 n && Nat.leb n 122) || Nat.eqb n 95.

(** The longest prefix of [s] whose characters satisfy [p], and the rest. *)
Fixpoint span (p : ascii -> bool) (s : string) : string * string :=
  match s with
  | EmptyString => (EmptyString, EmptyString)
  | String c s' =>
      if p c then let '(a, b) := span p s' in (String c a, b)
      else (EmptyString, s)
  end.

Definition digit_value (c : ascii) : Z := Z.of_nat (nat_of_ascii c - 48).

(** The value of a string of decimal digits, most significant first. *)
Fixpoint digits_value (acc : Z) (s : string) : Z :=
  match s with
  | EmptyString => acc
  | String c s' => digits_value (10 * acc + digit_value c)%Z s'
  end.

(** [parseInt(s, 10)]: leading white space is skipped, one sign is read,
    then the longest run of digits; no digit gives [NaN], here [None]. *)
Definition parseInt (s : string) : option Z :=
  let '(_, s1) := span is_space s in
  let '(neg, s2) :=
    match s1 with
    | String "-" r => (true, r)
    | String "+" r => (false, r)
    | _ => (false, s1)
    end in
  let '(ds, _) := span is_digit s2 in
  match ds with
  | EmptyString => None
  | _ => Some (if neg then (- digits_value 0 ds)%Z else digits_value 0 ds)
  end.

(** [s.split(sep)[0]]: the part of [s] before the first [sep]. *)
Fixpoint split_head (sep s : string) : string :=
  if String.prefix sep s then EmptyString
  else match s with
       | EmptyString => EmptyString
       | String c s' => String c (split_head sep s')
       end.

(** [s.replace(/[{}]/g, '')] *)
Fixpoint strip_braces (s : string) : string :=
  match s with
  | EmptyString => EmptyString
  | String c s' =>
      if Ascii.eqb c "{" || Ascii.eqb c "}" then strip_braces s'
      else String c (strip_braces s')
  end.

(** A number inside a template literal. *)
Definition show (z : Z) : string := NilZero.string_of_int (Z.to_int z).

(** [xs.splice(position, 0, x)]: a negative position counts from the end,
    and the start is clamped to the array. *)
Definition splice_insert {A} (position : Z) (x : A) (xs : list A) : list A :=
  let len := Z.of_nat (length xs) in
  let start :=
    if (position <? 0)%Z then Z.max (len + position) 0 else Z.min position len in
  take (Z.to_nat start) xs ++ x :: drop (Z.to_nat start) xs.

(** [i = xs.findIndex(p); if (i !== -1) xs.splice(i, 1)], with what was
    removed. *)
Fixpoint remove_first {A} (p : A -> bool) (xs : list A) : option (A * list A) :=
  match xs with
  | [] => None
  | x :: xs' =>
      if p x then Some (x, xs')
      else match remove_first p xs' with
           | Some (y, r) => Some (y, x :: r)
           | None => None
           end
  end.

(** What indexing a plain object with a string finds: the object's own
    property, or failing that a member it inherits from [Object.prototype]
    (a function or an object, so truthy and equal to no string), or
    [undefined]. *)
Inductive Member (A : Type) : Type :=
| Own (a : A)
| Inherited
| Undefined.

Arguments Own {A} a.
Arguments Inherited {A}.
Arguments Undefined {A}.

#[global] Instance Member_eq_dec {A} `{EqDecision A} : EqDecision (Member A).
Proof. solve_decision. Defined.

(** The names of the members of [Object.prototype]. *)
Definition object_prototype_keys : list string :=
  ["constructor"; "__defineGetter__"; "__defineSetter__"; "hasOwnProperty";
   "__lookupGetter__"; "__lookupSetter__"; "isPrototypeOf";
   "propertyIsEnumerable"; "toString"; "valueOf"; "__proto__";
   "toLocaleString"].

(** [o[key]] for an object whose own properties are [o]. *)
Definition get_member {A} (o : gmap string A) (key : string) : Member A :=
  match o !! key with
  | Some a => Own a
  | None =>
      if existsb (String.eqb key) object_prototype_keys then Inherited
      else Undefined
  end.

(** [!m] for what indexing an object of strings found. *)
Definition falsy (m : Member string) : bool :=
  match m with
  | Own s => String.eqb s ""
  | Inherited => false
  | Undefined => true
  end.

End JS.

(** ** The data model ([types/index.ts]) *)

Inductive PlayerKey := player | ai.

Inductive Phase := upkeep | draw | main1 | combat | main2 | end_phase.

Inductive Step := declare_attackers | declare_blockers | damage.

(** [image_uris] is display data no rule reads; it is left out. *)
Record MTGCard := {
  card_id : string;
  card_name : string;
  mana_cost : option string;
  cmc : Z;
  type_line : string;
  oracle_text : option string;
  power : option string;
  toughness : option string;
  colors : list string;
  color_identity : list string;
  legalities : gmap string string;
  card_set : string;
  set_name : string;
  rarity : string
}.

Record ManaPool := {
  white : Z; blue : Z; black : Z; red : Z; green : Z; colorless : Z
}.

Record PlayerState := {
  life : Z;
  mana_pool : ManaPool;
  hand : list MTGCard;
  library : list MTGCard;
  graveyard : list MTGCard;
  exile : list MTGCard
}.

Record StackObject := {
  so_id : string;
  source : MTGCard;
  so_controller : PlayerKey;
  so_targets : option (list string)
}.

Record CombatCreature := {
  cc_id : string;
  cc_card : MTGCard;
  attacking_player : option PlayerKey
}.

Record BlockAssignment := { attacker_id : string; blocker_id : string }.

Record Combat := {
  attackers : list CombatCreature;
  blockers : list BlockAssignment
}.

Record GameEvent := {
  ev_id : string;
  ev_timestamp : string;
  ev_type : string;
  ev_description : string;
  ev_player : PlayerKey
}.

(** The order in which the two keys of a [players] or [battlefield] object
    were created. [Object.entries] and [Object.values] visit the keys in
    that order; [JSON.parse(JSON.stringify(o))] and an assignment to a key
    that exists keep it. *)
Inductive KeyOrder := player_first | ai_first.

Definition keys_of (o : KeyOrder) : list PlayerKey :=
  match o with
  | player_first => [player; ai]
  | ai_first => [ai; player]
  end.

Record Players := {
  pl_player : PlayerState;
  pl_ai : PlayerState;
  pl_keys : KeyOrder
}.

Record Battlefield := {
  bf_player : list MTGCard;
  bf_ai : list MTGCard;
  bf_keys : KeyOrder
}.

Record GameState := {
  game_id : string;
  turn_number : Z;
  active_player : PlayerKey;
  phase : Phase;
  step : option Step;
  priority : PlayerKey;
  players : Players;
  battlefield : Battlefield;
  stack : list StackObject;
  combat_state : option Combat;
  game_log : list GameEvent
}.

#[global] Instance PlayerKey_eq_dec : EqDecision PlayerKey.
Proof. solve_decision. Defined.

#[global] Instance Phase_eq_dec : EqDecision Phase.
Proof. solve_decision. Defined.

#[global] Instance Step_eq_dec : EqDecision Step.
Proof. solve_decision. Defined.

(** [players[k]] and [battlefield[k]], and their updates. *)
Definition get_player (ps : Players) (k : PlayerKey) : PlayerState :=
  match k with player => pl_player ps | ai => pl_ai ps end.

Definition set_player (ps : Players) (k : PlayerKey) (p : PlayerState) : Players :=
  match k with
  | player => {| pl_player := p; pl_ai := pl_ai ps; pl_keys := pl_keys ps |}
  | ai => {| pl_player := pl_player ps; pl_ai := p; pl_keys := pl_keys ps |}
  end.

Definition get_bf (b : Battlefield) (k : PlayerKey) : list MTGCard :=
  match k with player => bf_player b | ai => bf_ai b end.

Definition set_bf (b : Battlefield) (k : PlayerKey) (l : list MTGCard) : Battlefield :=
  match k with
  | player => {| bf_player := l; bf_ai := bf_ai b; bf_keys := bf_keys b |}
  | ai => {| bf_player := bf_player b; bf_ai := l; bf_keys := bf_keys b |}
  end.

(** [Object.entries(players)] and [Object.entries(battlefield)];
    [Object.values] is their second components. *)
Definition player_entries (ps : Players) : list (PlayerKey * PlayerState) :=
  map (fun k => (k, get_player ps k)) (keys_of (pl_keys ps)).

Definition bf_entries (b : Battlefield) : list (PlayerKey * list MTGCard) :=
  map (fun k => (k, get_bf b k)) (keys_of (bf_keys b)).

Definition with_players (gs : GameState) (ps : Players) : GameState :=
  {| game_id := game_id gs; turn_number := turn_number gs;
     active_player := active_player gs; phase := phase gs; step := step gs;
     priority := priority gs; players := ps; battlefield := battlefield gs;
     stack := stack gs; combat_state := combat_state gs;
     game_log := game_log gs |}.

Definition with_battlefield (gs : GameState) (b : Battlefield) : GameState :=
  {| game_id := game_id gs; turn_number := turn_number gs;
     active_player := active_player gs; phase := phase gs; step := step gs;
     priority := priority gs; players := players gs; battlefield := b;
     stack := stack gs; combat_state := combat_state gs;
     game_log := game_log gs |}.

Definition with_stack (gs : GameState) (s : list StackObject) : GameState :=
  {| game_id := game_id gs; turn_number := turn_number gs;
     active_player := active_player gs; phase := phase gs; step := step gs;
     priority := priority gs; players := players gs;
     battlefield := battlefield gs;
     stack := s; combat_state := combat_state gs;
     game_log := game_log gs |}.

Definition with_hand (p : PlayerState) (l : list MTGCard) : PlayerState :=
  {| life := life p; mana_pool := mana_pool p; hand := l;
     library := library p; graveyard := graveyard p; exile := exile p |}.

Definition with_library (p : PlayerState) (l : list MTGCard) : PlayerState :=
  {| life := life p; mana_pool := mana_pool p; hand := hand p;
     library := l; graveyard := graveyard p; exile := exile p |}.

Definition with_graveyard (p : PlayerState) (l : list MTGCard) : PlayerState :=
  {| life := life p; mana_pool := mana_pool p; hand := hand p;
     library := library p; graveyard := l; exile := exile p |}.

Definition with_exile (p : PlayerState) (l : list MTGCard) : PlayerState :=
  {| life := life p; mana_pool := mana_pool p; hand := hand p;
     library := library p; graveyard := graveyard p; exile := l |}.

(** [gameState.players[k] = f(gameState.players[k])] *)
Definition update_player (k : PlayerKey) (f : PlayerState -> PlayerState)
    (gs : GameState) : GameState :=
  with_players gs (set_player (players gs) k (f (get_player (players gs) k))).

Definition update_bf (k : PlayerKey) (f : list MTGCard -> list MTGCard)
    (gs : GameState) : GameState :=
  with_battlefield gs (set_bf (battlefield gs) k (f (get_bf (battlefield gs) k))).

(** ** Exceptions and the store of snapshots *)

Inductive result (A : Type) : Type :=
| Ok (a : A)
| Throw (msg : string).

Arguments Ok {A} a.
Arguments Throw {A} msg.

(** A method runs against the store of the snapshots that are alive: it
    either returns a value or throws, and leaves a store behind. A
    snapshot is named by its address. *)
Definition M (A : Type) : Type :=
  gmap nat GameState -> result A * gmap nat GameState.

#[global] Instance M_ret : MRet M := fun A a h => (Ok a, h).

#[global] Instance M_bind : MBind M := fun A B k m h =>
  match m h with
  | (Ok a, h') => k a h'
  | (Throw msg, h') => (Throw msg, h')
  end.

Definition throw {A} (msg : string) : M A := fun h => (Throw msg, h).

(** Reading through a reference. Every reference a caller holds is alive;
    the second branch is only there to make the function total. *)
Definition read (r : nat) : M GameState := fun h =>
  match h !! r with
  | Some gs => (Ok gs, h)
  | None => (Throw "dead reference", h)
  end.

(** [JSON.parse(JSON.stringify(gs))]: a fresh object with the same
    contents. *)
Definition clone (gs : GameState) : M nat := fun h =>
  let r := fresh (dom h) in (Ok r, <[r := gs]> h).

(** In-place mutation of the object behind [r]. *)
Definition mutate (r : nat) (f : GameState -> GameState) : M unit := fun h =>
  (Ok tt, alter f r h).

(** A call that reads the store but does not write it. *)
Definition lift {A} (x : result A) : M A :=
  match x with
  | Ok a => mret a
  | Throw msg => throw msg
  end.

(** ** [ZoneManager] *)

Module ZoneManager.

Inductive Zone := zhand | zlibrary | zgraveyard | zexile | zbattlefield | zstack.

#[global] Instance Zone_eq_dec : EqDecision Zone.
Proof. solve_decision. Defined.

Definition zone_name (z : Zone) : string :=
  match z with
  | zhand => "hand" | zlibrary => "library" | zgraveyard => "graveyard"
  | zexile => "exile" | zbattlefield => "battlefield" | zstack => "stack"
  end.

Record ZoneChangeEvent := {
  card : MTGCard;
  from : Zone;
  to : Zone;
  ev_owner : PlayerKey;          (* the field [player] *)
  position : option Z;
  faceDown : option bool
}.

Definition same_id (c : MTGCard) (d : MTGCard) : bool :=
  String.eqb (card_id d) (card_id c).

Definition cardExistsInZone (c : MTGCard) (zone : Zone) (p : PlayerState)
    (gameState : GameState) : bool :=
  match zone with
  | zhand => existsb (same_id c) (hand p)
  | zlibrary => existsb (same_id c) (library p)
  | zgraveyard => existsb (same_id c) (graveyard p)
  | zexile => existsb (same_id c) (exile p)
  | zbattlefield =>
      existsb (same_id c) (bf_player (battlefield gameState)) ||
      existsb (same_id c) (bf_ai (battlefield gameState))
  | zstack => existsb (fun obj => same_id c (source obj)) (stack gameState)
  end.

Definition validTransitions (z : Zone) : list Zone :=
  match z with
  | zhand => [zbattlefield; zgraveyard; zexile; zlibrary; zstack]
  | zlibrary => [zhand; zgraveyard; zexile; zbattlefield]
  | zgraveyard => [zhand; zlibrary; zexile; zbattlefield; zstack]
  | zexile => [zhand; zlibrary; zgraveyard; zbattlefield; zstack]
  | zbattlefield => [zgraveyard; zexile; zhand; zlibrary]
  | zstack => [zgraveyard; zexile; zbattlefield; zhand]
  end.

Definition isValidZoneTransition (f t : Zone) : bool :=
  existsb (fun z => bool_decide (z = t)) (validTransitions f).

Definition isLand (c : MTGCard) : bool :=
  JS.includes (JS.toLowerCase (type_line c)) "land".

Definition isToken (c : MTGCard) : bool :=
  String.eqb (card_set c) "token" ||
  JS.includes (JS.toLowerCase (type_line c)) "token".

Definition canEnterBattlefield (c : MTGCard) (gameState : GameState) : bool :=
  if isLand c then true
  else if isToken c then true
  else true.

Definition validateZoneChange (event : ZoneChangeEvent) (gameState : GameState)
    : result bool :=
  let p := get_player (players gameState) (ev_owner event) in
  if negb (cardExistsInZone (card event) (from event) p gameState) then
    Throw ("Card " +:+ card_name (card event) +:+ " not found in " +:+
           zone_name (from event))
  else if negb (isValidZoneTransition (from event) (to event)) then
    Throw ("Invalid zone transition from " +:+ zone_name (from event) +:+
           " to " +:+ zone_name (to event))
  else if bool_decide (to event = zbattlefield) &&
          negb (canEnterBattlefield (card event) gameState) then
    Throw (card_name (card event) +:+ " cannot enter battlefield")
  else Ok true.

Definition differs (c : MTGCard) (d : MTGCard) : bool := negb (same_id c d).

(** [removeCardFromZone(card, zone, player, gameState)], where [player] is
    the object [gameState.players[pk]]. *)
Definition removeCardFromZone (c : MTGCard) (zone : Zone) (pk : PlayerKey)
    (gameState : GameState) : GameState :=
  match zone with
  | zhand =>
      update_player pk (fun p => with_hand p (List.filter (differs c) (hand p))) gameState
  | zlibrary =>
      update_player pk (fun p => with_library p (List.filter (differs c) (library p)))
        gameState
  | zgraveyard =>
      update_player pk (fun p => with_graveyard p (List.filter (differs c) (graveyard p)))
        gameState
  | zexile =>
      update_player pk (fun p => with_exile p (List.filter (differs c) (exile p)))
        gameState
  | zbattlefield =>
      if existsb (same_id c) (bf_player (battlefield gameState))
      then update_bf player (List.filter (differs c)) gameState
      else update_bf ai (List.filter (differs c)) gameState
  | zstack =>
      with_stack gameState
        (List.filter (fun obj => differs c (source obj)) (stack gameState))
  end.

(** [addCardToZone(card, zone, player, gameState, position, faceDown)].
    [player] is again [gameState.players[pk]], so the test
    [player === gameState.players.player] says whether [pk] is [player]. *)
Definition addCardToZone (c : MTGCard) (zone : Zone) (pk : PlayerKey)
    (gameState : GameState) (position : option Z) (faceDown : option bool)
    : GameState :=
  match zone with
  | zhand =>
      match position with
      | Some i =>
          update_player pk (fun p => with_hand p (JS.splice_insert i c (hand p)))
            gameState
      | None => update_player pk (fun p => with_hand p (hand p ++ [c])) gameState
      end
  | zlibrary =>
      match position with
      | Some i =>
          update_player pk
            (fun p => with_library p (JS.splice_insert i c (library p))) gameState
      | None => update_player pk (fun p => with_library p (c :: library p)) gameState
      end
  | zgraveyard =>
      update_player pk (fun p => with_graveyard p (graveyard p ++ [c])) gameState
  | zexile =>
      update_player pk (fun p => with_exile p (exile p ++ [c])) gameState
  | zbattlefield =>
      update_bf (if bool_decide (pk = player) then player else ai)
        (fun b => b ++ [c]) gameState
  | zstack => gameState
  end.

(** [executeZoneChange(event, gameState)]: the argument and the value
    returned are references into the store. *)
Definition executeZoneChange (event : ZoneChangeEvent) (gameState : nat) : M nat :=
  gs ← read gameState;
  _ ← lift (validateZoneChange event gs);
  newGameState ← clone gs;
  _ ← mutate newGameState (removeCardFromZone (card event) (from event) (ev_owner event));
  _ ← mutate newGameState
        (fun g => addCardToZone (card event) (to event) (ev_owner event) g
                    (position event) (faceDown event));
  mret newGameState.

(** [drawCard(player)], [millCards(player, count)] and
    [searchLibrary(player, predicate)] on the player object itself. *)
Definition drawCard (p : PlayerState) : option MTGCard * PlayerState :=
  match library p with
  | c :: rest => (Some c, with_hand (with_library p rest) (hand p ++ [c]))
  | [] => (None, p)
  end.

Fixpoint millCards_loop (count : nat) (p : PlayerState) (milled : list MTGCard)
    : list MTGCard * PlayerState :=
  match count with
  | O => (milled, p)
  | S n =>
      match library p with
      | c :: rest =>
          millCards_loop n (with_graveyard (with_library p rest) (graveyard p ++ [c]))
            (milled ++ [c])
      | [] => (milled, p)
      end
  end.

Definition millCards (p : PlayerState) (count : Z) : list MTGCard * PlayerState :=
  millCards_loop (Z.to_nat count) p [].

Definition searchLibrary (p : PlayerState) (predicate : MTGCard -> bool)
    : list MTGCard :=
  List.filter predicate (library p).

(** [[xs[i], xs[j]] = [xs[j], xs[i]]]: the right-hand side is read first,
    then the two cells are written, [i] before [j]. Both indices are inside
    the array wherever [shuffleLibrary] swaps. *)
Definition swap {A} (xs : list A) (i j : nat) : list A :=
  match xs !! i, xs !! j with
  | Some x, Some y => <[j := x]> (<[i := y]> xs)
  | _, _ => xs
  end.

(** The loop of [shuffleLibrary], from index [i] down to 1. [pick i] is the
    value of [Math.floor(Math.random() * (i + 1))] drawn at index [i]; as
    [Math.random()] lies in the interval from 0 (included) to 1 (excluded),
    it is at most [i]. *)
Fixpoint shuffle_from (pick : nat -> nat) (i : nat) (xs : list MTGCard)
    : list MTGCard :=
  match i with
  | O => xs
  | S i' => shuffle_from pick i' (swap xs (S i') (pick (S i')))
  end.

Definition shuffleLibrary (pick : nat -> nat) (p : PlayerState) : PlayerState :=
  with_library p (shuffle_from pick (length (library p) - 1) (library p)).

(** The places of a snapshot where a card can lie. *)
Inductive Place :=
| InHand (k : PlayerKey)
| InLibrary (k : PlayerKey)
| InGraveyard (k : PlayerKey)
| InExile (k : PlayerKey)
| OnBattlefield (k : PlayerKey)
| OnStack.

#[global] Instance Place_eq_dec : EqDecision Place.
Proof. solve_decision. Defined.

(** Is a card with the identifier of [c] at place [pl] of [gs]? *)
Definition lies_in (c : MTGCard) (pl : Place) (gs : GameState) : bool :=
  match pl with
  | InHand k => existsb (same_id c) (hand (get_player (players gs) k))
  | InLibrary k => existsb (same_id c) (library (get_player (players gs) k))
  | InGraveyard k => existsb (same_id c) (graveyard (get_player (players gs) k))
  | InExile k => existsb (same_id c) (exile (get_player (players gs) k))
  | OnBattlefield k => existsb (same_id c) (get_bf (battlefield gs) k)
  | OnStack => existsb (fun obj => same_id c (source obj)) (stack gs)
  end.

(** The place a zone of the event's player denotes; the battlefield and the
    stack are shared, the other four belong to the player. *)
Definition place_of_zone (z : Zone) (k : PlayerKey) : Place :=
  match z with
  | zhand => InHand k
  | zlibrary => InLibrary k
  | zgraveyard => InGraveyard k
  | zexile => InExile k
  | zbattlefield => OnBattlefield k
  | zstack => OnStack
  end.

(** The transition table as the specification prints it. *)
Definition spec_table : list (Zone * Zone) :=
  [(zhand, zbattlefield); (zhand, zgraveyard); (zhand, zexile);
   (zhand, zlibrary); (zhand, zstack);
   (zlibrary, zhand); (zlibrary, zgraveyard); (zlibrary, zexile);
   (zlibrary, zbattlefield);
   (zgraveyard, zhand); (zgraveyard, zlibrary); (zgraveyard, zexile);
   (zgraveyard, zbattlefield); (zgraveyard, zstack);
   (zexile, zhand); (zexile, zlibrary); (zexile, zgraveyard);
   (zexile, zbattlefield); (zexile, zstack);
   (zbattlefield, zgraveyard); (zbattlefield, zexile); (zbattlefield, zhand);
   (zbattlefield, zlibrary);
   (zstack, zgraveyard); (zstack, zexile); (zstack, zbattlefield);
   (zstack, zhand)].

End ZoneManager.

(** ** [TimingManager] *)

Module TimingManager.

Inductive SpellSpeed := sorcery | instant | ability.

Inductive TimingWindow := main_phase | any_time | combat_only | upkeep_only.

Record TimingRestriction := {
  speed : SpellSpeed;
  window : TimingWindow;
  stackEmpty : bool;
  activePlayer : bool;
  specialConditions : option (list string)
}.

(** [Partial<TimingRestriction>] *)
Record PartialTimingRestriction := {
  p_speed : option SpellSpeed;
  p_window : option TimingWindow;
  p_stackEmpty : option bool;
  p_activePlayer : option bool;
  p_specialConditions : option (list string)
}.

Definition in_main (gameState : GameState) : bool :=
  bool_decide (phase gameState = main1) || bool_decide (phase gameState = main2).

Definition stack_is_empty (gameState : GameState) : bool :=
  Nat.eqb (length (stack gameState)) 0.

Definition checkSpeedTiming (s : SpellSpeed) (gameState : GameState) : bool :=
  match s with
  | instant => true
  | sorcery => in_main gameState && stack_is_empty gameState
  | ability => true
  end.

Definition checkWindowTiming (w : TimingWindow) (gameState : GameState) : bool :=
  match w with
  | any_time => true
  | main_phase => in_main gameState
  | combat_only => bool_decide (phase gameState = combat)
  | upkeep_only => bool_decide (phase gameState = upkeep)
  end.

Definition attackers_length (gameState : GameState) : option nat :=
  match combat_state gameState with
  | Some c => Some (length (attackers c))
  | None => None
  end.

Definition checkSpecialCondition (condition : string) (gameState : GameState)
    (p : PlayerKey) : bool :=
  if String.eqb condition "only_your_turn" then
    bool_decide (active_player gameState = p)
  else if String.eqb condition "only_opponent_turn" then
    negb (bool_decide (active_player gameState = p))
  else if String.eqb condition "creatures_attacking" then
    match attackers_length gameState with
    | Some n => Nat.ltb 0 n
    | None => false
    end
  else if String.eqb condition "no_creatures_attacking" then
    match attackers_length gameState with
    | Some n => Nat.eqb n 0
    | None => true
    end
  else if String.eqb condition "beginning_of_combat" then
    bool_decide (phase gameState = combat) &&
    match step gameState with None => true | Some _ => false end
  else if String.eqb condition "end_of_turn" then
    bool_decide (phase gameState = end_phase)
  else true.

Definition validateTiming (timing : TimingRestriction) (gameState : GameState)
    (p : PlayerKey) : bool :=
  if negb (checkSpeedTiming (speed timing) gameState) then false
  else if negb (checkWindowTiming (window timing) gameState) then false
  else if stackEmpty timing && Nat.ltb 0 (length (stack gameState)) then false
  else if activePlayer timing && negb (bool_decide (active_player gameState = p))
  then false
  else if negb (bool_decide (priority gameState = p)) then false
  else
    match specialConditions timing with
    | Some conditions =>
        forallb (fun condition => checkSpecialCondition condition gameState p)
          conditions
    | None => true
    end.

Definition sorcery_timing (conds : option (list string)) : TimingRestriction :=
  {| speed := sorcery; window := main_phase; stackEmpty := true;
     activePlayer := true; specialConditions := conds |}.

Definition getTypeBasedTiming (c : MTGCard) : TimingRestriction :=
  let typeLine := JS.toLowerCase (type_line c) in
  if JS.includes typeLine "instant" then
    {| speed := instant; window := any_time; stackEmpty := false;
       activePlayer := false; specialConditions := None |}
  else if JS.includes typeLine "sorcery" then sorcery_timing None
  else if JS.includes typeLine "creature" || JS.includes typeLine "artifact" ||
          JS.includes typeLine "enchantment" || JS.includes typeLine "planeswalker"
  then sorcery_timing None
  else if JS.includes typeLine "land" then sorcery_timing (Some ["only_your_turn"])
  else sorcery_timing None.

(** The text of a card, lower-cased; a missing text is the empty string. *)
Definition lower_text (c : MTGCard) : string :=
  JS.toLowerCase (default "" (oracle_text c)).

Definition getTextBasedTiming (c : MTGCard) : PartialTimingRestriction :=
  let text := lower_text c in
  let r0 :=
    {| p_speed := None; p_window := None; p_stackEmpty := None;
       p_activePlayer := None; p_specialConditions := None |} in
  let r1 :=
    if JS.includes text "flash" then
      {| p_speed := Some instant; p_window := Some any_time;
         p_stackEmpty := Some false; p_activePlayer := Some false;
         p_specialConditions := p_specialConditions r0 |}
    else r0 in
  let r2 :=
    if JS.includes text "can only be cast during combat" then
      {| p_speed := p_speed r1; p_window := Some combat_only;
         p_stackEmpty := p_stackEmpty r1; p_activePlayer := p_activePlayer r1;
         p_specialConditions := p_specialConditions r1 |}
    else r1 in
  let set_conditions (r : PartialTimingRestriction) (cs : list string) :=
    {| p_speed := p_speed r; p_window := p_window r;
       p_stackEmpty := p_stackEmpty r; p_activePlayer := p_activePlayer r;
       p_specialConditions := Some cs |} in
  let r3 :=
    if JS.includes text "can only be cast during your turn"
    then set_conditions r2 ["only_your_turn"] else r2 in
  let r4 :=
    if JS.includes text "can only be cast during an opponent's turn"
    then set_conditions r3 ["only_opponent_turn"] else r3 in
  if JS.includes text "can only be cast if a creature attacked this turn"
  then set_conditions r4 ["creatures_attacking"] else r4.

Definition getCardTiming (c : MTGCard) : TimingRestriction :=
  let typeRestrictions := getTypeBasedTiming c in
  let textRestrictions := getTextBasedTiming c in
  {| speed := default (speed typeRestrictions) (p_speed textRestrictions);
     window := default (window typeRestrictions) (p_window textRestrictions);
     stackEmpty :=
       default (stackEmpty typeRestrictions) (p_stackEmpty textRestrictions);
     activePlayer :=
       default (activePlayer typeRestrictions) (p_activePlayer textRestrictions);
     specialConditions :=
       Some (default [] (specialConditions typeRestrictions) ++
             default [] (p_specialConditions textRestrictions)) |}.

Definition getAbilityTiming (c : MTGCard) (abilityText : option string)
    : TimingRestriction :=
  let chosen :=
    match abilityText with
    | Some t => if String.eqb t "" then default "" (oracle_text c) else t
    | None => default "" (oracle_text c)
    end in
  let text := JS.toLowerCase chosen in
  if JS.includes text "activate only as a sorcery" ||
     JS.includes text "activate this ability only any time you could cast a sorcery"
  then sorcery_timing None
  else if JS.includes text "activate only during combat" then
    {| speed := ability; window := combat_only; stackEmpty := false;
       activePlayer := false; specialConditions := None |}
  else if JS.includes text "activate only during your turn" then
    {| speed := ability; window := any_time; stackEmpty := false;
       activePlayer := false; specialConditions := Some ["only_your_turn"] |}
  else
    {| speed := ability; window := any_time; stackEmpty := false;
       activePlayer := false; specialConditions := None |}.

Definition canCastSpell (c : MTGCard) (gameState : GameState) (p : PlayerKey)
    : bool :=
  validateTiming (getCardTiming c) gameState p.

Definition canActivateAbility (c : MTGCard) (gameState : GameState)
    (p : PlayerKey) (abilityText : option string) : bool :=
  validateTiming (getAbilityTiming c abilityText) gameState p.

Definition canPlayLand (gameState : GameState) (p : PlayerKey) : bool :=
  validateTiming (sorcery_timing None) gameState p.

Definition getNextPriorityPlayer (gameState : GameState) : PlayerKey :=
  if stack_is_empty gameState then active_player gameState
  else match priority gameState with player => ai | ai => player end.

Definition bothPlayersPassedPriority (gameState : GameState) : bool := true.

Definition shouldAdvancePhase (gameState : GameState) : bool :=
  stack_is_empty gameState && bothPlayersPassedPriority gameState.

End TimingManager.

(** ** [TargetingManager] *)

Module TargetingManager.

Inductive TargetType :=
| t_creature | t_player | t_planeswalker | t_spell | t_permanent
| t_card_in_graveyard | t_any.

#[global] Instance TargetType_eq_dec : EqDecision TargetType.
Proof. solve_decision. Defined.

Record TargetRestriction := {
  type : TargetType;
  count : nat;
  optional : bool;
  restrictions : list string
}.

Record Target := {
  id : string;
  target_type : TargetType;
  controller : PlayerKey
}.

(** *** The three regular expressions *)

(** The pattern [target\s+[^.]*] (flag [i]) tried at the start of [s]: the word "target" in
    either case, white space, then everything up to the next full stop. The
    two starred parts are disjoint from what follows them, so the greedy
    match is the only one. *)
Definition match_target_clause (s : string) : option string :=
  let word := substring 0 6 s in
  let after := substring 6 (String.length s - 6) s in
  if String.eqb (JS.toLowerCase word) "target" then
    let '(ws, rest) := JS.span JS.is_space after in
    match ws with
    | EmptyString => None
    | _ =>
        let '(body, _) := JS.span (fun ch => negb (Ascii.eqb ch ".")) rest in
        Some (word +:+ ws +:+ body)
    end
  else None.

(** [text.match] with that pattern and the flags [g] and [i]: the matches from left to
    right, each search resuming where the last match ended. [skip] counts
    the characters of the last match that are still to be passed over. *)
Fixpoint target_matches (skip : nat) (s : string) : list string :=
  match s with
  | EmptyString => []
  | String _ s' =>
      match skip with
      | S n => target_matches n s'
      | O =>
          match match_target_clause s with
          | Some m => m :: target_matches (String.length m - 1) s'
          | None => target_matches 0 s'
          end
      end
  end.

(** [/(\w+)\s+target/] tried at the start of [s], giving the captured
    word. *)
Definition match_count_word (s : string) : option string :=
  let '(w, r) := JS.span JS.is_word s in
  match w with
  | EmptyString => None
  | _ =>
      let '(ws, r') := JS.span JS.is_space r in
      match ws with
      | EmptyString => None
      | _ => if String.prefix "target" r' then Some w else None
      end
  end.

(** [/up to (\w+)/] tried at the start of [s]. *)
Definition match_up_to (s : string) : option string :=
  if String.prefix "up to " s then
    let '(w, _) := JS.span JS.is_word (substring 6 (String.length s - 6) s) in
    match w with
    | EmptyString => None
    | _ => Some w
    end
  else None.

(** [text.match(re)] without the [g] flag: the leftmost match. *)
Fixpoint first_match (re : string -> option string) (s : string) : option string :=
  match re s with
  | Some m => Some m
  | None =>
      match s with
      | EmptyString => None
      | String _ s' => first_match re s'
      end
  end.

(** *** Parsing *)

Definition parseTargetClause (clause : string) : option TargetRestriction :=
  let text := JS.toLowerCase clause in
  let type :=
    if JS.includes text "creature" then t_creature
    else if JS.includes text "player" then t_player
    else if JS.includes text "planeswalker" then t_planeswalker
    else if JS.includes text "spell" then t_spell
    else if JS.includes text "permanent" then t_permanent
    else if JS.includes text "card in" && JS.includes text "graveyard"
    then t_card_in_graveyard
    else t_any in
  let '(count, optional) :=
    match first_match match_count_word text with
    | Some countWord =>
        if String.eqb countWord "one" || String.eqb countWord "a" ||
           String.eqb countWord "target" then (1, false)
        else if String.eqb countWord "two" then (2, false)
        else if String.eqb countWord "three" then (3, false)
        else if String.eqb countWord "up" then
          match first_match match_up_to text with
          | Some n =>
              if String.eqb n "one" then (1, true)
              else if String.eqb n "two" then (2, true)
              else if String.eqb n "three" then (3, true)
              else (1, true)
          | None => (1, true)
          end
        else (1, false)
    | None => (1, false)
    end in
  let push (phrase : bool) (name : string) (rs : list string) :=
    if phrase then rs ++ [name] else rs in
  let restrictions :=
    push (JS.includes text "non-creature") "non-creature"
      (push (JS.includes text "nonland") "nonland"
        (push (JS.includes text "untapped") "untapped"
          (push (JS.includes text "tapped") "tapped"
            (push (JS.includes text "blocking") "blocking"
              (push (JS.includes text "attacking") "attacking"
                (push (JS.includes text "you don't control" ||
                       JS.includes text "an opponent controls")
                      "opponent_controls"
                  (push (JS.includes text "you control") "you_control" [])))))))
  in
  Some {| type := type; count := count; optional := optional;
          restrictions := restrictions |}.

Definition parseTargetRequirements (c : MTGCard) : list TargetRestriction :=
  let text := default "" (oracle_text c) in
  let targetMatches := target_matches 0 text in
  omap parseTargetClause targetMatches.

(** *** Looking objects up *)

Definition isCreature (c : option MTGCard) : bool :=
  match c with
  | Some c => JS.includes (JS.toLowerCase (type_line c)) "creature"
  | None => false
  end.

Definition isPlaneswalker (c : option MTGCard) : bool :=
  match c with
  | Some c => JS.includes (JS.toLowerCase (type_line c)) "planeswalker"
  | None => false
  end.

Definition isLand (c : option MTGCard) : bool :=
  match c with
  | Some c => JS.includes (JS.toLowerCase (type_line c)) "land"
  | None => false
  end.

Definition find_by_id (i : string) (l : list MTGCard) : option MTGCard :=
  List.find (fun c => String.eqb (card_id c) i) l.

(** The first hit among a list of searches. *)
Fixpoint first_some {A} (xs : list (option A)) : option A :=
  match xs with
  | [] => None
  | Some a :: _ => Some a
  | None :: xs' => first_some xs'
  end.

Definition findCardById (i : string) (gameState : GameState) : option MTGCard :=
  let zones (p : PlayerState) := [hand p; graveyard p; exile p] in
  first_some
    (map (find_by_id i)
       (map snd (bf_entries (battlefield gameState)) ++
        flat_map (fun '(_, p) => zones p)
          (player_entries (players gameState))) ++
     [option_map source
        (List.find (fun obj => String.eqb (card_id (source obj)) i)
           (stack gameState))]).

Definition targetExists (t : Target) (gameState : GameState) : bool :=
  if bool_decide (target_type t = t_player) then
    String.eqb (id t) "player" || String.eqb (id t) "ai"
  else
    match findCardById (id t) gameState with Some _ => true | None => false end.

(** *** Restrictions *)

Definition validateRestriction (restriction : string) (t : Target)
    (gameState : GameState) : bool :=
  if String.eqb restriction "you_control" then
    bool_decide (controller t = player)
  else if String.eqb restriction "opponent_controls" then
    bool_decide (controller t = ai)
  else if String.eqb restriction "attacking" then
    match combat_state gameState with
    | Some c => existsb (fun attacker => String.eqb (cc_id attacker) (id t))
                  (attackers c)
    | None => false
    end
  else if String.eqb restriction "blocking" then
    match combat_state gameState with
    | Some c => existsb (fun blocker => String.eqb (blocker_id blocker) (id t))
                  (blockers c)
    | None => false
    end
  else if String.eqb restriction "tapped" then true
  else if String.eqb restriction "untapped" then true
  else if String.eqb restriction "nonland" then
    negb (isLand (findCardById (id t) gameState))
  else if String.eqb restriction "non-creature" then
    negb (isCreature (findCardById (id t) gameState))
  else true.

Definition validateSingleTarget (requirement : TargetRestriction) (t : Target)
    (gameState : GameState) : bool :=
  if negb (targetExists t gameState) then false
  else if negb (bool_decide (type requirement = t_any)) &&
          negb (bool_decide (type requirement = target_type t)) then false
  else forallb (fun restriction => validateRestriction restriction t gameState)
         (restrictions requirement).

(** *** Enumerating candidates. The [requirement] and [controller]
    parameters of the six finders are not read by their bodies. *)

Definition targets_on (k : PlayerKey) (ty : TargetType) (keep : MTGCard -> bool)
    (cards : list MTGCard) : list Target :=
  map (fun c => {| id := card_id c; target_type := ty; controller := k |})
    (List.filter keep cards).

Definition findCreatureTargets (gameState : GameState)
    (requirement : TargetRestriction) (controller : PlayerKey) : list Target :=
  flat_map
    (fun '(k, bf) => targets_on k t_creature (fun c => isCreature (Some c)) bf)
    (bf_entries (battlefield gameState)).

Definition findPlayerTargets (gameState : GameState)
    (requirement : TargetRestriction) (controller : PlayerKey) : list Target :=
  [ {| id := "player"; target_type := t_player; controller := player |};
    {| id := "ai"; target_type := t_player; controller := ai |} ].

Definition findPlaneswalkerTargets (gameState : GameState)
    (requirement : TargetRestriction) (controller : PlayerKey) : list Target :=
  flat_map
    (fun '(k, bf) =>
       targets_on k t_planeswalker (fun c => isPlaneswalker (Some c)) bf)
    (bf_entries (battlefield gameState)).

Definition findPermanentTargets (gameState : GameState)
    (requirement : TargetRestriction) (controller : PlayerKey) : list Target :=
  flat_map (fun '(k, bf) => targets_on k t_permanent (fun _ => true) bf)
    (bf_entries (battlefield gameState)).

Definition findSpellTargets (gameState : GameState)
    (requirement : TargetRestriction) (controller : PlayerKey) : list Target :=
  map (fun obj => {| id := so_id obj; target_type := t_spell;
                     controller := so_controller obj |})
    (stack gameState).

Definition findGraveyardTargets (gameState : GameState)
    (requirement : TargetRestriction) (controller : PlayerKey) : list Target :=
  flat_map
    (fun '(k, p) => targets_on k t_card_in_graveyard (fun _ => true) (graveyard p))
    (player_entries (players gameState)).

Definition findValidTargetsForRequirement (requirement : TargetRestriction)
    (gameState : GameState) (controller : PlayerKey) : list Target :=
  let targets :=
    match type requirement with
    | t_creature => findCreatureTargets gameState requirement controller
    | t_player => findPlayerTargets gameState requirement controller
    | t_planeswalker => findPlaneswalkerTargets gameState requirement controller
    | t_permanent => findPermanentTargets gameState requirement controller
    | t_spell => findSpellTargets gameState requirement controller
    | t_card_in_graveyard => findGraveyardTargets gameState requirement controller
    | t_any => []
    end in
  List.filter
    (fun t => forallb (fun restriction => validateRestriction restriction t gameState)
                (restrictions requirement))
    targets.

Definition getValidTargets (c : MTGCard) (gameState : GameState)
    (p : PlayerKey) : list Target :=
  flat_map (fun requirement => findValidTargetsForRequirement requirement gameState p)
    (parseTargetRequirements c).

Fixpoint validate_each (requirements : list TargetRestriction)
    (targets : list Target) (gameState : GameState) : bool :=
  match requirements, targets with
  | requirement :: rs, t :: ts =>
      validateSingleTarget requirement t gameState && validate_each rs ts gameState
  | [], _ => true
  | _ :: _, [] => false
  end.

Definition validateTargets (c : MTGCard) (targets : list Target)
    (gameState : GameState) : bool :=
  let requirements := parseTargetRequirements c in
  if Nat.eqb (length requirements) 0 && Nat.eqb (length targets) 0 then true
  else if negb (Nat.eqb (length requirements) (length targets)) then false
  else validate_each requirements targets gameState.

End TargetingManager.

(** ** [StateBasedActionManager] *)

Module StateBasedActionManager.

(** The values the [data] record of an action holds. *)
Inductive DataValue :=
| VNum (z : Z)
| VStr (s : string)
| VUndefined.

Record StateBasedAction := {
  type : string;
  description : string;
  affectedCards : option (list MTGCard);
  affectedPlayer : option PlayerKey;
  data : option (list (string * DataValue))
}.

Definition key_name (k : PlayerKey) : string :=
  match k with player => "player" | ai => "ai" end.

(** *** The predicates and readings of a card *)

Definition isCreature (c : MTGCard) : bool :=
  JS.includes (JS.toLowerCase (type_line c)) "creature".

Definition isPlaneswalker (c : MTGCard) : bool :=
  JS.includes (JS.toLowerCase (type_line c)) "planeswalker".

Definition isLegendary (c : MTGCard) : bool :=
  JS.includes (JS.toLowerCase (type_line c)) "legendary".

Definition isWorld (c : MTGCard) : bool :=
  JS.includes (JS.toLowerCase (type_line c)) "world".

Definition isAura (c : MTGCard) : bool :=
  let typeLine := JS.toLowerCase (type_line c) in
  JS.includes typeLine "enchantment" && JS.includes typeLine "aura".

Definition isEquipment (c : MTGCard) : bool :=
  let typeLine := JS.toLowerCase (type_line c) in
  JS.includes typeLine "artifact" && JS.includes typeLine "equipment".

(** [card.toughness ? parseInt(card.toughness, 10) || 0 : 0] *)
Definition getCreatureToughness (c : MTGCard) : Z :=
  match toughness c with
  | Some t => if String.eqb t "" then 0%Z else default 0%Z (JS.parseInt t)
  | None => 0%Z
  end.

Definition getCreatureDamage (c : MTGCard) : Z := 0%Z.

Definition countPoisonCounters (p : PlayerState) : Z := 0%Z.

Definition hasDeathtouch (c : MTGCard) : bool :=
  JS.includes (JS.toLowerCase (default "" (oracle_text c))) "deathtouch".

(** The pattern of [getPlaneswalkerLoyalty], an opening bracket, an optional
    sign, digits and a closing bracket, tried at the start of [s]; the
    result is the bracketed group. *)
Definition match_loyalty (s : string) : option string :=
  match s with
  | String "[" r =>
      let '(sign, r1) :=
        match r with
        | String "+" r' => ("+", r')
        | String "-" r' => ("-", r')
        | _ => ("", r)
        end in
      let '(ds, r2) := JS.span JS.is_digit r1 in
      match ds, r2 with
      | String _ _, String "]" _ => Some (sign +:+ ds)
      | _, _ => None
      end
  | _ => None
  end.

(** The leftmost match of a pattern in [s]. *)
Fixpoint first_match (re : string -> option string) (s : string) : option string :=
  match re s with
  | Some m => Some m
  | None =>
      match s with
      | EmptyString => None
      | String _ s' => first_match re s'
      end
  end.

Definition getPlaneswalkerLoyalty (c : MTGCard) : Z :=
  match oracle_text c with
  | Some text =>
      match first_match match_loyalty text with
      | Some group => default 0%Z (JS.parseInt group)
      | None => 0%Z
      end
  | None => 0%Z
  end.

(** [card.name.split(' // ')[0] || card.name] *)
Definition getLegendaryName (c : MTGCard) : string :=
  let front := JS.split_head " // " (card_name c) in
  if String.eqb front "" then card_name c else front.

Definition getAttachmentTarget (c : MTGCard) : option MTGCard := None.

Definition isValidAttachmentTarget (aura target : MTGCard) (gameState : GameState)
    : bool := true.

Definition isValidEquipmentTarget (equipment target : MTGCard)
    (gameState : GameState) : bool := isCreature target.

(** *** The scan *)

Definition playerActions (playerKey : PlayerKey) (p : PlayerState)
    : list StateBasedAction :=
  (if (life p <=? 0)%Z then
     [ {| type := "player_loses_life";
          description := key_name playerKey +:+
                         " loses the game (life total 0 or less)";
          affectedCards := None; affectedPlayer := Some playerKey;
          data := Some [("life", VNum (life p))] |} ]
   else []) ++
  (if Nat.eqb (length (library p)) 0 then
     [ {| type := "player_loses_library";
          description := key_name playerKey +:+
                         " loses the game (cannot draw from empty library)";
          affectedCards := None; affectedPlayer := Some playerKey;
          data := None |} ]
   else []) ++
  (if (10 <=? countPoisonCounters p)%Z then
     [ {| type := "player_loses_poison";
          description := key_name playerKey +:+
                         " loses the game (10 or more poison counters)";
          affectedCards := None; affectedPlayer := Some playerKey;
          data := Some [("poisonCounters", VNum (countPoisonCounters p))] |} ]
   else []).

Definition checkPlayerStateActions (gameState : GameState)
    : list StateBasedAction :=
  flat_map (fun '(playerKey, p) => playerActions playerKey p)
    (player_entries (players gameState)).

Definition creatureActions (creature : MTGCard) : list StateBasedAction :=
  if negb (isCreature creature) then []
  else
    let toughness := getCreatureToughness creature in
    let damage := getCreatureDamage creature in
    (if (toughness <=? 0)%Z then
       [ {| type := "creature_dies_toughness";
            description := card_name creature +:+
                           " is put into graveyard (0 toughness)";
            affectedCards := Some [creature]; affectedPlayer := None;
            data := Some [("toughness", VNum toughness);
                          ("reason", VStr "0_toughness")] |} ]
     else if (toughness <=? damage)%Z then
       [ {| type := "creature_dies_damage";
            description := card_name creature +:+
                           " is destroyed (lethal damage)";
            affectedCards := Some [creature]; affectedPlayer := None;
            data := Some [("damage", VNum damage); ("toughness", VNum toughness);
                          ("reason", VStr "lethal_damage")] |} ]
     else []) ++
    (if hasDeathtouch creature && (0 <? damage)%Z then
       [ {| type := "creature_dies_deathtouch";
            description := card_name creature +:+
                           " is destroyed (deathtouch damage)";
            affectedCards := Some [creature]; affectedPlayer := None;
            data := Some [("damage", VNum damage);
                          ("reason", VStr "deathtouch")] |} ]
     else []).

(** The loops [for (const [playerKey, battlefield] of
    Object.entries(gameState.battlefield))] whose body does not read
    [playerKey]. *)
Definition over_battlefields (gameState : GameState)
    (body : list MTGCard -> list StateBasedAction) : list StateBasedAction :=
  flat_map (fun '(_, bf) => body bf) (bf_entries (battlefield gameState)).

Definition checkCreatureStateActions (gameState : GameState)
    : list StateBasedAction :=
  over_battlefields gameState (flat_map creatureActions).

Definition planeswalkerActions (planeswalker : MTGCard)
    : list StateBasedAction :=
  if negb (isPlaneswalker planeswalker) then []
  else
    let loyalty := getPlaneswalkerLoyalty planeswalker in
    if (loyalty <=? 0)%Z then
      [ {| type := "planeswalker_dies";
           description := card_name planeswalker +:+
                          " is put into graveyard (0 loyalty)";
           affectedCards := Some [planeswalker]; affectedPlayer := None;
           data := Some [("loyalty", VNum loyalty)] |} ]
    else [].

Definition checkPlaneswalkerStateActions (gameState : GameState)
    : list StateBasedAction :=
  over_battlefields gameState (flat_map planeswalkerActions).

(** [legendsByName]: a [Map] keeps its keys in the order they were first
    set, so it is an association list here. *)
Fixpoint record_legend (name : string) (permanent : MTGCard)
    (legendsByName : list (string * list MTGCard))
    : list (string * list MTGCard) :=
  match legendsByName with
  | [] => [(name, [permanent])]
  | (n, legends) :: rest =>
      if String.eqb n name then (n, legends ++ [permanent]) :: rest
      else (n, legends) :: record_legend name permanent rest
  end.

Definition collect_legends (bf : list MTGCard) : list (string * list MTGCard) :=
  fold_left
    (fun legendsByName permanent =>
       if isLegendary permanent
       then record_legend (getLegendaryName permanent) permanent legendsByName
       else legendsByName)
    bf [].

Definition legendAction (entry : string * list MTGCard)
    : list StateBasedAction :=
  let '(name, legends) := entry in
  if Nat.ltb 1 (length legends) then
    let toDestroy := drop 1 legends in
    [ {| type := "legend_rule_violation";
         description := "Legend rule: duplicate " +:+ name +:+
                        " permanents destroyed";
         affectedCards := Some toDestroy; affectedPlayer := None;
         data := Some [("legendName", VStr name);
                       ("count", VNum (Z.of_nat (length legends)))] |} ]
  else [].

Definition legendActions (bf : list MTGCard) : list StateBasedAction :=
  flat_map legendAction (collect_legends bf).

Definition checkLegendRuleActions (gameState : GameState)
    : list StateBasedAction :=
  over_battlefields gameState legendActions.

Definition checkWorldRuleActions (gameState : GameState)
    : list StateBasedAction :=
  let worldPermanents :=
    flat_map (fun '(_, bf) => List.filter isWorld bf)
      (bf_entries (battlefield gameState)) in
  if Nat.ltb 1 (length worldPermanents) then
    [ {| type := "world_rule_violation";
         description := "World rule: all world permanents destroyed";
         affectedCards := Some worldPermanents; affectedPlayer := None;
         data := Some [("count", VNum (Z.of_nat (length worldPermanents)))] |} ]
  else [].

Definition auraActions (gameState : GameState) (aura : MTGCard)
    : list StateBasedAction :=
  if negb (isAura aura) then []
  else
    let attachedTo := getAttachmentTarget aura in
    let illegal :=
      match attachedTo with
      | None => true
      | Some target => negb (isValidAttachmentTarget aura target gameState)
      end in
    if illegal then
      [ {| type := "aura_unattached";
           description := card_name aura +:+
                          " is put into graveyard (not attached to legal object)";
           affectedCards := Some [aura]; affectedPlayer := None;
           data := Some [("attachedTo",
                          match attachedTo with
                          | Some target => VStr (card_id target)
                          | None => VUndefined
                          end)] |} ]
    else [].

Definition checkAuraStateActions (gameState : GameState)
    : list StateBasedAction :=
  over_battlefields gameState (flat_map (auraActions gameState)).

Definition equipmentActions (gameState : GameState) (equipment : MTGCard)
    : list StateBasedAction :=
  if negb (isEquipment equipment) then []
  else
    match getAttachmentTarget equipment with
    | Some attachedTo =>
        if negb (isValidEquipmentTarget equipment attachedTo gameState) then
          [ {| type := "equipment_unattached";
               description := card_name equipment +:+
                              " becomes unattached (attached to illegal creature)";
               affectedCards := Some [equipment]; affectedPlayer := None;
               data := Some [("attachedTo", VStr (card_id attachedTo))] |} ]
        else []
    | None => []
    end.

Definition checkEquipmentStateActions (gameState : GameState)
    : list StateBasedAction :=
  over_battlefields gameState (flat_map (equipmentActions gameState)).

Definition checkStateBasedActions (gameState : GameState)
    : list StateBasedAction :=
  checkPlayerStateActions gameState ++
  checkCreatureStateActions gameState ++
  checkPlaneswalkerStateActions gameState ++
  checkLegendRuleActions gameState ++
  checkWorldRuleActions gameState ++
  checkAuraStateActions gameState ++
  checkEquipmentStateActions gameState.

(** *** Applying the actions. These methods mutate the copy that
    [executeStateBasedActions] made; each is the state it leaves. *)

Definition has_id (c : MTGCard) (d : MTGCard) : bool :=
  String.eqb (card_id d) (card_id c).

(** One turn of the outer loop of [moveCardsToGraveyard]: the first
    battlefield, in the order of the keys, that holds the identifier loses
    its first such card, and [card] is pushed onto that player's
    graveyard. *)
Fixpoint move_from (c : MTGCard) (entries : list (PlayerKey * list MTGCard))
    (gameState : GameState) : GameState :=
  match entries with
  | [] => gameState
  | (playerKey, bf) :: entries' =>
      match JS.remove_first (has_id c) bf with
      | Some (_, rest) =>
          update_player playerKey
            (fun p => with_graveyard p (graveyard p ++ [c]))
            (update_bf playerKey (fun _ => rest) gameState)
      | None => move_from c entries' gameState
      end
  end.

Definition moveCardToGraveyard (gameState : GameState) (c : MTGCard)
    : GameState :=
  move_from c (bf_entries (battlefield gameState)) gameState.

Definition moveCardsToGraveyard (cards : list MTGCard) (gameState : GameState)
    : GameState :=
  fold_left moveCardToGraveyard cards gameState.

Definition unattachEquipment (cards : list MTGCard) (gameState : GameState)
    : GameState := gameState.

Definition graveyard_bound (t : string) : bool :=
  String.eqb t "creature_dies_toughness" || String.eqb t "creature_dies_damage" ||
  String.eqb t "creature_dies_deathtouch" || String.eqb t "planeswalker_dies" ||
  String.eqb t "legend_rule_violation" || String.eqb t "world_rule_violation" ||
  String.eqb t "aura_unattached".

Definition player_loss (t : string) : bool :=
  String.eqb t "player_loses_life" || String.eqb t "player_loses_library" ||
  String.eqb t "player_loses_poison".

Definition executeAction (action : StateBasedAction) (gameState : GameState)
    : GameState :=
  if graveyard_bound (type action) then
    moveCardsToGraveyard (default [] (affectedCards action)) gameState
  else if String.eqb (type action) "equipment_unattached" then
    unattachEquipment (default [] (affectedCards action)) gameState
  else if player_loss (type action) then gameState
  else gameState.

Definition executeStateBasedActions (actions : list StateBasedAction)
    (gameState : GameState) : GameState :=
  let newGameState := gameState in   (* JSON.parse(JSON.stringify(gameState)) *)
  fold_left (fun g action => executeAction action g) actions newGameState.

End StateBasedActionManager.

(** ** [MTGRulesEngine] *)

Module MTGRulesEngine.

Record RuleValidationResult := {
  isValid : bool;
  errors : list string;
  warnings : option (list string)
}.

Record FormatRules := {
  minDeckSize : Z;
  maxDeckSize : option Z;
  exactDeckSize : option Z;
  maxCopies : Z;
  commanderRequired : bool
}.

Inductive ActionType :=
| cast_spell | activate_ability | declare_attackers_action
| declare_blockers_action | play_land | pass_priority
| other_action (name : string).   (* what the [default] branch receives *)

(** [Partial<ManaPool>] *)
Record ManaPayment := {
  pay_white : option Z; pay_blue : option Z; pay_black : option Z;
  pay_red : option Z; pay_green : option Z; pay_colorless : option Z
}.

Definition no_payment : ManaPayment :=
  {| pay_white := None; pay_blue := None; pay_black := None;
     pay_red := None; pay_green := None; pay_colorless := None |}.

Record GameAction := {
  type : ActionType;
  actor : PlayerKey;               (* the field [player] *)
  cardId : option string;
  targets : option (list string);
  manaPayment : option ManaPayment
}.

(** *** The two statements that report a violation *)

(** [result.errors.push(msg)] *)
Definition push_error (msg : string) (r : RuleValidationResult)
    : RuleValidationResult :=
  {| isValid := isValid r; errors := errors r ++ [msg]; warnings := warnings r |}.

(** [result.isValid = false] *)
Definition set_invalid (r : RuleValidationResult) : RuleValidationResult :=
  {| isValid := false; errors := errors r; warnings := warnings r |}.

(** [result.warnings?.push(msg)] *)
Definition push_warning (msg : string) (r : RuleValidationResult)
    : RuleValidationResult :=
  {| isValid := isValid r; errors := errors r;
     warnings := match warnings r with
                 | Some ws => Some (ws ++ [msg])
                 | None => None
                 end |}.

(** The pair of statements every violation is reported with. *)
Definition report (msg : string) (r : RuleValidationResult)
    : RuleValidationResult :=
  set_invalid (push_error msg r).

Definition fresh_result : RuleValidationResult :=
  {| isValid := true; errors := []; warnings := Some [] |}.

(** *** Card predicates *)

Definition type_has (c : MTGCard) (word : string) : bool :=
  JS.includes (JS.toLowerCase (type_line c)) word.

Definition isLand (c : MTGCard) : bool := type_has c "land".
Definition isInstant (c : MTGCard) : bool := type_has c "instant".
Definition isSorcery (c : MTGCard) : bool := type_has c "sorcery".
Definition isPlaneswalker (c : MTGCard) : bool := type_has c "planeswalker".
Definition isLegendary (c : MTGCard) : bool := type_has c "legendary".
Definition isCreature (c : MTGCard) : bool := type_has c "creature".

Definition isPermanent (c : MTGCard) : bool :=
  type_has c "creature" || type_has c "artifact" || type_has c "enchantment" ||
  type_has c "planeswalker" || type_has c "land".

Definition isBasicLand (cardName : string) : bool :=
  existsb (String.eqb (JS.toLowerCase cardName))
    ["plains"; "island"; "swamp"; "mountain"; "forest"; "wastes"].

(** *** Mana *)

Definition add_mana (m : ManaPool) (w u b r g c : Z) : ManaPool :=
  {| white := white m + w; blue := blue m + u; black := black m + b;
     red := red m + r; green := green m + g; colorless := colorless m + c |}%Z.

Definition count_symbol (cost : ManaPool) (symbol : ascii) : ManaPool :=
  let s := JS.lower_char symbol in
  if Ascii.eqb s "w" then add_mana cost 1 0 0 0 0 0
  else if Ascii.eqb s "u" then add_mana cost 0 1 0 0 0 0
  else if Ascii.eqb s "b" then add_mana cost 0 0 1 0 0 0
  else if Ascii.eqb s "r" then add_mana cost 0 0 0 1 0 0
  else if Ascii.eqb s "g" then add_mana cost 0 0 0 0 1 0
  else if JS.is_digit symbol then add_mana cost 0 0 0 0 0 (JS.digit_value symbol)
  else cost.

Definition parseManaCost (manaCost : string) : ManaPool :=
  let cost :=
    {| white := 0; blue := 0; black := 0; red := 0; green := 0;
       colorless := 0 |} in
  let symbols := list_ascii_of_string (JS.strip_braces manaCost) in
  fold_left count_symbol symbols cost.

Inductive Color := White | Blue | Black | Red | Green | Colorless.

(** [Object.entries(requiredMana)], in the order the object was built. *)
Definition pool_entries : list Color := [White; Blue; Black; Red; Green; Colorless].

Definition pool_get (m : ManaPool) (k : Color) : Z :=
  match k with
  | White => white m | Blue => blue m | Black => black m
  | Red => red m | Green => green m | Colorless => colorless m
  end.

(** [payment[color] || 0] *)
Definition paid (payment : ManaPayment) (k : Color) : Z :=
  default 0%Z
    match k with
    | White => pay_white payment | Blue => pay_blue payment
    | Black => pay_black payment | Red => pay_red payment
    | Green => pay_green payment | Colorless => pay_colorless payment
    end.

Definition sum_values (f : Color -> Z) : Z :=
  fold_left (fun sum k => (sum + f k)%Z) pool_entries 0%Z.

Definition is_colorless (k : Color) : bool :=
  match k with Colorless => true | _ => false end.

Definition validateManaCost (c : MTGCard) (payment : ManaPayment)
    (availableMana : ManaPool) : bool :=
  match mana_cost c with
  | None => true
  | Some cost =>
      if String.eqb cost "" then true
      else
        let requiredMana := parseManaCost cost in
        let totalRequired := sum_values (pool_get requiredMana) in
        let totalPayment := sum_values (paid payment) in
        let totalAvailable := sum_values (pool_get availableMana) in
        if negb (Z.eqb totalPayment totalRequired) ||
           (totalAvailable <? totalPayment)%Z then false
        else
          forallb
            (fun color =>
               let required := pool_get requiredMana color in
               let available := pool_get availableMana color in
               negb ((available <? paid payment color)%Z ||
                     (negb (is_colorless color) &&
                      (paid payment color <? required)%Z)))
            pool_entries
  end.

(** *** Targets: the count of the word "target" in the text, in any case *)

Fixpoint count_target (skip : nat) (s : string) : nat :=
  match s with
  | EmptyString => 0
  | String _ s' =>
      match skip with
      | S n => count_target n s'
      | O =>
          if String.eqb (JS.toLowerCase (substring 0 6 s)) "target"
          then S (count_target 5 s')
          else count_target 0 s'
      end
  end.

Definition validateTargets (c : MTGCard) (targets : list string)
    (gameState : GameState) : bool :=
  match oracle_text c with
  | None => true
  | Some text =>
      if String.eqb text "" then true
      else Nat.eqb (length targets) (count_target 0 text)
  end.

(** *** Timing as the engine checks it *)

Definition main_phase_empty_stack (gameState : GameState) : bool :=
  (bool_decide (phase gameState = main1) || bool_decide (phase gameState = main2))
  && Nat.eqb (length (stack gameState)) 0.

Definition canCastAtCurrentTiming (c : MTGCard) (gameState : GameState) : bool :=
  if isInstant c then true
  else if isSorcery c || isPermanent c then main_phase_empty_stack gameState
  else false.

Definition canPlayLandAtCurrentTiming (gameState : GameState) : bool :=
  main_phase_empty_stack gameState.

Definition findCardInHand (cardId : string) (p : PlayerState) : option MTGCard :=
  List.find (fun c => String.eqb (card_id c) cardId) (hand p).

(** [!action.cardId]: the identifier is missing or empty. *)
Definition given_id (a : GameAction) : option string :=
  match cardId a with
  | Some i => if String.eqb i "" then None else Some i
  | None => None
  end.

(** *** The validators. Each takes the result object and leaves it
    updated. *)

Definition when (b : bool) (f : RuleValidationResult -> RuleValidationResult)
    (r : RuleValidationResult) : RuleValidationResult :=
  if b then f r else r.

Definition validateSpellCast (action : GameAction) (gameState : GameState)
    (result : RuleValidationResult) : RuleValidationResult :=
  match given_id action with
  | None => report "Card ID is required for casting spells" result
  | Some i =>
      let p := get_player (players gameState) (actor action) in
      match findCardInHand i p with
      | None => report "Card not found in player hand" result
      | Some c =>
          let r1 :=
            when (negb (canCastAtCurrentTiming c gameState))
              (report ("Cannot cast " +:+ card_name c +:+ " at current timing"))
              result in
          let r2 :=
            when (negb (validateManaCost c
                          (default no_payment (manaPayment action)) (mana_pool p)))
              (report ("Insufficient mana to cast " +:+ card_name c)) r1 in
          when (match targets action with
                | Some ts => negb (validateTargets c ts gameState)
                | None => false
                end)
            (report ("Invalid targets for " +:+ card_name c)) r2
      end
  end.

Definition validateLandPlay (action : GameAction) (gameState : GameState)
    (result : RuleValidationResult) : RuleValidationResult :=
  match given_id action with
  | None => report "Card ID is required for playing lands" result
  | Some i =>
      let p := get_player (players gameState) (actor action) in
      match findCardInHand i p with
      | None => report "Card not found in player hand" result
      | Some c =>
          let r1 :=
            when (negb (isLand c)) (report (card_name c +:+ " is not a land"))
              result in
          when (negb (canPlayLandAtCurrentTiming gameState))
            (report "Cannot play land at current timing") r1
      end
  end.

Definition validateAbilityActivation (action : GameAction)
    (gameState : GameState) (result : RuleValidationResult)
    : RuleValidationResult :=
  push_warning "Ability activation validation not fully implemented" result.

Definition in_step (gameState : GameState) (s : Step) : bool :=
  bool_decide (phase gameState = combat) &&
  bool_decide (step gameState = Some s).

Definition validateAttackerDeclaration (action : GameAction)
    (gameState : GameState) (result : RuleValidationResult)
    : RuleValidationResult :=
  let r1 :=
    when (negb (in_step gameState declare_attackers))
      (report "Can only declare attackers during declare attackers step")
      result in
  when (negb (bool_decide (active_player gameState = actor action)))
    (report "Only active player can declare attackers") r1.

Definition validateBlockerDeclaration (action : GameAction)
    (gameState : GameState) (result : RuleValidationResult)
    : RuleValidationResult :=
  let r1 :=
    when (negb (in_step gameState declare_blockers))
      (report "Can only declare blockers during declare blockers step")
      result in
  let defendingPlayer :=
    if bool_decide (active_player gameState = player) then ai else player in
  when (negb (bool_decide (defendingPlayer = actor action)))
    (report "Only defending player can declare blockers") r1.

Definition validatePriorityPass (action : GameAction) (gameState : GameState)
    (result : RuleValidationResult) : RuleValidationResult :=
  when (negb (bool_decide (priority gameState = actor action)))
    (report "Player does not have priority") result.

(** [validateAction]. No validator throws on a well-typed action and
    snapshot, so the [catch] clause, which reports the exception the same
    way, is never entered. *)
Definition validateAction (action : GameAction) (gameState : GameState)
    : RuleValidationResult :=
  let result := fresh_result in
  match type action with
  | cast_spell => validateSpellCast action gameState result
  | play_land => validateLandPlay action gameState result
  | activate_ability => validateAbilityActivation action gameState result
  | declare_attackers_action => validateAttackerDeclaration action gameState result
  | declare_blockers_action => validateBlockerDeclaration action gameState result
  | pass_priority => validatePriorityPass action gameState result
  | other_action name => report ("Unknown action type: " +:+ name) result
  end.

(** *** Format legality *)

Record DeckCard := { deck_card : MTGCard; quantity : Z }.

Definition standard_rules : FormatRules :=
  {| minDeckSize := 60; maxDeckSize := None; exactDeckSize := None;
     maxCopies := 4; commanderRequired := false |}.

Definition getFormatRules (format : string) : FormatRules :=
  let formatLower := JS.toLowerCase format in
  if existsb (String.eqb formatLower) ["standard"; "modern"; "legacy"; "vintage"]
  then standard_rules
  else if existsb (String.eqb formatLower) ["commander"; "edh"] then
    {| minDeckSize := 100; maxDeckSize := None; exactDeckSize := Some 100%Z;
       maxCopies := 1; commanderRequired := true |}
  else if existsb (String.eqb formatLower) ["limited"; "draft"; "sealed"] then
    {| minDeckSize := 40; maxDeckSize := None; exactDeckSize := None;
       maxCopies := 99; commanderRequired := false |}
  else standard_rules.

Definition hasCommander (mainboard : list DeckCard) : bool :=
  existsb
    (fun deckCard =>
       isLegendary (deck_card deckCard) &&
       (isCreature (deck_card deckCard) || isPlaneswalker (deck_card deckCard)) &&
       Z.eqb (quantity deckCard) 1)
    mainboard.

(** What the loop over the mainboard carries. *)
Record Tally := {
  cardCounts : gmap string Z;
  totalCards : Z;
  verdict : RuleValidationResult
}.

(** The body of the loop over the mainboard. [count] is the number of
    copies seen before this entry. *)
Definition tally_entry (format : string) (formatRules : FormatRules)
    (t : Tally) (deckCard : DeckCard) : Tally :=
  let name := card_name (deck_card deckCard) in
  let count := default 0%Z (cardCounts t !! name) in
  let legality :=
    JS.get_member (legalities (deck_card deckCard)) (JS.toLowerCase format) in
  let r1 :=
    if bool_decide (legality = JS.Own "banned") then
      report (name +:+ " is banned in " +:+ format) (verdict t)
    else if bool_decide (legality = JS.Own "restricted") &&
            (1 <? quantity deckCard)%Z then
      report (name +:+ " is restricted to 1 copy in " +:+ format) (verdict t)
    else if JS.falsy legality ||
            bool_decide (legality = JS.Own "not_legal") then
      report (name +:+ " is not legal in " +:+ format) (verdict t)
    else verdict t in
  let r2 :=
    when (negb (isBasicLand name) && (maxCopies formatRules <? count)%Z)
      (report ("Too many copies of " +:+ name +:+ " (" +:+ JS.show count +:+
               "/" +:+ JS.show (maxCopies formatRules) +:+ ")")) r1 in
  {| cardCounts := <[name := (count + quantity deckCard)%Z]> (cardCounts t);
     totalCards := (totalCards t + quantity deckCard)%Z;
     verdict := r2 |}.

Definition positive_bound (bound : option Z) : option Z :=
  match bound with
  | Some b => if Z.eqb b 0 then None else Some b
  | None => None
  end.

Definition validateFormatLegality (mainboard : list DeckCard) (format : string)
    : RuleValidationResult :=
  let formatRules := getFormatRules format in
  let t :=
    fold_left (tally_entry format formatRules) mainboard
      {| cardCounts := ∅; totalCards := 0; verdict := fresh_result |} in
  let total := totalCards t in
  let r1 :=
    when (total <? minDeckSize formatRules)%Z
      (report ("Deck too small (" +:+ JS.show total +:+ "/" +:+
               JS.show (minDeckSize formatRules) +:+ ")")) (verdict t) in
  let r2 :=
    match positive_bound (maxDeckSize formatRules) with
    | Some most =>
        when (most <? total)%Z
          (report ("Deck too large (" +:+ JS.show total +:+ "/" +:+
                   JS.show most +:+ ")")) r1
    | None => r1
    end in
  let r3 :=
    match positive_bound (exactDeckSize formatRules) with
    | Some exact =>
        when (negb (Z.eqb total exact))
          (report ("Deck must be exactly " +:+ JS.show exact +:+ " cards (" +:+
                   JS.show total +:+ ")")) r2
    | None => r2
    end in
  when (commanderRequired formatRules && negb (hasCommander mainboard))
    (report "Commander format requires a legendary creature or planeswalker commander")
    r3.

(** *** The engine's own scan, which reports sentences *)

Definition getCreatureToughness (c : MTGCard) : Z :=
  match toughness c with
  | Some t => if String.eqb t "" then 0%Z else default 0%Z (JS.parseInt t)
  | None => 0%Z
  end.

Definition key_name (k : PlayerKey) : string :=
  match k with player => "player" | ai => "ai" end.

Definition player_sentences (playerKey : PlayerKey) (p : PlayerState)
    : list string :=
  (if (life p <=? 0)%Z
   then [key_name playerKey +:+ " loses the game due to 0 or less life"]
   else []) ++
  (if Nat.eqb (length (library p)) 0
   then [key_name playerKey +:+ " loses the game by drawing from empty library"]
   else []).

Definition creature_sentences (playerKey : PlayerKey) (bf : list MTGCard)
    : list string :=
  flat_map
    (fun creature =>
       if isCreature creature && (getCreatureToughness creature <=? 0)%Z
       then [card_name creature +:+ " is put into " +:+ key_name playerKey +:+
             "'s graveyard (0 toughness)"]
       else [])
    bf.

Definition checkStateBasedActions (gameState : GameState) : list string :=
  flat_map (fun '(playerKey, p) => player_sentences playerKey p)
    (player_entries (players gameState)) ++
  flat_map (fun '(playerKey, bf) => creature_sentences playerKey bf)
    (bf_entries (battlefield gameState)).

Definition getMinDeckSize (format : string) : Z :=
  let formatLower := JS.toLowerCase format in
  if existsb (String.eqb formatLower) ["standard"; "modern"; "legacy"; "vintage"]
  then 60%Z
  else if existsb (String.eqb formatLower) ["commander"; "edh"] then 100%Z
  else if existsb (String.eqb formatLower) ["limited"; "draft"; "sealed"] then 40%Z
  else 60%Z.

End MTGRulesEngine.

(** * Vocabulary of the statements *)

Section ZoneVocabulary.
Import ZoneManager.

(** The snapshot an accepted move builds from [gs]. *)
Definition moved (event : ZoneChangeEvent) (gs : GameState) : GameState :=
  addCardToZone (card event) (to event) (ev_owner event)
    (removeCardFromZone (card event) (from event) (ev_owner event) gs)
    (position event) (faceDown event).

(** The card lies at [pl] and nowhere else. *)
Definition exactly_in (c : MTGCard) (pl : Place) (gs : GameState) : Prop :=
  forall q, lies_in c q gs = true <-> q = pl.

(** The card lies nowhere in the snapshot. *)
Definition nowhere (c : MTGCard) (gs : GameState) : Prop :=
  forall q, lies_in c q gs = false.

End ZoneVocabulary.

(** ** Fixtures (the objects the repository's tests build) *)

Definition no_mana : ManaPool :=
  {| white := 0; blue := 0; black := 0; red := 0; green := 0; colorless := 0 |}.

(** The [mockCard] of the zone-manager tests. *)
Definition bolt : MTGCard :=
  {| card_id := "test-card-1"; card_name := "Lightning Bolt";
     mana_cost := Some "{R}"; cmc := 1; type_line := "Instant";
     oracle_text := None; power := None; toughness := None;
     colors := ["R"]; color_identity := ["R"];
     legalities := {[ "standard" := "legal" ]};
     card_set := "LEA"; set_name := "Limited Edition Alpha";
     rarity := "common" |}.

Definition empty_seat : PlayerState :=
  {| life := 20; mana_pool := no_mana; hand := []; library := [];
     graveyard := []; exile := [] |}.

(** The [mockGameState] of the zone-manager tests: the card is in the hand
    of [player] and nowhere else. *)
Definition gs_bolt_in_hand : GameState :=
  {| game_id := "test-game"; turn_number := 1; active_player := player;
     phase := main1; step := None; priority := player;
     players := {| pl_player := with_hand empty_seat [bolt];
                   pl_ai := empty_seat;
                   pl_keys := player_first |};
     battlefield := {| bf_player := []; bf_ai := [];
                       bf_keys := player_first |};
     stack := []; combat_state := None; game_log := [] |}.

Section ZoneClaims.
Import ZoneManager.

Definition cast_bolt : ZoneChangeEvent :=
  {| card := bolt; from := zhand; to := zstack; ev_owner := player;
     position := None; faceDown := None |}.

Definition gs_bolt_in_library : GameState :=
  with_players gs_bolt_in_hand
    {| pl_player := with_library empty_seat [bolt]; pl_ai := empty_seat;
       pl_keys := player_first |}.

Definition library_to_stack : ZoneChangeEvent :=
  {| card := bolt; from := zlibrary; to := zstack; ev_owner := player;
     position := None; faceDown := None |}.

(** C1 as the specification words it, at one event and one store: after an
    accepted move the card lies in the destination zone and nowhere else. *)
Definition card_kept_in_destination (event : ZoneChangeEvent) (r : nat)
    (h : gmap nat GameState) (gs : GameState) : Prop :=
  h !! r = Some gs ->
  validateZoneChange event gs = Ok true ->
  exists r' h' gs',
    executeZoneChange event r h = (Ok r', h') /\
    h' !! r' = Some gs' /\
    exactly_in (card event) (place_of_zone (to event) (ev_owner event)) gs'.

End ZoneClaims.

Section TimingVocabulary.
Import TimingManager.

(** The type line names the card an instant. *)
Definition instant_typed (c : MTGCard) : bool :=
  JS.includes (JS.toLowerCase (type_line c)) "instant".

(** The text of the card carries none of the phrases from which
    [getTextBasedTiming] derives a window or a special condition. *)
Definition imposes_no_condition (c : MTGCard) : bool :=
  negb (JS.includes (lower_text c) "can only be cast during combat") &&
  negb (JS.includes (lower_text c) "can only be cast during your turn") &&
  negb (JS.includes (lower_text c) "can only be cast during an opponent's turn") &&
  negb (JS.includes (lower_text c)
          "can only be cast if a creature attacked this turn").

(** The type line names one of the five kinds the specification lists as
    sorcery-speed. *)
Definition sorcery_speed_typed (c : MTGCard) : bool :=
  let typeLine := JS.toLowerCase (type_line c) in
  JS.includes typeLine "sorcery" || JS.includes typeLine "creature" ||
  JS.includes typeLine "artifact" || JS.includes typeLine "enchantment" ||
  JS.includes typeLine "planeswalker".

End TimingVocabulary.

(** A card with the fields the rules read; the rest is filler. *)
Definition a_card (i name types : string) (cost text tough : option string)
    : MTGCard :=
  {| card_id := i; card_name := name; mana_cost := cost; cmc := 0;
     type_line := types; oracle_text := text; power := None;
     toughness := tough; colors := []; color_identity := [];
     legalities := ∅; card_set := "LEA";
     set_name := "Limited Edition Alpha"; rarity := "common" |}.

(** The board of the targeting tests: one creature on each side. *)
Definition grizzly_bears : MTGCard :=
  a_card "creature-1" "Grizzly Bears" "Creature — Bear" (Some "{1}{G}") None
    (Some "2").

Definition savannah_lions : MTGCard :=
  a_card "creature-2" "Savannah Lions" "Creature — Cat" (Some "{W}") None
    (Some "1").

Definition gs_two_creatures : GameState :=
  {| game_id := "test-game"; turn_number := 1; active_player := player;
     phase := main1; step := None; priority := player;
     players := {| pl_player := empty_seat; pl_ai := empty_seat;
                   pl_keys := player_first |};
     battlefield := {| bf_player := [grizzly_bears]; bf_ai := [savannah_lions];
                       bf_keys := player_first |};
     stack := []; combat_state := None; game_log := [] |}.

Definition giant_growth : MTGCard :=
  a_card "spell-2" "Giant Growth" "Instant" (Some "{G}")
    (Some "Target creature you control gets +3/+3 until end of turn.") None.

Definition forked_lightning : MTGCard :=
  a_card "spell-3" "Forked Lightning" "Sorcery" (Some "{3}{R}")
    (Some "Forked Lightning deals 2 damage to up to two target creatures.") None.

Definition triple_shock : MTGCard :=
  a_card "spell-5" "Triple Shock" "Sorcery" (Some "{2}{R}")
    (Some "Triple Shock deals 1 damage to each of up to three target creatures.")
    None.

Section StateBasedVocabulary.
Import StateBasedActionManager.

(** The legendary permanents of a battlefield that go by [name], in the
    order of the battlefield. *)
Definition legends_named (name : string) (bf : list MTGCard) : list MTGCard :=
  List.filter (fun c => isLegendary c && String.eqb (getLegendaryName c) name) bf.

(** The entry of [legendsByName] under a name. *)
Fixpoint legends_under (name : string) (m : list (string * list MTGCard))
    : option (list MTGCard) :=
  match m with
  | [] => None
  | (n, legends) :: rest =>
      if String.eqb n name then Some legends else legends_under name rest
  end.

(** The name a legend-rule action reports in its [data]. *)
Definition reported_name (a : StateBasedAction) : option string :=
  match data a with
  | Some (("legendName", VStr n) :: _) => Some n
  | _ => None
  end.

(** The cards an action slates. *)
Definition slated (a : StateBasedAction) : list MTGCard :=
  default [] (affectedCards a).

End StateBasedVocabulary.

Section GraveyardVocabulary.
Import StateBasedActionManager.

(** The loop that fills [legendsByName], from any map it starts with. *)
Definition fill_legends (bf : list MTGCard) (m : list (string * list MTGCard)) :=
  fold_left
    (fun legendsByName permanent =>
       if isLegendary permanent
       then record_legend (getLegendaryName permanent) permanent legendsByName
       else legendsByName)
    bf m.

(** The identifiers on the two battlefields, [player]'s first. *)
Definition battlefield_ids (gs : GameState) : list string :=
  map card_id (bf_player (battlefield gs) ++ bf_ai (battlefield gs)).

(** The data model gives every card instance its own identifier; on the
    battlefields this says that no identifier occurs twice. *)
Definition distinct_on_battlefield (gs : GameState) : Prop :=
  NoDup (battlefield_ids gs).

(** The cards a list of actions sends to the graveyard, in the order
    [executeStateBasedActions] meets them. *)
Definition cards_to_move (actions : list StateBasedAction) : list MTGCard :=
  flat_map (fun a => if graveyard_bound (type a) then slated a else []) actions.

End GraveyardVocabulary.

Section EngineVocabulary.
Import MTGRulesEngine.

(** The total of a pool and of a payment. *)
Definition pool_total (m : ManaPool) : Z :=
  (white m + blue m + black m + red m + green m + colorless m)%Z.

Definition payment_total (payment : ManaPayment) : Z :=
  (paid payment White + paid payment Blue + paid payment Black +
   paid payment Red + paid payment Green + paid payment Colorless)%Z.

(** What is paid in a colour beyond that colour's own requirement. *)
Definition surplus (required : ManaPool) (payment : ManaPayment) (k : Color) : Z :=
  (paid payment k - pool_get required k)%Z.

(** The [mockCard] and [mockGameState] of the engine tests: the card is in
    the hand of [player], who has one red mana. *)
Definition engine_bolt : MTGCard :=
  {| card_id := "test-card-1"; card_name := "Lightning Bolt";
     mana_cost := Some "{R}"; cmc := 1; type_line := "Instant";
     oracle_text := Some "Lightning Bolt deals 3 damage to any target.";
     power := None; toughness := None;
     colors := ["R"]; color_identity := ["R"];
     legalities := {[ "standard" := "legal"; "modern" := "legal" ]};
     card_set := "LEA"; set_name := "Limited Edition Alpha";
     rarity := "common" |}.

Definition one_red : ManaPool :=
  {| white := 0; blue := 0; black := 0; red := 1; green := 0; colorless := 0 |}.

Definition gs_engine : GameState :=
  {| game_id := "test-game"; turn_number := 1; active_player := player;
     phase := main1; step := None; priority := player;
     players :=
       {| pl_player := {| life := 20; mana_pool := one_red; hand := [engine_bolt];
                          library := []; graveyard := []; exile := [] |};
          pl_ai := empty_seat;
          pl_keys := player_first |};
     battlefield := {| bf_player := []; bf_ai := [];
                       bf_keys := player_first |};
     stack := []; combat_state := None; game_log := [] |}.

Definition pay_one_red : ManaPayment :=
  {| pay_white := None; pay_blue := None; pay_black := None;
     pay_red := Some 1%Z; pay_green := None; pay_colorless := None |}.

Definition pay_one_white : ManaPayment :=
  {| pay_white := Some 1%Z; pay_blue := None; pay_black := None;
     pay_red := None; pay_green := None; pay_colorless := None |}.

Definition cast_with (payment : ManaPayment) : GameAction :=
  {| type := cast_spell; actor := player; cardId := Some "test-card-1";
     targets := None; manaPayment := Some payment |}.

End EngineVocabulary.

(** A verdict is coherent when it is valid exactly if it lists no error. *)
Definition coherent (r : MTGRulesEngine.RuleValidationResult) : Prop :=
  MTGRulesEngine.isValid r = true <-> MTGRulesEngine.errors r = [].

Definition activate_something : MTGRulesEngine.GameAction :=
  {| MTGRulesEngine.type := MTGRulesEngine.activate_ability;
     MTGRulesEngine.actor := player;
     MTGRulesEngine.cardId := Some "test-card-1";
     MTGRulesEngine.targets := None; MTGRulesEngine.manaPayment := None |}.

(** Three copies of one legend on the battlefield of [player]. *)
Definition isamaru (i : string) : MTGCard :=
  a_card i "Isamaru, Hound of Konda" "Legendary Creature — Dog" (Some "{W}")
    None (Some "2").

Definition gs_three_legends : GameState :=
  {| game_id := "test-game"; turn_number := 1; active_player := player;
     phase := main1; step := None; priority := player;
     players := {| pl_player := with_library empty_seat [bolt];
                   pl_ai := with_library empty_seat [bolt];
                   pl_keys := player_first |};
     battlefield :=
       {| bf_player := [isamaru "legend-1"; isamaru "legend-2"; isamaru "legend-3"];
          bf_ai := [];
          bf_keys := player_first |};
     stack := []; combat_state := None; game_log := [] |}.

Definition four_bolts : list MTGRulesEngine.DeckCard :=
  [ {| MTGRulesEngine.deck_card := engine_bolt; MTGRulesEngine.quantity := 4 |} ].

(** Outside the data model: one identifier on three permanents, one of
    [player] and two of [ai]. *)
Definition gs_shared_identifier : GameState :=
  {| game_id := "test-game"; turn_number := 1; active_player := player;
     phase := main1; step := None; priority := player;
     players := {| pl_player := with_library empty_seat [bolt];
                   pl_ai := with_library empty_seat [bolt];
                   pl_keys := player_first |};
     battlefield :=
       {| bf_player := [isamaru "legend-1"];
          bf_ai := [isamaru "legend-1"; isamaru "legend-1"];
          bf_keys := player_first |};
     stack := []; combat_state := None; game_log := [] |}.

Section FrameVocabulary.
Import ZoneManager.

(** The cards of a zone other than the one being moved, in zone order. *)
Definition others (c : MTGCard) (l : list MTGCard) : list MTGCard :=
  List.filter (differs c) l.

(** The stack objects whose source is another card. *)
Definition other_objects (c : MTGCard) (l : list StackObject) : list StackObject :=
  List.filter (fun obj => differs c (source obj)) l.

(** A pick that always takes the index itself: the shuffle that moves
    nothing. *)
Definition pick_same (i : nat) : nat := i.

(** A pick that always takes the first cell. *)
Definition pick_first (i : nat) : nat := 0.

Definition three_cards : PlayerState :=
  with_library empty_seat
    [isamaru "legend-1"; isamaru "legend-2"; isamaru "legend-3"].

Definition bolt_to_library : ZoneChangeEvent :=
  {| card := bolt; from := zhand; to := zlibrary; ev_owner := player;
     position := None; faceDown := None |}.

End FrameVocabulary.

Section FrameRelation.
Import ZoneManager.

(** Two snapshots that differ at most in where the card [c] lies: every
    zone holds the same other cards in the same order, and the fields that
    are not zones are equal. *)
Definition same_but (c : MTGCard) (g g' : GameState) : Prop :=
  (forall k,
     others c (hand (get_player (players g') k)) =
       others c (hand (get_player (players g) k)) /\
     others c (library (get_player (players g') k)) =
       others c (library (get_player (players g) k)) /\
     others c (graveyard (get_player (players g') k)) =
       others c (graveyard (get_player (players g) k)) /\
     others c (exile (get_player (players g') k)) =
       others c (exile (get_player (players g) k)) /\
     others c (get_bf (battlefield g') k) = others c (get_bf (battlefield g) k) /\
     life (get_player (players g') k) = life (get_player (players g) k) /\
     mana_pool (get_player (players g') k) = mana_pool (get_player (players g) k)) /\
  other_objects c (stack g') = other_objects c (stack g) /\
  game_id g' = game_id g /\ turn_number g' = turn_number g /\
  active_player g' = active_player g /\ phase g' = phase g /\
  step g' = step g /\ priority g' = priority g /\
  combat_state g' = combat_state g /\ game_log g' = game_log g /\
  pl_keys (players g') = pl_keys (players g) /\
  bf_keys (battlefield g') = bf_keys (battlefield g).

End FrameRelation.

Section AbilityVocabulary.
Import TimingManager.

(** The text [getAbilityTiming] reads, lower-cased: the ability text when
    one is given and not empty, else the text of the card, else nothing. *)
Definition ability_text (c : MTGCard) (abilityText : option string) : string :=
  JS.toLowerCase
    match abilityText with
    | Some t => if String.eqb t "" then default "" (oracle_text c) else t
    | None => default "" (oracle_text c)
    end.

(** The ability may be activated only when a sorcery could be cast. *)
Definition sorcery_only (text : string) : bool :=
  JS.includes text "activate only as a sorcery" ||
  JS.includes text "activate this ability only any time you could cast a sorcery".

(** The state lets the active player act at sorcery speed. *)
Definition sorcery_moment (gs : GameState) (p : PlayerKey) : Prop :=
  (phase gs = main1 \/ phase gs = main2) /\ stack gs = [] /\
  active_player gs = p /\ priority gs = p.

(** The type line names one of the kinds the engine knows. *)
Definition known_kind (c : MTGCard) : bool :=
  MTGRulesEngine.isInstant c || MTGRulesEngine.isSorcery c ||
  MTGRulesEngine.isPermanent c.

Definition gs_bolt_and_library : GameState :=
  update_player player
    (fun p => with_library p [isamaru "lib-1"; isamaru "lib-2"]) gs_bolt_in_hand.

Definition bolt_to_library_at_1 : ZoneManager.ZoneChangeEvent :=
  {| ZoneManager.card := bolt; ZoneManager.from := ZoneManager.zhand;
     ZoneManager.to := ZoneManager.zlibrary; ZoneManager.ev_owner := player;
     ZoneManager.position := Some 1%Z; ZoneManager.faceDown := None |}.

Definition flash_sorcery : MTGCard :=
  a_card "spell-6" "Quick Study" "Sorcery" (Some "{U}")
    (Some "Flashback {2}{U}. Draw a card.") None.

Definition tap_ability : MTGCard :=
  a_card "perm-1" "Prodigal Sorcerer" "Creature — Human Wizard" (Some "{2}{U}")
    (Some "{T}: Prodigal Sorcerer deals 1 damage to any target.") (Some "1").

Definition gs_ai_turn_stack : GameState :=
  {| game_id := "test-game"; turn_number := 2; active_player := ai;
     phase := combat; step := Some declare_attackers; priority := player;
     players := {| pl_player := empty_seat; pl_ai := empty_seat;
                   pl_keys := player_first |};
     battlefield := {| bf_player := [tap_ability]; bf_ai := [];
                       bf_keys := player_first |};
     stack := [ {| so_id := "stack-1"; source := bolt; so_controller := ai;
                   so_targets := None |} ];
     combat_state := None; game_log := [] |}.

End AbilityVocabulary.

Section TargetingVocabulary.
Import TargetingManager.

(** The cards [findCardById] looks through, in its order: the two
    battlefields in the order of the keys of [battlefield], then hand,
    graveyard and exile of each player in the order of the keys of
    [players], then the sources of the stack objects. The libraries are not
    among them. *)
Definition searched_cards (gs : GameState) : list MTGCard :=
  concat (map (get_bf (battlefield gs)) (keys_of (bf_keys (battlefield gs)))) ++
  concat (map (fun k =>
                 hand (get_player (players gs) k) ++
                 graveyard (get_player (players gs) k) ++
                 exile (get_player (players gs) k))
            (keys_of (pl_keys (players gs)))) ++
  map source (stack gs).

(** What one chosen target must satisfy for one requirement. *)
Definition target_fits (r : TargetRestriction) (t : Target) (gs : GameState)
    : Prop :=
  targetExists t gs = true /\
  (type r = t_any \/ type r = target_type t) /\
  forall x, In x (restrictions r) -> validateRestriction x t gs = true.

End TargetingVocabulary.

Section ScanVocabulary.
Import StateBasedActionManager.

(** The kinds of action the scan can report. *)
Definition reported_kinds : list string :=
  ["player_loses_life"; "player_loses_library"; "creature_dies_toughness";
   "planeswalker_dies"; "legend_rule_violation"; "world_rule_violation";
   "aura_unattached"].

(** The kinds [executeAction] knows that are not among them. *)
Definition silent_kinds : list string :=
  ["player_loses_poison"; "creature_dies_damage"; "creature_dies_deathtouch";
   "equipment_unattached"].

(** The scan holds an action of kind [t] that slates exactly the card
    [c]. *)
Definition slates_alone (gs : GameState) (t : string) (c : MTGCard) : Prop :=
  exists a, In a (checkStateBasedActions gs) /\ type a = t /\ slated a = [c].

(** The scan holds an action of kind [t] against player [k]. *)
Definition reports_loss (gs : GameState) (t : string) (k : PlayerKey) : Prop :=
  exists a, In a (checkStateBasedActions gs) /\ type a = t /\
            affectedPlayer a = Some k.

(** The card lies on one of the two battlefields. *)
Definition on_battlefield (gs : GameState) (c : MTGCard) : Prop :=
  exists k, In c (get_bf (battlefield gs) k).

Definition holy_strength : MTGCard :=
  a_card "aura-1" "Holy Strength" "Enchantment — Aura" (Some "{W}")
    (Some "Enchant creature") None.

Definition dying_bear : MTGCard :=
  a_card "creature-9" "Weak Bear" "Creature — Bear" (Some "{G}") None (Some "0").

Definition gs_aura_and_bear : GameState :=
  {| game_id := "test-game"; turn_number := 1; active_player := player;
     phase := main1; step := None; priority := player;
     players := {| pl_player := with_library empty_seat [bolt];
                   pl_ai := {| life := 0; mana_pool := no_mana; hand := [];
                               library := []; graveyard := []; exile := [] |};
                   pl_keys := player_first |};
     battlefield := {| bf_player := [holy_strength; grizzly_bears];
                       bf_ai := [dying_bear];
                       bf_keys := player_first |};
     stack := []; combat_state := None; game_log := [] |}.

End ScanVocabulary.

Section ConservationVocabulary.
Import StateBasedActionManager.

(** Everything of a snapshot that applying state-based actions has no
    business with: the hands, libraries and exile zones, life totals and
    mana pools, the stack, and the turn data. *)
Definition same_off_board (g g' : GameState) : Prop :=
  (forall k,
     hand (get_player (players g') k) = hand (get_player (players g) k) /\
     library (get_player (players g') k) = library (get_player (players g) k) /\
     exile (get_player (players g') k) = exile (get_player (players g) k) /\
     life (get_player (players g') k) = life (get_player (players g) k) /\
     mana_pool (get_player (players g') k) = mana_pool (get_player (players g) k)) /\
  stack g' = stack g /\ game_id g' = game_id g /\
  turn_number g' = turn_number g /\ active_player g' = active_player g /\
  phase g' = phase g /\ step g' = step g /\ priority g' = priority g /\
  combat_state g' = combat_state g /\ game_log g' = game_log g /\
  pl_keys (players g') = pl_keys (players g) /\
  bf_keys (battlefield g') = bf_keys (battlefield g).

(** The card is not among the cards to move, by identifier. *)
Definition stays (cs : list MTGCard) (x : MTGCard) : bool :=
  negb (existsb (fun c => has_id c x) cs).

Definition world_a : MTGCard :=
  a_card "world-1" "The Abyss" "World Enchantment" (Some "{3}{B}") None None.

Definition world_b : MTGCard :=
  a_card "world-2" "Nether Void" "World Enchantment" (Some "{3}{B}") None None.

Definition gs_two_worlds : GameState :=
  {| game_id := "test-game"; turn_number := 1; active_player := player;
     phase := main1; step := None; priority := player;
     players := {| pl_player := with_library empty_seat [bolt];
                   pl_ai := with_library empty_seat [bolt];
                   pl_keys := player_first |};
     battlefield := {| bf_player := [world_a]; bf_ai := [grizzly_bears; world_b];
                       bf_keys := player_first |};
     stack := []; combat_state := None; game_log := [] |}.

(** The same board in an object whose key [ai] was created first. *)
Definition gs_two_worlds_ai_first : GameState :=
  with_battlefield gs_two_worlds
    {| bf_player := [world_a]; bf_ai := [grizzly_bears; world_b];
       bf_keys := ai_first |}.

(** The world permanents of the two battlefields, in the order of the keys
    of [battlefield]. *)
Definition world_permanents (gs : GameState) : list MTGCard :=
  concat
    (map (fun k => List.filter isWorld (get_bf (battlefield gs) k))
       (keys_of (bf_keys (battlefield gs)))).

End ConservationVocabulary.

Section ActionVocabulary.
Import MTGRulesEngine.

Definition declare (kind : ActionType) (who : PlayerKey) : GameAction :=
  {| type := kind; actor := who; cardId := None; targets := None;
     manaPayment := None |}.

(** The card an action names, when the acting player holds it: the first
    card of the hand with that identifier. *)
Definition named_card (action : GameAction) (gs : GameState) : option MTGCard :=
  match given_id action with
  | Some i => findCardInHand i (get_player (players gs) (actor action))
  | None => None
  end.

(** The declared targets, if any, are as many as the text says "target". *)
Definition targets_counted (action : GameAction) (c : MTGCard) (gs : GameState)
    : bool :=
  match targets action with
  | Some ts => validateTargets c ts gs
  | None => true
  end.

Definition gs_declare_attackers : GameState :=
  {| game_id := "test-game"; turn_number := 1; active_player := player;
     phase := combat; step := Some declare_attackers; priority := player;
     players := {| pl_player := empty_seat; pl_ai := empty_seat;
                   pl_keys := player_first |};
     battlefield := {| bf_player := [grizzly_bears]; bf_ai := [];
                       bf_keys := player_first |};
     stack := []; combat_state := None; game_log := [] |}.

Definition mountain : MTGCard :=
  a_card "land-1" "Mountain" "Basic Land — Mountain" None None None.

(** The land is in the hand of [ai], in the main phase of [player], who
    also holds priority. *)
Definition gs_land_in_ai_hand : GameState :=
  {| game_id := "test-game"; turn_number := 1; active_player := player;
     phase := main1; step := None; priority := player;
     players := {| pl_player := empty_seat;
                   pl_ai := with_hand empty_seat [mountain];
                   pl_keys := player_first |};
     battlefield := {| bf_player := []; bf_ai := [];
                       bf_keys := player_first |};
     stack := []; combat_state := None; game_log := [] |}.

Definition play_mountain : GameAction :=
  {| type := play_land; actor := ai; cardId := Some "land-1"; targets := None;
     manaPayment := None |}.

End ActionVocabulary.

Section DeckVocabulary.
Import MTGRulesEngine.

Definition no_mana_cost : ManaPool :=
  {| white := 0; blue := 0; black := 0; red := 0; green := 0; colorless := 0 |}.

(** The sum of two pools, colour by colour. *)
Definition pool_plus (a b : ManaPool) : ManaPool :=
  add_mana a (white b) (blue b) (black b) (red b) (green b) (colorless b).

Definition entry_name (d : DeckCard) : string := card_name (deck_card d).

(** The copies of [name] in the entries [pre]. *)
Definition copies_in (name : string) (pre : list DeckCard) : Z :=
  fold_left
    (fun n d => if String.eqb (entry_name d) name then (n + quantity d)%Z else n)
    pre 0%Z.

Definition deck_total (mainboard : list DeckCard) : Z :=
  fold_left (fun n d => (n + quantity d)%Z) mainboard 0%Z.

(** The entry passes the legality test. When the card's [legalities] has
    an entry of its own for the format in lower case, that entry is neither
    empty, nor banned, nor not_legal, and is restricted only for a single
    copy. When it has none, the format in lower case is one of the two
    names under which every object finds an inherited member. *)
Definition entry_legal (format : string) (d : DeckCard) : Prop :=
  match legalities (deck_card d) !! JS.toLowerCase format with
  | Some l =>
      l <> "" /\ l <> "banned" /\ l <> "not_legal" /\
      (l = "restricted" -> (quantity d <= 1)%Z)
  | None =>
      JS.toLowerCase format = "constructor" \/
      JS.toLowerCase format = "__proto__"
  end.

(** The size conditions of the format on the whole deck. *)
Definition deck_sized (format : string) (mainboard : list DeckCard) : Prop :=
  let rules := getFormatRules format in
  (minDeckSize rules <= deck_total mainboard)%Z /\
  (forall e, exactDeckSize rules = Some e -> deck_total mainboard = e) /\
  (commanderRequired rules = true -> hasCommander mainboard = true).

(** One entry: sixty copies of a card that is no basic land. *)
Definition sixty_bolts : list DeckCard :=
  [ {| deck_card := bolt; quantity := 60 |} ].

(** What the manager's scan and the engine's scan both look at. *)
Definition loss_and_toughness_actions (gs : GameState)
    : list StateBasedActionManager.StateBasedAction :=
  StateBasedActionManager.checkPlayerStateActions gs ++
  StateBasedActionManager.checkCreatureStateActions gs.

End DeckVocabulary.

Section AppliedVocabulary.
Import StateBasedActionManager.

(** After the actions of the scan have been applied, every card that a
    graveyard-bound action slated has left the battlefields and has been
    appended to the graveyard of the player on whose battlefield it lay. *)
Definition slated_cards_buried (gs : GameState) : Prop :=
  let actions := checkStateBasedActions gs in
  let gs' := executeStateBasedActions actions gs in
  forall a c, In a actions ->
    graveyard_bound (type a) = true ->
    In c (slated a) ->
    exists k,
      In c (get_bf (battlefield gs) k) /\
      (forall k' x, In x (get_bf (battlefield gs') k') -> card_id x <> card_id c) /\
      exists extra,
        graveyard (get_player (players gs') k) =
          graveyard (get_player (players gs) k) ++ extra /\ In c extra.

(** Outside the data model: a dying creature of [ai] and a healthy one of
    [player] that bear the same identifier. *)
Definition dying_twin : MTGCard :=
  a_card "creature-1" "Weak Bear" "Creature — Bear" (Some "{G}") None (Some "0").

Definition gs_twins : GameState :=
  {| game_id := "test-game"; turn_number := 1; active_player := player;
     phase := main1; step := None; priority := player;
     players := {| pl_player := with_library empty_seat [bolt];
                   pl_ai := with_library empty_seat [bolt];
                   pl_keys := player_first |};
     battlefield := {| bf_player := [grizzly_bears]; bf_ai := [dying_twin];
                       bf_keys := player_first |};
     stack := []; combat_state := None; game_log := [] |}.

End AppliedVocabulary.

(** * Properties *)

(** ** The keys of [players] and [battlefield] *)

Lemma in_keys_of o k : In k (keys_of o).
Proof. destruct o, k; simpl; tauto. Qed.

Lemma in_flat_map_bf_entries {A} (g : PlayerKey * list MTGCard -> list A) b x :
  In x (flat_map g (bf_entries b)) <-> exists k, In x (g (k, get_bf b k)).
Proof.
  unfold bf_entries.
  destruct (bf_keys b); simpl; rewrite app_nil_r, in_app_iff; split;
    try (intros [H|H]; [exists player | exists ai]; exact H);
    try (intros [H|H]; [exists ai | exists player]; exact H);
    intros [[] H]; auto.
Qed.

Lemma in_flat_map_player_entries {A} (g : PlayerKey * PlayerState -> list A)
    ps x :
  In x (flat_map g (player_entries ps)) <->
  exists k, In x (g (k, get_player ps k)).
Proof.
  unfold player_entries.
  destruct (pl_keys ps); simpl; rewrite app_nil_r, in_app_iff; split;
    try (intros [H|H]; [exists player | exists ai]; exact H);
    try (intros [H|H]; [exists ai | exists player]; exact H);
    intros [[] H]; auto.
Qed.

Lemma length_flat_map_bf_entries {A} (g : PlayerKey * list MTGCard -> list A) b :
  length (flat_map g (bf_entries b)) =
  length (g (player, bf_player b)) + length (g (ai, bf_ai b)).
Proof.
  unfold bf_entries.
  destruct (bf_keys b); simpl; rewrite app_nil_r, length_app; lia.
Qed.

Lemma length_flat_map_player_entries {A}
    (g : PlayerKey * PlayerState -> list A) ps :
  length (flat_map g (player_entries ps)) =
  length (g (player, pl_player ps)) + length (g (ai, pl_ai ps)).
Proof.
  unfold player_entries.
  destruct (pl_keys ps); simpl; rewrite app_nil_r, length_app; lia.
Qed.

(** ** Zone manager *)

Section ZoneFacts.
Import ZoneManager.

Lemma same_id_refl c : same_id c c = true.
Proof. unfold same_id. apply String.eqb_refl. Qed.

Lemma existsb_filter_differs c l :
  existsb (same_id c) (List.filter (differs c) l) = false.
Proof.
  induction l as [|d l IH]; simpl; [reflexivity|].
  unfold differs at 1. destruct (same_id c d) eqn:E; simpl; [exact IH|].
  rewrite E. exact IH.
Qed.

Lemma existsb_stack_filter_differs c (l : list StackObject) :
  existsb (fun obj => same_id c (source obj))
    (List.filter (fun obj => differs c (source obj)) l) = false.
Proof.
  induction l as [|d l IH]; simpl; [reflexivity|].
  unfold differs at 1. destruct (same_id c (source d)) eqn:E; simpl; [exact IH|].
  rewrite E. exact IH.
Qed.

Lemma existsb_push c l : existsb (same_id c) (l ++ [c]) = true.
Proof.
  rewrite existsb_app. simpl. rewrite same_id_refl.
  destruct (existsb (same_id c) l); reflexivity.
Qed.

Lemma existsb_splice_insert c i l :
  existsb (same_id c) (JS.splice_insert i c l) = true.
Proof.
  unfold JS.splice_insert. rewrite existsb_app. simpl. rewrite same_id_refl.
  apply orb_true_iff. right. reflexivity.
Qed.

(** The transition check of the code is the printed table. *)
Lemma isValidZoneTransition_table f t :
  isValidZoneTransition f t = true <-> (f, t) ∈ spec_table.
Proof.
  split.
  - destruct f, t; intros H; try (vm_compute in H; discriminate H);
      apply list_elem_of_In; simpl;
      repeat (first [left; reflexivity | right]).
  - intros H. apply list_elem_of_In in H. simpl in H.
    repeat (destruct H as [H|H]; [inversion H; subst; reflexivity|]).
    destruct H.
Qed.

End ZoneFacts.

(** C4. A move between two distinct zones that the transition table does not
    connect is rejected by [validateZoneChange], whatever the card and the
    snapshot; and every pair the table lists passes the transition check. *)
Theorem C4_unlisted_transition_rejected :
  forall (event : ZoneManager.ZoneChangeEvent) (gs : GameState) (f t : ZoneManager.Zone),
    (ZoneManager.from event ≠ ZoneManager.to event ->
     (ZoneManager.from event, ZoneManager.to event) ∉ ZoneManager.spec_table ->
     exists msg, ZoneManager.validateZoneChange event gs = Throw msg) /\
    ((f, t) ∈ ZoneManager.spec_table ->
     ZoneManager.isValidZoneTransition f t = true).
Proof.
  intros event gs f t. split.
  - intros _ Hnot. unfold ZoneManager.validateZoneChange.
    destruct (negb (ZoneManager.cardExistsInZone _ _ _ _)); [eauto|].
    destruct (ZoneManager.isValidZoneTransition _ _) eqn:E; simpl; [|eauto].
    apply isValidZoneTransition_table in E. contradiction.
  - apply isValidZoneTransition_table.
Qed.

Section ZoneRun.
Import ZoneManager.

Lemma executeZoneChange_throw event r (h : gmap nat GameState) gs msg :
  h !! r = Some gs ->
  validateZoneChange event gs = Throw msg ->
  executeZoneChange event r h = (Throw msg, h).
Proof.
  intros Hr Hv. unfold executeZoneChange, mbind, M_bind, read, lift.
  rewrite Hr, Hv. reflexivity.
Qed.

Lemma executeZoneChange_ok event r (h : gmap nat GameState) gs :
  h !! r = Some gs ->
  validateZoneChange event gs = Ok true ->
  executeZoneChange event r h =
    (Ok (fresh (dom h)), <[fresh (dom h) := moved event gs]> h).
Proof.
  intros Hr Hv.
  unfold executeZoneChange, mbind, M_bind, read, lift, clone, mutate, mret, M_ret.
  rewrite Hr, Hv. rewrite !alter_insert_eq. reflexivity.
Qed.

Lemma validateZoneChange_cases event gs :
  validateZoneChange event gs = Ok true \/
  exists msg, validateZoneChange event gs = Throw msg.
Proof.
  unfold validateZoneChange.
  repeat match goal with |- context [if ?b then _ else _] => destruct b end; eauto.
Qed.

(** What acceptance means. *)
Lemma validateZoneChange_ok_iff event gs :
  validateZoneChange event gs = Ok true <->
  cardExistsInZone (card event) (from event)
    (get_player (players gs) (ev_owner event)) gs = true /\
  isValidZoneTransition (from event) (to event) = true.
Proof.
  unfold validateZoneChange, canEnterBattlefield.
  destruct (cardExistsInZone _ _ _ _); simpl; [|split; [discriminate|intros [? _]; discriminate]].
  destruct (isValidZoneTransition _ _); simpl; [|split; [discriminate|intros [_ ?]; discriminate]].
  destruct (bool_decide _), (isLand (card event)), (isToken (card event));
    simpl; tauto.
Qed.

(** An address the store has not handed out. *)
Lemma fresh_address_unused (h : gmap nat GameState) : h !! fresh (dom h) = None.
Proof. apply not_elem_of_dom. apply is_fresh. Qed.

End ZoneRun.

(** C8. A rejected zone change (the card is absent from the declared source
    zone, the pair is not in the transition table, or the card may not enter
    the battlefield) leaves the store as it was: the exception is raised
    before the snapshot is copied, so the input snapshot is the same object
    with the same contents, and every card lies where it lay. *)
Theorem C8_rejected_move_leaves_snapshot
    (event : ZoneManager.ZoneChangeEvent) (r : nat)
    (h : gmap nat GameState) (gs : GameState) :
  h !! r = Some gs ->
  ZoneManager.cardExistsInZone (ZoneManager.card event) (ZoneManager.from event)
      (get_player (players gs) (ZoneManager.ev_owner event)) gs = false \/
  ZoneManager.isValidZoneTransition (ZoneManager.from event) (ZoneManager.to event)
    = false \/
  (ZoneManager.to event = ZoneManager.zbattlefield /\
   ZoneManager.canEnterBattlefield (ZoneManager.card event) gs = false) ->
  exists msg h',
    ZoneManager.executeZoneChange event r h = (Throw msg, h') /\
    h' = h /\ h' !! r = Some gs /\
    forall c pl, ZoneManager.lies_in c pl gs = true ->
      exists gs', h' !! r = Some gs' /\ ZoneManager.lies_in c pl gs' = true.
Proof.
  intros Hr Hrej.
  destruct (validateZoneChange_cases event gs) as [Hok | [msg Hthrow]].
  - apply validateZoneChange_ok_iff in Hok. destruct Hok as [He Ht].
    destruct Hrej as [H | [H | [_ H]]]; [congruence | congruence |].
    unfold ZoneManager.canEnterBattlefield in H.
    destruct (ZoneManager.isLand (ZoneManager.card event)),
      (ZoneManager.isToken (ZoneManager.card event)); discriminate.
  - exists msg, h. split; [eapply executeZoneChange_throw; eassumption|].
    split; [reflexivity|]. split; [assumption|]. eauto.
Qed.

Section ZoneMove.
Import ZoneManager.

(** A place of the snapshot after an update: either the list that was
    filtered, or a list the update did not touch. *)
Ltac place_after gs Hother :=
  match goal with
  | |- lies_in ?c ?Q _ = false =>
      first [ simpl; apply existsb_filter_differs
            | simpl; apply existsb_stack_filter_differs
            | change (lies_in c Q gs = false); apply Hother; discriminate ]
  end.

Lemma removeCardFromZone_nowhere c z k gs pl :
  exactly_in c pl gs ->
  cardExistsInZone c z (get_player (players gs) k) gs = true ->
  nowhere c (removeCardFromZone c z k gs).
Proof.
  intros Hex Hin q.
  assert (Hother : forall q', q' <> pl -> lies_in c q' gs = false).
  { intros q' Hne. destruct (lies_in c q' gs) eqn:E; [|reflexivity].
    apply Hex in E. contradiction. }
  assert (Hpl : forall q', lies_in c q' gs = true -> pl = q').
  { intros q' E. symmetry. apply Hex. exact E. }
  destruct z; simpl in Hin; unfold removeCardFromZone.
  - rewrite (Hpl (InHand k) Hin) in Hother.
    destruct k, q as [[]|[]|[]|[]|[]|]; place_after gs Hother.
  - rewrite (Hpl (InLibrary k) Hin) in Hother.
    destruct k, q as [[]|[]|[]|[]|[]|]; place_after gs Hother.
  - rewrite (Hpl (InGraveyard k) Hin) in Hother.
    destruct k, q as [[]|[]|[]|[]|[]|]; place_after gs Hother.
  - rewrite (Hpl (InExile k) Hin) in Hother.
    destruct k, q as [[]|[]|[]|[]|[]|]; place_after gs Hother.
  - destruct (existsb (same_id c) (bf_player (battlefield gs))) eqn:Ep.
    + rewrite (Hpl (OnBattlefield player) Ep) in Hother.
      destruct q as [[]|[]|[]|[]|[]|]; place_after gs Hother.
    + simpl in Hin. rewrite (Hpl (OnBattlefield ai) Hin) in Hother.
      destruct q as [[]|[]|[]|[]|[]|]; place_after gs Hother.
  - rewrite (Hpl OnStack Hin) in Hother.
    destruct q as [[]|[]|[]|[]|[]|]; place_after gs Hother.
Qed.

(** Putting the card into a zone other than the stack makes it lie there;
    the other places keep what they held. *)
Lemma addCardToZone_exactly c z k gs pos fd :
  nowhere c gs ->
  z <> zstack ->
  exactly_in c (place_of_zone z k) (addCardToZone c z k gs pos fd).
Proof.
  intros Hno Hz q.
  destruct z; [ | | | | |contradiction]; unfold addCardToZone;
    try destruct pos as [i|];
    destruct k, q as [[]|[]|[]|[]|[]|]; simpl place_of_zone;
    (split;
     [ intros E;
       first [ reflexivity
             | match type of E with
               | lies_in _ ?Q _ = true =>
                   change (lies_in c Q gs = true) in E;
                   rewrite Hno in E; discriminate E
               end ]
     | intros E;
       first [ discriminate E
             | simpl;
               first [ apply existsb_push | apply existsb_splice_insert
                     | rewrite same_id_refl; reflexivity ] ] ]).
Qed.

End ZoneMove.

(** C1, refuted as worded. Moving the test card from the hand to the stack
    is accepted, and afterwards the card lies nowhere: [addCardToZone] does
    nothing for the stack. *)
Lemma C1_counterexample_hand_to_stack :
  ZoneManager.validateZoneChange cast_bolt gs_bolt_in_hand = Ok true /\
  exactly_in bolt (ZoneManager.InHand player) gs_bolt_in_hand /\
  ~ card_kept_in_destination cast_bolt 0 {[ 0 := gs_bolt_in_hand ]} gs_bolt_in_hand.
Proof.
  split; [reflexivity|]. split.
  - intros q. split.
    + destruct q as [[]|[]|[]|[]|[]|]; vm_compute; congruence.
    + intros ->. reflexivity.
  - intros H. destruct H as (r' & h' & gs' & Hrun & Hlook & Hex).
    + apply lookup_singleton_eq.
    + reflexivity.
    + rewrite (executeZoneChange_ok cast_bolt 0 _ gs_bolt_in_hand) in Hrun;
        [|apply lookup_singleton_eq|reflexivity].
      injection Hrun as <- <-. rewrite lookup_insert_eq in Hlook.
      injection Hlook as <-.
      pose proof (proj2 (Hex ZoneManager.OnStack) eq_refl) as E.
      vm_compute in E. discriminate E.
Qed.

(** C1, amended. When the card lies in exactly one place of the snapshot,
    an accepted move yields a new snapshot (the input one stays in the
    store) in which the card lies in the destination zone of the event's
    player and nowhere else, for every destination but the stack; for the
    stack the card is taken out of its source zone and lies nowhere. *)
Theorem C1_accepted_move_places_card
    (event : ZoneManager.ZoneChangeEvent) (r : nat)
    (h : gmap nat GameState) (gs : GameState) (src : ZoneManager.Place) :
  h !! r = Some gs ->
  ZoneManager.validateZoneChange event gs = Ok true ->
  exactly_in (ZoneManager.card event) src gs ->
  exists r' gs',
    ZoneManager.executeZoneChange event r h = (Ok r', <[r' := gs']> h) /\
    h !! r' = None /\
    (ZoneManager.to event <> ZoneManager.zstack ->
     exactly_in (ZoneManager.card event)
       (ZoneManager.place_of_zone (ZoneManager.to event) (ZoneManager.ev_owner event))
       gs') /\
    (ZoneManager.to event = ZoneManager.zstack ->
     nowhere (ZoneManager.card event) gs').
Proof.
  intros Hr Hok Hex.
  exists (fresh (dom h)), (moved event gs).
  split; [apply executeZoneChange_ok; assumption|].
  split; [apply fresh_address_unused|].
  apply validateZoneChange_ok_iff in Hok. destruct Hok as [Hin _].
  pose proof (removeCardFromZone_nowhere _ _ _ _ _ Hex Hin) as Hno.
  unfold moved. split.
  - intros Hz. apply addCardToZone_exactly; assumption.
  - intros Hz. rewrite Hz. exact Hno.
Qed.

Lemma C1_accepted_move_places_card_witness :
  exists r' gs',
    ZoneManager.executeZoneChange cast_bolt 0 {[ 0 := gs_bolt_in_hand ]}
      = (Ok r', <[r' := gs']> {[ 0 := gs_bolt_in_hand ]}) /\
    ({[ 0 := gs_bolt_in_hand ]} : gmap nat GameState) !! r' = None /\
    (ZoneManager.to cast_bolt <> ZoneManager.zstack ->
     exactly_in (ZoneManager.card cast_bolt)
       (ZoneManager.place_of_zone (ZoneManager.to cast_bolt)
          (ZoneManager.ev_owner cast_bolt)) gs') /\
    (ZoneManager.to cast_bolt = ZoneManager.zstack ->
     nowhere (ZoneManager.card cast_bolt) gs').
Proof.
  apply (C1_accepted_move_places_card cast_bolt 0 {[ 0 := gs_bolt_in_hand ]}
           gs_bolt_in_hand (ZoneManager.InHand player)).
  - apply lookup_singleton_eq.
  - reflexivity.
  - intros q. split.
    + destruct q as [[]|[]|[]|[]|[]|]; vm_compute; congruence.
    + intros ->. reflexivity.
Defined.

Lemma C4_unlisted_transition_rejected_witness :
  (exists msg,
     ZoneManager.validateZoneChange library_to_stack gs_bolt_in_library
       = Throw msg) /\
  ZoneManager.isValidZoneTransition ZoneManager.zhand ZoneManager.zstack = true.
Proof.
  pose proof (C4_unlisted_transition_rejected library_to_stack
    gs_bolt_in_library ZoneManager.zhand ZoneManager.zstack) as [H1 H2].
  split.
  - apply H1.
    + simpl. discriminate.
    + intros H. apply isValidZoneTransition_table in H. discriminate H.
  - apply H2. apply isValidZoneTransition_table. reflexivity.
Defined.

Lemma C8_rejected_move_leaves_snapshot_witness :
  exists msg h',
    ZoneManager.executeZoneChange library_to_stack 0 {[ 0 := gs_bolt_in_library ]}
      = (Throw msg, h') /\
    h' = {[ 0 := gs_bolt_in_library ]} /\
    h' !! 0 = Some gs_bolt_in_library /\
    forall c pl, ZoneManager.lies_in c pl gs_bolt_in_library = true ->
      exists gs', h' !! 0 = Some gs' /\ ZoneManager.lies_in c pl gs' = true.
Proof.
  apply (C8_rejected_move_leaves_snapshot library_to_stack 0
           {[ 0 := gs_bolt_in_library ]} gs_bolt_in_library).
  - apply lookup_singleton_eq.
  - right. left. reflexivity.
Defined.

(** The cases of the repository's zone-manager tests. *)
Example test_hand_to_battlefield_validates :
  ZoneManager.validateZoneChange
    {| ZoneManager.card := bolt; ZoneManager.from := ZoneManager.zhand;
       ZoneManager.to := ZoneManager.zbattlefield;
       ZoneManager.ev_owner := player; ZoneManager.position := None;
       ZoneManager.faceDown := None |} gs_bolt_in_hand = Ok true.
Proof. reflexivity. Qed.

Example test_card_not_in_source_zone :
  ZoneManager.validateZoneChange
    {| ZoneManager.card := bolt; ZoneManager.from := ZoneManager.zgraveyard;
       ZoneManager.to := ZoneManager.zhand;
       ZoneManager.ev_owner := player; ZoneManager.position := None;
       ZoneManager.faceDown := None |} gs_bolt_in_hand
  = Throw "Card Lightning Bolt not found in graveyard".
Proof. reflexivity. Qed.

Example test_library_to_stack_rejected :
  ZoneManager.validateZoneChange library_to_stack gs_bolt_in_library
  = Throw "Invalid zone transition from library to stack".
Proof. reflexivity. Qed.

(** ** Timing *)

Section TimingFacts.
Import TimingManager.

Lemma getTypeBasedTiming_instant c :
  instant_typed c = true ->
  getTypeBasedTiming c =
    {| speed := instant; window := any_time; stackEmpty := false;
       activePlayer := false; specialConditions := None |}.
Proof. unfold instant_typed, getTypeBasedTiming. intros ->. reflexivity. Qed.

Lemma getTypeBasedTiming_other c :
  instant_typed c = false ->
  exists conds, getTypeBasedTiming c = sorcery_timing conds.
Proof.
  unfold instant_typed, getTypeBasedTiming. intros ->.
  repeat match goal with |- context [if ?b then _ else _] => destruct b end;
    eauto.
Qed.

(** Only the word "flash" makes the text set a speed, and it sets the
    active-player and stack flags with it. *)
Lemma getTextBasedTiming_flash c :
  (JS.includes (lower_text c) "flash" = true /\
   p_speed (getTextBasedTiming c) = Some instant /\
   p_stackEmpty (getTextBasedTiming c) = Some false /\
   p_activePlayer (getTextBasedTiming c) = Some false) \/
  (JS.includes (lower_text c) "flash" = false /\
   p_speed (getTextBasedTiming c) = None /\
   p_stackEmpty (getTextBasedTiming c) = None /\
   p_activePlayer (getTextBasedTiming c) = None).
Proof.
  unfold getTextBasedTiming.
  destruct (JS.includes (lower_text c) "flash");
    repeat match goal with |- context [if ?b then _ else _] => destruct b end;
    simpl; tauto.
Qed.

Lemma getTextBasedTiming_unconditioned c :
  imposes_no_condition c = true ->
  p_specialConditions (getTextBasedTiming c) = None /\
  (p_window (getTextBasedTiming c) = None \/
   p_window (getTextBasedTiming c) = Some any_time).
Proof.
  unfold imposes_no_condition, getTextBasedTiming. intros H.
  repeat (apply andb_true_iff in H; destruct H as [H ?]).
  repeat match goal with
         | E : negb ?b = true |- _ => apply negb_true_iff in E; rewrite E
         end.
  destruct (JS.includes (lower_text c) "flash"); simpl; tauto.
Qed.

(** The kinds the specification lists are sorcery-speed unless the card is
    also an instant or has flash. *)
Lemma sorcery_speed_of_type c :
  instant_typed c = false ->
  JS.includes (lower_text c) "flash" = false ->
  speed (getCardTiming c) = sorcery.
Proof.
  intros Hi Hf. unfold getCardTiming. simpl.
  destruct (getTextBasedTiming_flash c) as [[E _] | (_ & -> & _)]; [congruence|].
  destruct (getTypeBasedTiming_other c Hi) as [conds ->]. reflexivity.
Qed.

Lemma stack_is_empty_nil gs : stack_is_empty gs = true -> stack gs = [].
Proof.
  unfold stack_is_empty. destruct (stack gs); simpl; [reflexivity|discriminate].
Qed.

Lemma in_main_phase gs :
  in_main gs = true -> phase gs = main1 \/ phase gs = main2.
Proof.
  unfold in_main. intros H. apply orb_true_iff in H.
  destruct H as [H|H]; apply bool_decide_eq_true in H; tauto.
Qed.

Lemma sorcery_speed_active_only c :
  speed (getCardTiming c) = sorcery -> activePlayer (getCardTiming c) = true.
Proof.
  unfold getCardTiming. simpl. intros Hspeed.
  destruct (getTextBasedTiming_flash c)
    as [(_ & E & _ & _) | (_ & E & _ & ->)];
    rewrite E in Hspeed; simpl in Hspeed; [discriminate|].
  simpl. destruct (instant_typed c) eqn:Hi.
  - rewrite (getTypeBasedTiming_instant c Hi) in Hspeed. discriminate.
  - destruct (getTypeBasedTiming_other c Hi) as [conds ->]. reflexivity.
Qed.

Lemma validateTiming_sorcery t gs p :
  speed t = sorcery -> activePlayer t = true ->
  validateTiming t gs p = true ->
  (phase gs = main1 \/ phase gs = main2) /\ stack gs = [] /\
  active_player gs = p.
Proof.
  unfold validateTiming. intros -> -> H. simpl in H.
  destruct (in_main gs) eqn:Hmain; simpl in H; [|discriminate].
  destruct (stack_is_empty gs) eqn:Hstack; simpl in H; [|discriminate].
  split; [apply in_main_phase; exact Hmain|].
  split; [apply stack_is_empty_nil; exact Hstack|].
  destruct (negb (checkWindowTiming _ gs)); [discriminate|].
  destruct (stackEmpty t && _); [discriminate|].
  destruct (bool_decide (active_player gs = p)) eqn:Ha; simpl in H;
    [|discriminate].
  apply bool_decide_eq_true in Ha. exact Ha.
Qed.

End TimingFacts.

(** C5, refuted as worded. A sorcery whose text has the word "Flashback"
    is of one of the five kinds the claim lists, yet its holder of priority
    may cast it in the opponent's combat phase with a spell on the stack:
    the text contains "flash", from which [getTextBasedTiming] derives
    instant speed. *)
Lemma C5_counterexample_flashback_sorcery :
  sorcery_speed_typed flash_sorcery = true /\
  priority gs_ai_turn_stack = player /\
  TimingManager.canCastSpell flash_sorcery gs_ai_turn_stack player = true /\
  ~ ((phase gs_ai_turn_stack = main1 \/ phase gs_ai_turn_stack = main2) /\
     stack gs_ai_turn_stack = [] /\
     active_player gs_ai_turn_stack = player).
Proof.
  split; [reflexivity|]. split; [reflexivity|]. split; [reflexivity|].
  intros (_ & H & _). discriminate H.
Qed.

(** C5, amended. For an actor who holds priority: a spell whose type line
    contains "instant" and whose text imposes no condition passes the timing
    check in every phase and with any stack, for either actor; a spell whose
    derived speed is sorcery passes it only when the phase is main1 or
    main2, the stack is empty and the actor is the active player. The
    derived speed is the one [getCardTiming] computes: a sorcery, creature,
    artifact, enchantment or planeswalker has sorcery speed when its type
    line does not also contain "instant" and its text does not contain
    "flash". *)
Theorem C5_timing_by_speed (c : MTGCard) (gs : GameState) (p : PlayerKey) :
  priority gs = p ->
  (instant_typed c = true -> imposes_no_condition c = true ->
   TimingManager.canCastSpell c gs p = true) /\
  (TimingManager.speed (TimingManager.getCardTiming c) = TimingManager.sorcery ->
   TimingManager.canCastSpell c gs p = true ->
   (phase gs = main1 \/ phase gs = main2) /\ stack gs = [] /\
   active_player gs = p) /\
  (sorcery_speed_typed c = true -> instant_typed c = false ->
   JS.includes (TimingManager.lower_text c) "flash" = false ->
   TimingManager.speed (TimingManager.getCardTiming c) = TimingManager.sorcery).
Proof.
  intros Hprio. split; [|split; [|intros _; apply sorcery_speed_of_type]].
  - intros Hi Hc. unfold TimingManager.canCastSpell, TimingManager.getCardTiming.
    rewrite (getTypeBasedTiming_instant c Hi).
    destruct (getTextBasedTiming_unconditioned c Hc) as [Hs Hw].
    unfold TimingManager.validateTiming. simpl. rewrite Hs.
    assert (Hwin : default TimingManager.any_time
                     (TimingManager.p_window (TimingManager.getTextBasedTiming c))
                   = TimingManager.any_time)
      by (destruct Hw as [-> | ->]; reflexivity).
    rewrite Hwin.
    destruct (getTextBasedTiming_flash c)
      as [(_ & -> & -> & ->) | (_ & -> & -> & ->)]; simpl;
      rewrite (bool_decide_eq_true_2 _ Hprio); reflexivity.
  - intros Hspeed Hcast.
    apply (validateTiming_sorcery (TimingManager.getCardTiming c));
      [exact Hspeed| |exact Hcast].
    apply sorcery_speed_active_only. exact Hspeed.
Qed.

Lemma C5_timing_by_speed_witness :
  TimingManager.canCastSpell bolt gs_bolt_in_hand player = true /\
  ((phase gs_bolt_in_hand = main1 \/ phase gs_bolt_in_hand = main2) /\
   stack gs_bolt_in_hand = [] /\ active_player gs_bolt_in_hand = player).
Proof.
  split.
  - apply (C5_timing_by_speed bolt gs_bolt_in_hand player); reflexivity.
  - apply (C5_timing_by_speed forked_lightning gs_bolt_in_hand player);
      reflexivity.
Defined.

(** ** Targeting *)

(** The cases of the repository's targeting tests. *)
Example test_parse_creature_you_control :
  TargetingManager.parseTargetRequirements giant_growth =
  [ {| TargetingManager.type := TargetingManager.t_creature;
       TargetingManager.count := 1; TargetingManager.optional := false;
       TargetingManager.restrictions := ["you_control"] |} ].
Proof. reflexivity. Qed.

Example test_filter_by_control :
  TargetingManager.getValidTargets giant_growth gs_two_creatures player =
  [ {| TargetingManager.id := "creature-1";
       TargetingManager.target_type := TargetingManager.t_creature;
       TargetingManager.controller := player |} ].
Proof. reflexivity. Qed.

(** C3, evaluated. [validateRestriction] is not told who asks:
    "you_control" holds exactly of the targets [player] controls and
    "opponent_controls" exactly of those [ai] controls, and the candidates
    found do not depend on the requesting player. So for the requester
    [player] the restrictions read as the specification says, and for the
    requester [ai] they read the wrong way round: asking for the creatures
    [ai] controls that Giant Growth may target gives the creature of
    [player]. *)
Theorem C3_control_restrictions_ignore_requester :
  (forall t gs,
     TargetingManager.validateRestriction "you_control" t gs = true <->
     TargetingManager.controller t = player) /\
  (forall t gs,
     TargetingManager.validateRestriction "opponent_controls" t gs = true <->
     TargetingManager.controller t <> player) /\
  (forall requirement gs p q,
     TargetingManager.findValidTargetsForRequirement requirement gs p =
     TargetingManager.findValidTargetsForRequirement requirement gs q) /\
  TargetingManager.validateRestriction "you_control"
    {| TargetingManager.id := "creature-2";
       TargetingManager.target_type := TargetingManager.t_creature;
       TargetingManager.controller := ai |} gs_two_creatures = false /\
  TargetingManager.getValidTargets giant_growth gs_two_creatures ai =
  [ {| TargetingManager.id := "creature-1";
       TargetingManager.target_type := TargetingManager.t_creature;
       TargetingManager.controller := player |} ].
Proof.
  split; [|split; [|split; [|split]]].
  - intros t gs. unfold TargetingManager.validateRestriction. simpl.
    apply bool_decide_eq_true.
  - intros t gs. unfold TargetingManager.validateRestriction. simpl.
    rewrite bool_decide_eq_true.
    destruct (TargetingManager.controller t); split; congruence.
  - intros requirement gs p q. reflexivity.
  - reflexivity.
  - reflexivity.
Qed.

Section ClauseFacts.
Import TargetingManager.

Lemma toLowerCase_length s : String.length (JS.toLowerCase s) = String.length s.
Proof. induction s as [|ch s IH]; simpl; [reflexivity | rewrite IH; reflexivity]. Qed.

Lemma six_letters_front w rest :
  String.length w = 6 -> substring 0 6 (w +:+ rest) = w.
Proof.
  destruct w as [|a1 [|a2 [|a3 [|a4 [|a5 [|a6 [|a7 w]]]]]]]; try discriminate.
  intros _. simpl. destruct rest; reflexivity.
Qed.

Lemma match_target_clause_start s m :
  match_target_clause s = Some m ->
  JS.toLowerCase (substring 0 6 m) = "target".
Proof.
  unfold match_target_clause.
  destruct (String.eqb (JS.toLowerCase (substring 0 6 s)) "target") eqn:E;
    [|discriminate].
  apply String.eqb_eq in E.
  destruct (JS.span JS.is_space _) as [ws rest].
  destruct ws as [|w0 ws]; [discriminate|].
  destruct (JS.span _ rest) as [body tail]. intros [= <-].
  rewrite six_letters_front; [exact E|].
  rewrite <- toLowerCase_length, E. reflexivity.
Qed.

(** Every clause handed to [parseTargetClause] begins with the word
    "target": the words before it, a count among them, are left out. *)
Lemma target_matches_start text : forall skip m,
  In m (target_matches skip text) ->
  JS.toLowerCase (substring 0 6 m) = "target".
Proof.
  induction text as [|ch text IH]; intros skip m; [intros []|].
  destruct skip as [|n].
  - change (target_matches 0 (String ch text)) with
      (match match_target_clause (String ch text) with
       | Some m0 => m0 :: target_matches (String.length m0 - 1) text
       | None => target_matches 0 text
       end).
    destruct (match_target_clause (String ch text)) as [m0|] eqn:E.
    + intros [<- | H]; [apply (match_target_clause_start _ _ E) | apply (IH _ _ H)].
    + apply IH.
  - apply IH.
Qed.

(** A clause in which no word stands before a "target" gets the defaults. *)
Lemma clause_without_count_word clause r :
  first_match match_count_word (JS.toLowerCase clause) = None ->
  parseTargetClause clause = Some r ->
  count r = 1 /\ optional r = false.
Proof.
  intros Hnone Hparse. unfold parseTargetClause in Hparse.
  rewrite Hnone in Hparse. injection Hparse as <-. split; reflexivity.
Qed.

End ClauseFacts.

(** C9, evaluated. A clause starts at the word "target", so the words
    "up to two" before it are not part of it: for the card of the test
    "should parse up to X targets" the requirement has count 1 and is not
    optional, and likewise for "up to three". *)
Theorem C9_up_to_count_not_parsed :
  TargetingManager.parseTargetRequirements forked_lightning =
    [ {| TargetingManager.type := TargetingManager.t_creature;
         TargetingManager.count := 1; TargetingManager.optional := false;
         TargetingManager.restrictions := [] |} ] /\
  TargetingManager.parseTargetRequirements triple_shock =
    [ {| TargetingManager.type := TargetingManager.t_creature;
         TargetingManager.count := 1; TargetingManager.optional := false;
         TargetingManager.restrictions := [] |} ].
Proof. split; reflexivity. Qed.

(** ** State-based actions: the legend rule *)

Section LegendRule.
Import StateBasedActionManager.

Lemma legends_under_record n name c m :
  legends_under n (record_legend name c m) =
  if String.eqb name n
  then Some (default [] (legends_under name m) ++ [c])
  else legends_under n m.
Proof.
  induction m as [|[k ls] m IH]; simpl.
  - rewrite (String.eqb_sym name n). destruct (String.eqb n name); reflexivity.
  - destruct (String.eqb k name) eqn:Ek; simpl.
    + apply String.eqb_eq in Ek. subst k.
      destruct (String.eqb name n); reflexivity.
    + destruct (String.eqb k n) eqn:Ekn.
      * apply String.eqb_eq in Ekn. subst k.
        rewrite String.eqb_sym, Ek. reflexivity.
      * exact IH.
Qed.

Lemma record_legend_keys name c m :
  NoDup (map fst m) -> NoDup (map fst (record_legend name c m)).
Proof.
  induction m as [|[k ls] m IH]; simpl; intros Hnd.
  - apply NoDup_singleton.
  - apply NoDup_cons in Hnd. destruct Hnd as [Hk Hnd].
    destruct (String.eqb k name) eqn:Ek; simpl.
    + apply NoDup_cons. split; assumption.
    + apply NoDup_cons. split; [|apply IH; exact Hnd].
      intros Hin. apply Hk. clear IH Hnd Hk.
      induction m as [|[k' ls'] m IHm]; simpl in *.
      * apply list_elem_of_singleton in Hin. subst k.
        rewrite String.eqb_refl in Ek. discriminate.
      * destruct (String.eqb k' name); simpl in Hin; [exact Hin|].
        apply elem_of_cons in Hin. destruct Hin as [->|Hin];
          [apply list_elem_of_here | apply list_elem_of_further, IHm, Hin].
Qed.

Lemma fill_legends_keys bf m :
  NoDup (map fst m) -> NoDup (map fst (fill_legends bf m)).
Proof.
  revert m. induction bf as [|c bf IH]; simpl; intros m Hnd; [exact Hnd|].
  apply IH. destruct (isLegendary c); [apply record_legend_keys|]; exact Hnd.
Qed.

Lemma fill_legends_under n bf m :
  legends_under n (fill_legends bf m) =
  match legends_under n m, legends_named n bf with
  | Some ls, named => Some (ls ++ named)
  | None, [] => None
  | None, named => Some named
  end.
Proof.
  revert m. induction bf as [|c bf IH]; intros m.
  - simpl. destruct (legends_under n m); [rewrite app_nil_r|]; reflexivity.
  - change (fill_legends (c :: bf) m) with
      (fill_legends bf
         (if isLegendary c then record_legend (getLegendaryName c) c m else m)).
    rewrite IH. unfold legends_named. simpl.
    destruct (isLegendary c) eqn:El; simpl; [|reflexivity].
    rewrite legends_under_record.
    destruct (String.eqb (getLegendaryName c) n) eqn:En; [|reflexivity].
    apply String.eqb_eq in En. rewrite En.
    destruct (legends_under n m); simpl; [|reflexivity].
    rewrite <- app_assoc. reflexivity.
Qed.

Lemma legends_under_In n ls m :
  legends_under n m = Some ls -> In (n, ls) m.
Proof.
  induction m as [|[k l] m IH]; simpl; [discriminate|].
  destruct (String.eqb k n) eqn:Ek.
  - apply String.eqb_eq in Ek. intros [= ->]. left. congruence.
  - intros H. right. apply IH, H.
Qed.

Lemma In_legends_under n ls m :
  NoDup (map fst m) -> In (n, ls) m -> legends_under n m = Some ls.
Proof.
  induction m as [|[k l] m IH]; simpl; [tauto|].
  intros Hnd. apply NoDup_cons in Hnd. destruct Hnd as [Hk Hnd].
  intros [[= -> ->] | Hin].
  - rewrite String.eqb_refl. reflexivity.
  - destruct (String.eqb k n) eqn:Ek; [|apply IH; assumption].
    apply String.eqb_eq in Ek. subst k. exfalso. apply Hk.
    apply list_elem_of_In. apply (in_map fst) in Hin. exact Hin.
Qed.

(** What the map holds once the battlefield is read. *)
Lemma collect_legends_under n bf :
  legends_under n (collect_legends bf) =
  match legends_named n bf with [] => None | named => Some named end.
Proof. apply (fill_legends_under n bf []). Qed.

Lemma collect_legends_keys bf : NoDup (map fst (collect_legends bf)).
Proof. apply (fill_legends_keys bf []). apply NoDup_nil_2. Qed.

End LegendRule.

Section LegendRuleActions.
Import StateBasedActionManager.

Lemma legendAction_inv a n ls :
  In a (legendAction (n, ls)) ->
  1 < length ls /\ reported_name a = Some n /\ slated a = drop 1 ls /\
  type a = "legend_rule_violation".
Proof.
  unfold legendAction. destruct (Nat.ltb 1 (length ls)) eqn:E; [|intros []].
  apply Nat.ltb_lt in E. intros [<- | []]. repeat split; assumption.
Qed.

Lemma legendActions_scanned gs k a :
  In a (legendActions (get_bf (battlefield gs) k)) ->
  In a (checkStateBasedActions gs).
Proof.
  intros H. unfold checkStateBasedActions, checkLegendRuleActions, over_battlefields.
  apply in_or_app; right. apply in_or_app; right. apply in_or_app; right.
  apply in_or_app; left. apply in_flat_map_bf_entries. exists k. exact H.
Qed.

End LegendRuleActions.

(** C7. When the battlefield of one player holds n > 1 legendary permanents
    that go by one legendary name, the scan has exactly one legend-rule
    action of that battlefield for the name; the cards it slates for the
    graveyard are the n - 1 permanents after the first one met, in
    battlefield order, and the first one met is not among them. With three
    such permanents, two are slated. *)
Theorem C7_legend_rule_keeps_first (gs : GameState) (k : PlayerKey) (name : string) :
  let bf := get_bf (battlefield gs) k in
  let legends := legends_named name bf in
  1 < length legends ->
  exists a first,
    legends = first :: slated a /\
    length (slated a) = length legends - 1 /\
    StateBasedActionManager.type a = "legend_rule_violation" /\
    In a (StateBasedActionManager.legendActions bf) /\
    In a (StateBasedActionManager.checkStateBasedActions gs) /\
    (forall a', In a' (StateBasedActionManager.legendActions bf) ->
       reported_name a' = Some name -> a' = a).
Proof.
  intros bf legends Hn.
  pose proof (collect_legends_under name bf) as Hunder.
  fold legends in Hunder.
  destruct legends as [|first others] eqn:Hl; [simpl in Hn; lia|].
  apply legends_under_In in Hunder.
  set (a := {| StateBasedActionManager.type := "legend_rule_violation";
               StateBasedActionManager.description :=
                 "Legend rule: duplicate " +:+ name +:+ " permanents destroyed";
               StateBasedActionManager.affectedCards := Some others;
               StateBasedActionManager.affectedPlayer := None;
               StateBasedActionManager.data :=
                 Some [("legendName", StateBasedActionManager.VStr name);
                       ("count", StateBasedActionManager.VNum
                                   (Z.of_nat (length (first :: others))))] |}).
  assert (Ha : In a (StateBasedActionManager.legendActions bf)).
  { unfold StateBasedActionManager.legendActions. apply in_flat_map.
    exists (name, first :: others). split; [exact Hunder|].
    unfold StateBasedActionManager.legendAction.
    destruct (Nat.ltb 1 (length (first :: others))) eqn:E.
    - left. reflexivity.
    - apply Nat.ltb_ge in E. lia. }
  exists a, first. split; [reflexivity|]. split; [subst a; unfold slated; simpl; lia|].
  split; [reflexivity|]. split; [exact Ha|].
  split; [apply (legendActions_scanned gs k); exact Ha|].
  intros a' Ha' Hname.
  unfold StateBasedActionManager.legendActions in Ha'.
  apply in_flat_map in Ha'. destruct Ha' as [[n ls] [Hin Hact]].
  pose proof (legendAction_inv _ _ _ Hact) as (_ & Hrep & _ & _).
  assert (n = name) by congruence. subst n.
  pose proof (In_legends_under _ _ _ (collect_legends_keys bf) Hin) as E1.
  pose proof (In_legends_under _ _ _ (collect_legends_keys bf) Hunder) as E2.
  assert (ls = first :: others) by congruence. subst ls.
  unfold StateBasedActionManager.legendAction in Hact.
  destruct (Nat.ltb 1 (length (first :: others))); [|destruct Hact].
  destruct Hact as [<- | []]. reflexivity.
Qed.

(** ** State-based actions: applying them *)

Section RemoveFirst.
Context {A : Type} (p : A -> bool).

Lemma remove_first_Some l x rest :
  JS.remove_first p l = Some (x, rest) ->
  exists l1 l2, l = l1 ++ x :: l2 /\ rest = l1 ++ l2 /\
    p x = true /\ forall y, In y l1 -> p y = false.
Proof.
  revert x rest. induction l as [|y l IH]; simpl; intros x rest; [discriminate|].
  destruct (p y) eqn:Ey.
  - intros [= <- <-]. exists [], l. repeat split; try reflexivity; [exact Ey|].
    intros z [].
  - destruct (JS.remove_first p l) as [[z r]|] eqn:E; [|discriminate].
    intros [= <- <-]. destruct (IH z r eq_refl) as (l1 & l2 & -> & -> & Hz & Hl1).
    exists (y :: l1), l2. repeat split; try reflexivity; [exact Hz|].
    intros w [<- | Hw]; [exact Ey | apply Hl1, Hw].
Qed.

Lemma remove_first_None l :
  JS.remove_first p l = None -> forall d, In d l -> p d = false.
Proof.
  induction l as [|y l IH]; simpl; [tauto|].
  destruct (p y) eqn:Ey; [discriminate|].
  destruct (JS.remove_first p l) as [[z r]|]; [discriminate|].
  intros _ d [<- | Hd]; [exact Ey | apply IH; [reflexivity|exact Hd]].
Qed.

End RemoveFirst.

Section MoveToGraveyard.
Import StateBasedActionManager.

Local Abbreviation bf_of g k := (get_bf (battlefield g) k).
Local Abbreviation yard_of g k := (graveyard (get_player (players g) k)).

Lemma has_id_true c d : has_id c d = true <-> card_id d = card_id c.
Proof. unfold has_id. apply String.eqb_eq. Qed.

Lemma has_id_false c d : has_id c d = false <-> card_id d <> card_id c.
Proof. unfold has_id. apply String.eqb_neq. Qed.

(** The three ways one turn of the loop can go. *)
Inductive move_outcome (c : MTGCard) (g g' : GameState) : Prop :=
| moved_from (k : PlayerKey) (d : MTGCard) (l1 l2 : list MTGCard) :
    card_id d = card_id c ->
    bf_of g k = l1 ++ d :: l2 ->
    (forall x, In x l1 -> card_id x <> card_id c) ->
    (forall k', keys_of (bf_keys (battlefield g)) = [k'; k] ->
       forall x, In x (bf_of g k') -> card_id x <> card_id c) ->
    bf_of g' k = l1 ++ l2 ->
    (forall k', k' <> k -> bf_of g' k' = bf_of g k') ->
    yard_of g' k = yard_of g k ++ [c] ->
    (forall k', k' <> k -> yard_of g' k' = yard_of g k') ->
    move_outcome c g g'
| not_found :
    (forall k x, In x (bf_of g k) -> card_id x <> card_id c) ->
    g' = g ->
    move_outcome c g g'.

Lemma remove_first_prefix c l d rest :
  JS.remove_first (has_id c) l = Some (d, rest) ->
  exists l1 l2, l = l1 ++ d :: l2 /\ rest = l1 ++ l2 /\
    card_id d = card_id c /\ forall x, In x l1 -> card_id x <> card_id c.
Proof.
  intros H. destruct (remove_first_Some _ _ _ _ H) as (l1 & l2 & E & E' & Hd & Hl1).
  exists l1, l2. repeat split; try assumption.
  - apply has_id_true, Hd.
  - intros x Hx. apply has_id_false, Hl1, Hx.
Qed.

Lemma move_from_two c g k1 k2 :
  keys_of (bf_keys (battlefield g)) = [k1; k2] ->
  move_outcome c g (move_from c [(k1, bf_of g k1); (k2, bf_of g k2)] g).
Proof.
  intros Hkeys.
  assert (Hne : k1 <> k2)
    by (destruct (bf_keys (battlefield g)); injection Hkeys as <- <-;
        discriminate).
  cbn [move_from].
  destruct (JS.remove_first (has_id c) (bf_of g k1)) as [[d rest]|] eqn:E1.
  - destruct (remove_first_prefix _ _ _ _ E1) as (l1 & l2 & E & -> & Hd & Hl1).
    apply (moved_from c g _ k1 d l1 l2); try assumption.
    + intros k' Hk'. rewrite Hkeys in Hk'. injection Hk' as _ Hk'.
      congruence.
    + destruct k1; reflexivity.
    + intros k' Hk'. destruct k1, k'; try congruence; reflexivity.
    + destruct k1; reflexivity.
    + intros k' Hk'. destruct k1, k'; try congruence; reflexivity.
  - destruct (JS.remove_first (has_id c) (bf_of g k2)) as [[d rest]|] eqn:E2.
    + destruct (remove_first_prefix _ _ _ _ E2) as (l1 & l2 & E & -> & Hd & Hl1).
      apply (moved_from c g _ k2 d l1 l2); try assumption.
      * intros k' Hk' x Hx. rewrite Hkeys in Hk'. injection Hk' as <-.
        apply has_id_false. apply (remove_first_None _ _ E1). exact Hx.
      * destruct k2; reflexivity.
      * intros k' Hk'. destruct k2, k'; try congruence; reflexivity.
      * destruct k2; reflexivity.
      * intros k' Hk'. destruct k2, k'; try congruence; reflexivity.
    + apply not_found; [|reflexivity].
      intros k x Hx. apply has_id_false.
      assert (Hk : k = k1 \/ k = k2) by (destruct k, k1, k2; tauto || congruence).
      destruct Hk as [-> | ->];
        [apply (remove_first_None _ _ E1) | apply (remove_first_None _ _ E2)];
        exact Hx.
Qed.

Lemma moveCardToGraveyard_outcome c g :
  move_outcome c g (moveCardToGraveyard g c).
Proof.
  unfold moveCardToGraveyard, bf_entries.
  destruct (bf_keys (battlefield g)) eqn:Ek; cbn [keys_of map];
    [apply (move_from_two c g player ai) | apply (move_from_two c g ai player)];
    rewrite Ek; reflexivity.
Qed.

End MoveToGraveyard.

Section MoveFacts.
Import StateBasedActionManager.

Local Abbreviation bf_of g k := (get_bf (battlefield g) k).
Local Abbreviation yard_of g k := (graveyard (get_player (players g) k)).

Lemma in_battlefield_ids g k x :
  In x (bf_of g k) -> In (card_id x) (battlefield_ids g).
Proof.
  intros H. unfold battlefield_ids. apply in_map. apply in_or_app.
  destruct k; [left | right]; exact H.
Qed.

Lemma same_id_same_card {A} (f : A -> string) (l : list A) x y :
  NoDup (map f l) -> In x l -> In y l -> f x = f y -> x = y.
Proof.
  induction l as [|z l IH]; simpl; [tauto|].
  intros Hnd. apply NoDup_cons in Hnd. destruct Hnd as [Hz Hnd].
  rewrite list_elem_of_In in Hz.
  intros [<- | Hx] [<- | Hy] E.
  - reflexivity.
  - exfalso. apply Hz. rewrite E. apply in_map, Hy.
  - exfalso. apply Hz. rewrite <- E. apply in_map, Hx.
  - apply IH; assumption.
Qed.

Lemma battlefield_card_by_id g kx ky x y :
  distinct_on_battlefield g ->
  In x (bf_of g kx) -> In y (bf_of g ky) -> card_id x = card_id y -> x = y.
Proof.
  intros Hnd Hx Hy. apply (same_id_same_card card_id _ x y Hnd);
    apply in_or_app; [destruct kx | destruct ky]; tauto.
Qed.

Lemma NoDup_without {A} (l r : list A) (a : A) :
  NoDup (l ++ a :: r) -> NoDup (l ++ r) /\ ~ In a (l ++ r).
Proof.
  intros H. apply NoDup_ListNoDup in H. split.
  - apply NoDup_ListNoDup. apply (List.NoDup_remove_1 _ _ _ H).
  - apply (List.NoDup_remove_2 _ _ _ H).
Qed.

(** A move takes one identifier out of the list of battlefield
    identifiers, or finds none and changes nothing. *)
Lemma outcome_ids c g g' :
  move_outcome c g g' ->
  (exists l r, battlefield_ids g = l ++ card_id c :: r /\
               battlefield_ids g' = l ++ r) \/
  (g' = g /\ ~ In (card_id c) (battlefield_ids g)).
Proof.
  intros [k d l1 l2 Hd Hbf _ _ Hbf' Hrest _ _ | Hnone ->].
  - left. unfold battlefield_ids. destruct k; simpl in Hbf, Hbf'.
    + specialize (Hrest ai ltac:(discriminate)). simpl in Hrest.
      rewrite Hbf, Hbf', Hrest.
      exists (map card_id l1), (map card_id (l2 ++ bf_ai (battlefield g))).
      rewrite <- Hd, <- !app_assoc, !map_app. simpl. split; reflexivity.
    + specialize (Hrest player ltac:(discriminate)). simpl in Hrest.
      rewrite Hbf, Hbf', Hrest.
      exists (map card_id (bf_player (battlefield g) ++ l1)), (map card_id l2).
      rewrite <- Hd, !map_app, <- !app_assoc. simpl. split; reflexivity.
  - right. split; [reflexivity|]. unfold battlefield_ids.
    intros Hin. apply in_map_iff in Hin. destruct Hin as (x & Hid & Hx).
    apply in_app_or in Hx.
    destruct Hx as [Hx | Hx];
      [apply (Hnone player x Hx) | apply (Hnone ai x Hx)]; exact Hid.
Qed.

Lemma move_keeps_distinct c g :
  distinct_on_battlefield g -> distinct_on_battlefield (moveCardToGraveyard g c).
Proof.
  unfold distinct_on_battlefield. intros Hnd.
  destruct (outcome_ids _ _ _ (moveCardToGraveyard_outcome c g))
    as [(l & r & E & E') | [-> _]]; [|exact Hnd].
  rewrite E in Hnd. rewrite E'. apply NoDup_without in Hnd. tauto.
Qed.

Lemma move_clears_id c g k x :
  distinct_on_battlefield g ->
  In x (bf_of (moveCardToGraveyard g c) k) -> card_id x <> card_id c.
Proof.
  unfold distinct_on_battlefield. intros Hnd Hx Hid.
  apply in_battlefield_ids in Hx. rewrite Hid in Hx.
  destruct (outcome_ids _ _ _ (moveCardToGraveyard_outcome c g))
    as [(l & r & E & E') | [E Hno]].
  - rewrite E in Hnd. rewrite E' in Hx. apply NoDup_without in Hnd. tauto.
  - rewrite E in Hx. contradiction.
Qed.

Lemma move_shrinks c g k x :
  In x (bf_of (moveCardToGraveyard g c) k) -> In x (bf_of g k).
Proof.
  destruct (moveCardToGraveyard_outcome c g)
    as [k0 d l1 l2 _ Hbf _ _ Hbf' Hrest _ _ | _ ->]; [|tauto].
  destruct (decide (k = k0)) as [-> | Hne].
  - rewrite Hbf, Hbf'. intros H. apply in_app_or in H. apply in_or_app.
    destruct H; [left | right; right]; assumption.
  - rewrite (Hrest k Hne). tauto.
Qed.

Lemma move_keeps_others c g k x :
  In x (bf_of g k) -> card_id x <> card_id c ->
  In x (bf_of (moveCardToGraveyard g c) k).
Proof.
  intros Hx Hid.
  destruct (moveCardToGraveyard_outcome c g)
    as [k0 d l1 l2 Hd Hbf _ _ Hbf' Hrest _ _ | _ ->]; [|exact Hx].
  destruct (decide (k = k0)) as [-> | Hne].
  - rewrite Hbf in Hx. rewrite Hbf'. apply in_app_or in Hx. apply in_or_app.
    destruct Hx as [Hx | [<- | Hx]]; [left; exact Hx | congruence | right; exact Hx].
  - rewrite (Hrest k Hne). exact Hx.
Qed.

Lemma move_extends_graveyard c g k :
  exists extra, yard_of (moveCardToGraveyard g c) k = yard_of g k ++ extra.
Proof.
  destruct (moveCardToGraveyard_outcome c g)
    as [k0 d l1 l2 _ _ _ _ _ _ Hy Hyrest | _ ->];
    [|exists []; rewrite app_nil_r; reflexivity].
  destruct (decide (k = k0)) as [-> | Hne].
  - exists [c]. exact Hy.
  - exists []. rewrite app_nil_r. apply Hyrest, Hne.
Qed.

(** The card on a battlefield goes to the graveyard of that battlefield's
    player. *)
Lemma move_buries c g k :
  distinct_on_battlefield g -> In c (bf_of g k) ->
  yard_of (moveCardToGraveyard g c) k = yard_of g k ++ [c].
Proof.
  intros Hnd Hc.
  destruct (moveCardToGraveyard_outcome c g)
    as [k0 d l1 l2 Hd Hbf _ Hai _ _ Hy _ | Hnone _].
  - destruct (decide (k = k0)) as [-> | Hne]; [exact Hy|]. exfalso.
    assert (Hdin : In d (bf_of g k0))
      by (rewrite Hbf; apply in_or_app; right; left; reflexivity).
    pose proof (battlefield_card_by_id g k0 k d c Hnd Hdin Hc Hd) as ->.
    unfold distinct_on_battlefield, battlefield_ids in Hnd.
    rewrite map_app in Hnd. apply NoDup_app in Hnd.
    destruct Hnd as (_ & Hdisj & _).
    destruct k, k0; try congruence.
    + apply (Hdisj (card_id c)); apply list_elem_of_In; apply in_map; assumption.
    + apply (Hdisj (card_id c)); apply list_elem_of_In; apply in_map; assumption.
  - exfalso. apply (Hnone k c Hc). reflexivity.
Qed.

Lemma moveCardsToGraveyard_cons c cs g :
  moveCardsToGraveyard (c :: cs) g =
  moveCardsToGraveyard cs (moveCardToGraveyard g c).
Proof. reflexivity. Qed.

Lemma moves_shrink cs g k x :
  In x (bf_of (moveCardsToGraveyard cs g) k) -> In x (bf_of g k).
Proof.
  revert g. induction cs as [|c cs IH]; intros g; [tauto|].
  rewrite moveCardsToGraveyard_cons.
  intros H. apply (move_shrinks c). apply IH. exact H.
Qed.

Lemma moves_extend_graveyard cs g k :
  exists extra, yard_of (moveCardsToGraveyard cs g) k = yard_of g k ++ extra.
Proof.
  revert g. induction cs as [|c cs IH]; intros g.
  - exists []. rewrite app_nil_r. reflexivity.
  - rewrite moveCardsToGraveyard_cons.
    destruct (IH (moveCardToGraveyard g c)) as [e1 E1].
    destruct (move_extends_graveyard c g k) as [e0 E0].
    exists (e0 ++ e1). rewrite E1, E0, app_assoc. reflexivity.
Qed.

(** Every card of the list that lay on a battlefield is off both
    battlefields afterwards and was appended to the graveyard of the player
    on whose battlefield it lay. The cards of the list are cards of the
    battlefield: whatever lies there under the identifier of one of them is
    that card. *)
Lemma moves_bury cs g c k :
  distinct_on_battlefield g ->
  (forall x d kd, In x cs -> In d (bf_of g kd) -> card_id d = card_id x -> d = x) ->
  In c cs -> In c (bf_of g k) ->
  (forall k' x, In x (bf_of (moveCardsToGraveyard cs g) k') ->
     card_id x <> card_id c) /\
  exists extra,
    yard_of (moveCardsToGraveyard cs g) k = yard_of g k ++ extra /\ In c extra.
Proof.
  revert g. induction cs as [|y cs IH]; intros g Hnd Hon Hin Hc; [destruct Hin|].
  rewrite moveCardsToGraveyard_cons.
  destruct (String.eqb (card_id y) (card_id c)) eqn:Eid.
  - apply String.eqb_eq in Eid.
    pose proof (Hon y c k ltac:(left; reflexivity) Hc (eq_sym Eid)) as <-.
    split.
    + intros k' x Hx. apply moves_shrink in Hx.
      apply (move_clears_id c g k' x Hnd Hx).
    + destruct (moves_extend_graveyard cs (moveCardToGraveyard g c) k) as [e E].
      exists ([c] ++ e). rewrite E, (move_buries c g k Hnd Hc), <- app_assoc.
      split; [reflexivity|]. left. reflexivity.
  - apply String.eqb_neq in Eid.
    destruct Hin as [-> | Hin]; [congruence|].
    assert (Hc' : In c (bf_of (moveCardToGraveyard g y) k))
      by (apply move_keeps_others; [exact Hc | congruence]).
    destruct (IH (moveCardToGraveyard g y)) as [Hoff (e & E & He)];
      [apply move_keeps_distinct, Hnd | | exact Hin | exact Hc' |].
    + intros x d kd Hx Hd. apply (Hon x d kd); [right; exact Hx|].
      apply (move_shrinks y). exact Hd.
    + split; [exact Hoff|].
      destruct (move_extends_graveyard y g k) as [e0 E0].
      exists (e0 ++ e). rewrite E, E0, app_assoc.
      split; [reflexivity|]. apply in_or_app. right. exact He.
Qed.

End MoveFacts.

Section ScanFacts.
Import StateBasedActionManager.

Local Abbreviation bf_of g k := (get_bf (battlefield g) k).

Lemma fold_moves_app cs ds g :
  moveCardsToGraveyard (cs ++ ds) g =
  moveCardsToGraveyard ds (moveCardsToGraveyard cs g).
Proof. unfold moveCardsToGraveyard. apply fold_left_app. Qed.

Lemma executeAction_moves a g :
  executeAction a g =
  moveCardsToGraveyard (if graveyard_bound (type a) then slated a else []) g.
Proof.
  unfold executeAction. destruct (graveyard_bound (type a)); [reflexivity|].
  destruct (String.eqb (type a) "equipment_unattached"); [reflexivity|].
  destruct (player_loss (type a)); reflexivity.
Qed.

(** Applying a list of actions is moving the cards they slate, in order. *)
Lemma executeStateBasedActions_moves actions gs :
  executeStateBasedActions actions gs =
  moveCardsToGraveyard (cards_to_move actions) gs.
Proof.
  unfold executeStateBasedActions, cards_to_move. revert gs.
  induction actions as [|a actions IH]; intros gs; [reflexivity|].
  simpl. rewrite fold_moves_app, <- executeAction_moves. apply IH.
Qed.

Lemma slated_of_each (f : MTGCard -> list StateBasedAction) bf a c :
  (forall x a', In a' (f x) -> In c (slated a') -> c = x) ->
  In a (flat_map f bf) -> In c (slated a) -> In c bf.
Proof.
  intros Hf Ha Hc. apply in_flat_map in Ha. destruct Ha as (x & Hx & Hax).
  rewrite (Hf x a Hax Hc). exact Hx.
Qed.

Ltac one_action H :=
  repeat match type of H with
         | In _ (if ?b then _ else _) => destruct b
         | In _ (_ ++ _) => apply in_app_or in H; destruct H as [H | H]
         | In _ (match ?o with Some _ => _ | None => _ end) => destruct o
         end;
  try destruct H as [<- | []]; try destruct H.

Lemma creatureActions_slated x a c :
  In a (creatureActions x) -> In c (slated a) -> c = x.
Proof.
  unfold creatureActions. intros H. one_action H;
    intros [<- | []]; reflexivity.
Qed.

Lemma planeswalkerActions_slated x a c :
  In a (planeswalkerActions x) -> In c (slated a) -> c = x.
Proof.
  unfold planeswalkerActions. intros H. one_action H;
    intros [<- | []]; reflexivity.
Qed.

Lemma auraActions_slated gs x a c :
  In a (auraActions gs x) -> In c (slated a) -> c = x.
Proof.
  unfold auraActions, getAttachmentTarget. intros H. one_action H;
    intros [<- | []]; reflexivity.
Qed.

Lemma equipmentActions_none gs x : equipmentActions gs x = [].
Proof.
  unfold equipmentActions, getAttachmentTarget.
  destruct (negb (isEquipment x)); reflexivity.
Qed.

Lemma checkEquipmentStateActions_none gs : checkEquipmentStateActions gs = [].
Proof.
  unfold checkEquipmentStateActions, over_battlefields, bf_entries.
  assert (H : forall bf, flat_map (equipmentActions gs) bf = []).
  { induction bf as [|x bf IH]; simpl; [reflexivity|].
    rewrite equipmentActions_none, IH. reflexivity. }
  destruct (bf_keys (battlefield gs)); simpl; rewrite !H; reflexivity.
Qed.

Lemma legendActions_slated bf a c :
  In a (legendActions bf) -> In c (slated a) -> In c bf.
Proof.
  unfold legendActions. intros Ha Hc. apply in_flat_map in Ha.
  destruct Ha as ([n ls] & Hin & Hact).
  pose proof (In_legends_under _ _ _ (collect_legends_keys bf) Hin) as E.
  rewrite collect_legends_under in E.
  destruct (legendAction_inv _ _ _ Hact) as (_ & _ & Hs & _).
  rewrite Hs in Hc.
  assert (Hls : In c ls).
  { destruct ls; simpl in Hc; [destruct Hc | right; rewrite drop_0 in Hc; exact Hc]. }
  destruct (legends_named n bf) eqn:El; [discriminate|].
  injection E as <-. rewrite <- El in Hls.
  unfold legends_named in Hls. apply filter_In in Hls. tauto.
Qed.

Lemma playerActions_slated k p a c :
  In a (playerActions k p) -> In c (slated a) -> False.
Proof.
  unfold playerActions. intros H. one_action H; intros [].
Qed.

Lemma over_battlefields_slated gs body a c :
  (forall bf a', In a' (body bf) -> In c (slated a') -> In c bf) ->
  In a (over_battlefields gs body) -> In c (slated a) ->
  exists k, In c (bf_of gs k).
Proof.
  unfold over_battlefields. intros Hbody Ha Hc.
  apply in_flat_map_bf_entries in Ha. destruct Ha as [k Ha].
  exists k. apply (Hbody _ a Ha Hc).
Qed.

(** Every card the scan slates lies on a battlefield of the snapshot. *)
Lemma scan_slates_battlefield_cards gs a c :
  In a (checkStateBasedActions gs) -> In c (slated a) ->
  exists k, In c (bf_of gs k).
Proof.
  unfold checkStateBasedActions. intros Ha Hc.
  apply in_app_or in Ha. destruct Ha as [Ha | Ha].
  { exfalso. unfold checkPlayerStateActions in Ha.
    apply in_flat_map_player_entries in Ha. destruct Ha as [k Ha].
    apply (playerActions_slated _ _ _ _ Ha Hc). }
  apply in_app_or in Ha. destruct Ha as [Ha | Ha].
  { apply (over_battlefields_slated gs (flat_map creatureActions) a c);
      [|exact Ha|exact Hc].
    intros bf a'. apply slated_of_each. intros x a0. apply creatureActions_slated. }
  apply in_app_or in Ha. destruct Ha as [Ha | Ha].
  { apply (over_battlefields_slated gs (flat_map planeswalkerActions) a c);
      [|exact Ha|exact Hc].
    intros bf a'. apply slated_of_each. intros x a0.
    apply planeswalkerActions_slated. }
  apply in_app_or in Ha. destruct Ha as [Ha | Ha].
  { apply (over_battlefields_slated gs legendActions a c); [|exact Ha|exact Hc].
    intros bf a'. apply legendActions_slated. }
  apply in_app_or in Ha. destruct Ha as [Ha | Ha].
  { unfold checkWorldRuleActions in Ha.
    destruct (Nat.ltb 1 _); [|destruct Ha]. destruct Ha as [<- | []].
    unfold slated in Hc. simpl in Hc.
    apply in_flat_map_bf_entries in Hc. destruct Hc as [k Hc].
    apply filter_In in Hc. exists k. tauto. }
  apply in_app_or in Ha. destruct Ha as [Ha | Ha].
  { apply (over_battlefields_slated gs (flat_map (auraActions gs)) a c);
      [|exact Ha|exact Hc].
    intros bf a'. apply slated_of_each. intros x a0. apply auraActions_slated. }
  rewrite checkEquipmentStateActions_none in Ha. destruct Ha.
Qed.

Lemma cards_to_move_In actions c :
  In c (cards_to_move actions) <->
  exists a, In a actions /\ graveyard_bound (type a) = true /\ In c (slated a).
Proof.
  unfold cards_to_move. rewrite in_flat_map. split.
  - intros (a & Ha & Hc). exists a. destruct (graveyard_bound (type a));
      [tauto | destruct Hc].
  - intros (a & Ha & Hg & Hc). exists a. rewrite Hg. tauto.
Qed.

(** No action of the scan asks for an equipment to be unattached. *)
Lemma scan_never_unattaches gs a :
  In a (checkStateBasedActions gs) -> type a <> "equipment_unattached".
Proof.
  unfold checkStateBasedActions. intros Ha.
  apply in_app_or in Ha. destruct Ha as [Ha | Ha].
  { unfold checkPlayerStateActions in Ha.
    apply in_flat_map_player_entries in Ha. destruct Ha as [k Ha].
    unfold playerActions in Ha. one_action Ha; discriminate. }
  apply in_app_or in Ha. destruct Ha as [Ha | Ha].
  { apply in_flat_map_bf_entries in Ha. destruct Ha as [k Ha].
    apply in_flat_map in Ha. destruct Ha as (x & _ & Ha).
    unfold creatureActions in Ha. one_action Ha; discriminate. }
  apply in_app_or in Ha. destruct Ha as [Ha | Ha].
  { apply in_flat_map_bf_entries in Ha. destruct Ha as [k Ha].
    apply in_flat_map in Ha. destruct Ha as (x & _ & Ha).
    unfold planeswalkerActions in Ha. one_action Ha; discriminate. }
  apply in_app_or in Ha. destruct Ha as [Ha | Ha].
  { apply in_flat_map_bf_entries in Ha. destruct Ha as [k Ha].
    apply in_flat_map in Ha. destruct Ha as ([n ls] & _ & Ha).
    destruct (legendAction_inv _ _ _ Ha) as (_ & _ & _ & ->). discriminate. }
  apply in_app_or in Ha. destruct Ha as [Ha | Ha].
  { unfold checkWorldRuleActions in Ha.
    destruct (Nat.ltb 1 _); [|destruct Ha]. destruct Ha as [<- | []].
    discriminate. }
  apply in_app_or in Ha. destruct Ha as [Ha | Ha].
  { apply in_flat_map_bf_entries in Ha. destruct Ha as [k Ha].
    apply in_flat_map in Ha. destruct Ha as (x & _ & Ha).
    unfold auraActions, getAttachmentTarget in Ha. one_action Ha; discriminate. }
  rewrite checkEquipmentStateActions_none in Ha. destruct Ha.
Qed.

End ScanFacts.

(** C2, refuted as worded. On a board where a dying creature of [ai] and a
    healthy creature of [player] bear one identifier, the scan slates the
    dying one, and applying the scan takes the healthy one off [player]'s
    battlefield, leaves the dying one on [ai]'s battlefield and pushes it
    onto [player]'s graveyard: [moveCardsToGraveyard] looks for the
    identifier on the battlefields in the order of the keys. *)
Lemma C2_counterexample_shared_identifier :
  let gs' :=
    StateBasedActionManager.executeStateBasedActions
      (StateBasedActionManager.checkStateBasedActions gs_twins) gs_twins in
  bf_player (battlefield gs') = [] /\
  bf_ai (battlefield gs') = [dying_twin] /\
  graveyard (pl_player (players gs')) = [dying_twin] /\
  graveyard (pl_ai (players gs')) = [] /\
  ~ slated_cards_buried gs_twins.
Proof.
  split; [reflexivity|]. split; [reflexivity|]. split; [reflexivity|].
  split; [reflexivity|].
  unfold slated_cards_buried. cbv zeta. intros H.
  destruct (StateBasedActionManager.checkStateBasedActions gs_twins)
    as [|a l] eqn:E; [vm_compute in E; discriminate E|].
  vm_compute in E. injection E as <- <-.
  destruct (H _ dying_twin (or_introl eq_refl) eq_refl (or_introl eq_refl))
    as (k & _ & Hgone & _).
  apply (Hgone ai dying_twin); [|reflexivity].
  vm_compute. left. reflexivity.
Qed.

(** C2, amended. In a snapshot whose battlefield cards bear distinct
    identifiers, applying the actions the scan produced gives a state in
    which every card slated by a graveyard-bound action (a creature or
    planeswalker death, a legend-rule or world-rule violation, an
    unattached aura) is on neither battlefield and has been appended to the
    graveyard of the player on whose battlefield it lay. No attachment is
    cleared: the scan never asks for an equipment to be unattached, and an
    action that does leaves the state as it is. A player-loss action
    changes nothing. *)
Theorem C2_actions_applied (gs : GameState) :
  distinct_on_battlefield gs ->
  slated_cards_buried gs /\
  (forall a, In a (StateBasedActionManager.checkStateBasedActions gs) ->
     StateBasedActionManager.type a <> "equipment_unattached") /\
  (forall a g,
     StateBasedActionManager.type a = "equipment_unattached" ->
     StateBasedActionManager.executeAction a g = g) /\
  (forall a g,
     StateBasedActionManager.player_loss (StateBasedActionManager.type a) = true ->
     StateBasedActionManager.executeAction a g = g).
Proof.
  intros Hnd. split; [|split; [|split]].
  - unfold slated_cards_buried. cbv zeta. intros a c Ha Hg Hc.
    destruct (scan_slates_battlefield_cards gs a c Ha Hc) as [k Hk].
    exists k. split; [exact Hk|].
    rewrite executeStateBasedActions_moves.
    apply moves_bury; [exact Hnd| |apply cards_to_move_In; eauto|exact Hk].
    intros x d kd Hx Hd Hid. apply cards_to_move_In in Hx.
    destruct Hx as (ax & Hax & _ & Hcx).
    destruct (scan_slates_battlefield_cards gs ax x Hax Hcx) as [kx Hkx].
    apply (battlefield_card_by_id gs kd kx d x Hnd Hd Hkx Hid).
  - apply scan_never_unattaches.
  - intros a g Ht.
    unfold StateBasedActionManager.executeAction. rewrite Ht. reflexivity.
  - intros a g Hl. unfold StateBasedActionManager.executeAction.
    destruct (StateBasedActionManager.graveyard_bound _) eqn:Eg.
    + exfalso. unfold StateBasedActionManager.player_loss in Hl.
      unfold StateBasedActionManager.graveyard_bound in Eg.
      repeat (apply orb_true_iff in Hl; destruct Hl as [Hl | Hl]);
        apply String.eqb_eq in Hl; rewrite Hl in Eg; discriminate Eg.
    + destruct (String.eqb _ "equipment_unattached"); [reflexivity|].
      rewrite Hl. reflexivity.
Qed.

(** ** The engine: mana *)

Section ManaFacts.
Import MTGRulesEngine.

Lemma sum_values_pool m : sum_values (pool_get m) = pool_total m.
Proof. unfold sum_values, pool_total. simpl. lia. Qed.

Lemma sum_values_paid payment : sum_values (paid payment) = payment_total payment.
Proof. unfold sum_values, payment_total. simpl. lia. Qed.

(** The test the code makes once the card has a cost. *)
Lemma validateManaCost_decides c cost payment pool :
  mana_cost c = Some cost -> cost <> "" ->
  validateManaCost c payment pool = true <->
  payment_total payment = pool_total (parseManaCost cost) /\
  (payment_total payment <= pool_total pool)%Z /\
  forall k, (paid payment k <= pool_get pool k)%Z /\
            (is_colorless k = false ->
             pool_get (parseManaCost cost) k <= paid payment k)%Z.
Proof.
  intros Hc Hne. unfold validateManaCost. rewrite Hc.
  destruct (String.eqb cost "") eqn:E; [apply String.eqb_eq in E; contradiction|].
  rewrite !sum_values_pool, sum_values_paid.
  destruct (Z.eqb_spec (payment_total payment) (pool_total (parseManaCost cost)))
    as [Ht | Ht]; simpl negb; simpl orb.
  - destruct (Z.ltb_spec (pool_total pool) (payment_total payment)) as [Ha | Ha].
    + split; [discriminate | intros (_ & H & _); lia].
    + rewrite forallb_forall. split.
      * intros H. split; [exact Ht|]. split; [exact Ha|]. intros k.
        assert (Hk : In k pool_entries) by (destruct k; simpl; tauto).
        specialize (H k Hk). apply negb_true_iff, orb_false_iff in H.
        destruct H as [H1 H2]. apply Z.ltb_ge in H1. split; [exact H1|].
        intros Hcol. rewrite Hcol in H2. simpl in H2. apply Z.ltb_ge in H2.
        exact H2.
      * intros (_ & _ & H) k _. destruct (H k) as [H1 H2].
        apply negb_true_iff, orb_false_iff. split; [apply Z.ltb_ge, H1|].
        destruct (is_colorless k); [reflexivity|]. simpl.
        apply Z.ltb_ge, H2. reflexivity.
  - split; [discriminate | intros (H & _); contradiction].
Qed.

End ManaFacts.

(** C6. For a card with a mana cost, the payment is accepted exactly when
    its total equals the total of the parsed cost, each of the five coloured
    requirements is covered in its own colour, the generic part of the cost
    is what the payment holds beyond that (colourless mana and the surplus
    of the colours), and no part of the payment exceeds the pool. Paying one
    white mana for Lightning Bolt, which costs one red, is rejected with
    the insufficient-mana violation. *)
Theorem C6_mana_payment (c : MTGCard) (cost : string)
    (payment : MTGRulesEngine.ManaPayment) (pool : ManaPool) :
  mana_cost c = Some cost -> cost <> "" ->
  let required := MTGRulesEngine.parseManaCost cost in
  (MTGRulesEngine.validateManaCost c payment pool = true <->
   payment_total payment = pool_total required /\
   (forall k, MTGRulesEngine.is_colorless k = false ->
      (MTGRulesEngine.pool_get required k <= MTGRulesEngine.paid payment k)%Z) /\
   (colorless required =
      MTGRulesEngine.paid payment MTGRulesEngine.Colorless +
      surplus required payment MTGRulesEngine.White +
      surplus required payment MTGRulesEngine.Blue +
      surplus required payment MTGRulesEngine.Black +
      surplus required payment MTGRulesEngine.Red +
      surplus required payment MTGRulesEngine.Green)%Z /\
   (forall k, (MTGRulesEngine.paid payment k <= MTGRulesEngine.pool_get pool k)%Z))
  /\
  MTGRulesEngine.validateAction (cast_with pay_one_white) gs_engine =
    {| MTGRulesEngine.isValid := false;
       MTGRulesEngine.errors := ["Insufficient mana to cast Lightning Bolt"];
       MTGRulesEngine.warnings := Some [] |}.
Proof.
  intros Hc Hne required. split; [|reflexivity].
  rewrite (validateManaCost_decides c cost payment pool Hc Hne).
  fold required. unfold surplus, payment_total, pool_total. split.
  - intros (Ht & Ha & Hk). split; [exact Ht|].
    split; [intros k; apply (Hk k)|]. split; [|intros k; apply (Hk k)].
    unfold pool_total in Ht. simpl. lia.
  - intros (Ht & Hcol & _ & Hpool). split; [exact Ht|]. split.
    + pose proof (Hpool MTGRulesEngine.White). pose proof (Hpool MTGRulesEngine.Blue).
      pose proof (Hpool MTGRulesEngine.Black). pose proof (Hpool MTGRulesEngine.Red).
      pose proof (Hpool MTGRulesEngine.Green).
      pose proof (Hpool MTGRulesEngine.Colorless). simpl in *. lia.
    + intros k. split; [apply Hpool | apply Hcol].
Qed.

Lemma C6_mana_payment_witness :
  MTGRulesEngine.validateManaCost engine_bolt pay_one_red one_red = true /\
  MTGRulesEngine.validateManaCost engine_bolt pay_one_white one_red = false.
Proof.
  pose proof (C6_mana_payment engine_bolt "{R}" pay_one_red one_red eq_refl
                ltac:(discriminate)) as [Hred _].
  pose proof (C6_mana_payment engine_bolt "{R}" pay_one_white one_red eq_refl
                ltac:(discriminate)) as [Hwhite _].
  split.
  - apply Hred. vm_compute. repeat split; try discriminate;
      intros []; try discriminate; intros; discriminate.
  - apply not_true_is_false. intros E.
    apply Hwhite in E. destruct E as (_ & Hcol & _).
    specialize (Hcol MTGRulesEngine.Red eq_refl). vm_compute in Hcol.
    apply Hcol. reflexivity.
Defined.

Example test_legal_spell_cast :
  MTGRulesEngine.validateAction (cast_with pay_one_red) gs_engine =
  MTGRulesEngine.fresh_result.
Proof. reflexivity. Qed.

(** ** The engine: verdicts *)

Section Verdicts.
Import MTGRulesEngine.

Lemma coherent_fresh : coherent fresh_result.
Proof. unfold coherent. simpl. tauto. Qed.

Lemma coherent_report msg r : coherent (report msg r).
Proof.
  unfold coherent, report, set_invalid, push_error. simpl.
  split; [discriminate|]. intros H. apply app_eq_nil in H.
  destruct H as [_ H]. discriminate H.
Qed.

Lemma coherent_when b msg r : coherent r -> coherent (when b (report msg) r).
Proof. destruct b; simpl; [intros _; apply coherent_report | tauto]. Qed.

Lemma push_warning_verdict msg r :
  isValid (push_warning msg r) = isValid r /\
  errors (push_warning msg r) = errors r.
Proof. split; reflexivity. Qed.

Lemma coherent_warning msg r : coherent r -> coherent (push_warning msg r).
Proof. unfold coherent. simpl. tauto. Qed.

Create HintDb verdict.

Local Hint Resolve coherent_fresh coherent_report coherent_when
  coherent_warning : verdict.

Lemma validateSpellCast_coherent action gs r :
  coherent r -> coherent (validateSpellCast action gs r).
Proof.
  intros Hr. unfold validateSpellCast.
  destruct (given_id action); [|auto with verdict].
  destruct (findCardInHand _ _); auto 6 with verdict.
Qed.

Lemma validateLandPlay_coherent action gs r :
  coherent r -> coherent (validateLandPlay action gs r).
Proof.
  intros Hr. unfold validateLandPlay.
  destruct (given_id action); [|auto with verdict].
  destruct (findCardInHand _ _); auto 6 with verdict.
Qed.

Lemma validateAction_coherent action gs : coherent (validateAction action gs).
Proof.
  unfold validateAction. destruct (type action).
  - apply validateSpellCast_coherent, coherent_fresh.
  - unfold validateAbilityActivation. auto with verdict.
  - unfold validateAttackerDeclaration. auto 6 with verdict.
  - unfold validateBlockerDeclaration. auto 6 with verdict.
  - apply validateLandPlay_coherent, coherent_fresh.
  - unfold validatePriorityPass. auto with verdict.
  - apply coherent_report.
Qed.

Lemma tally_entry_coherent format rules t d :
  coherent (verdict t) -> coherent (verdict (tally_entry format rules t d)).
Proof.
  intros Ht. unfold tally_entry. simpl. apply coherent_when.
  repeat match goal with |- context [if ?b then _ else _] => destruct b end;
    auto with verdict.
Qed.

Lemma tally_coherent format rules mainboard t :
  coherent (verdict t) ->
  coherent (verdict (fold_left (tally_entry format rules) mainboard t)).
Proof.
  revert t. induction mainboard as [|d mainboard IH]; simpl; intros t Ht;
    [exact Ht|].
  apply IH. apply tally_entry_coherent. exact Ht.
Qed.

Lemma validateFormatLegality_coherent mainboard format :
  coherent (validateFormatLegality mainboard format).
Proof.
  unfold validateFormatLegality.
  apply coherent_when.
  destruct (positive_bound (exactDeckSize _));
    destruct (positive_bound (maxDeckSize _));
    repeat apply coherent_when; apply tally_coherent, coherent_fresh.
Qed.

End Verdicts.

(** C10. Every verdict that [validateAction] and [validateFormatLegality]
    return is valid exactly when its list of errors is empty; pushing a
    warning changes neither the flag nor the errors, and the verdict on an
    ability activation is valid with the one warning of the stub. *)
Theorem C10_valid_iff_no_errors :
  (forall action gs,
     MTGRulesEngine.isValid (MTGRulesEngine.validateAction action gs) = true <->
     MTGRulesEngine.errors (MTGRulesEngine.validateAction action gs) = []) /\
  (forall mainboard format,
     MTGRulesEngine.isValid
       (MTGRulesEngine.validateFormatLegality mainboard format) = true <->
     MTGRulesEngine.errors
       (MTGRulesEngine.validateFormatLegality mainboard format) = []) /\
  (forall msg r,
     MTGRulesEngine.isValid (MTGRulesEngine.push_warning msg r) =
       MTGRulesEngine.isValid r /\
     MTGRulesEngine.errors (MTGRulesEngine.push_warning msg r) =
       MTGRulesEngine.errors r) /\
  MTGRulesEngine.validateAction activate_something gs_engine =
    {| MTGRulesEngine.isValid := true; MTGRulesEngine.errors := [];
       MTGRulesEngine.warnings :=
         Some ["Ability activation validation not fully implemented"] |}.
Proof.
  split; [exact validateAction_coherent|].
  split; [exact validateFormatLegality_coherent|].
  split; [exact push_warning_verdict|reflexivity].
Qed.

(** The cases of the repository's engine tests. *)
Example test_deck_too_small :
  MTGRulesEngine.validateFormatLegality four_bolts "Standard" =
  {| MTGRulesEngine.isValid := false;
     MTGRulesEngine.errors := ["Deck too small (4/60)"];
     MTGRulesEngine.warnings := Some [] |}.
Proof. vm_compute. reflexivity. Qed.

Example test_too_many_copies :
  In "Too many copies of Lightning Bolt (5/4)"
    (MTGRulesEngine.errors
       (MTGRulesEngine.validateFormatLegality
          ({| MTGRulesEngine.deck_card := engine_bolt;
              MTGRulesEngine.quantity := 5 |} ::
           repeat {| MTGRulesEngine.deck_card := engine_bolt;
                     MTGRulesEngine.quantity := 1 |} 59)
          "Standard")).
Proof. vm_compute. left. reflexivity. Qed.

Example test_parse_mana_costs :
  MTGRulesEngine.parseManaCost "{2}{R}{G}" =
    {| white := 0; blue := 0; black := 0; red := 1; green := 1; colorless := 2 |} /\
  MTGRulesEngine.parseManaCost "{3}{W}{U}{B}" =
    {| white := 1; blue := 1; black := 1; red := 0; green := 0; colorless := 3 |}.
Proof. split; reflexivity. Qed.

(** The scan of a board with three copies of one legend: the second and
    the third are slated. *)
Example test_three_legends :
  StateBasedActionManager.checkLegendRuleActions gs_three_legends =
  [ {| StateBasedActionManager.type := "legend_rule_violation";
       StateBasedActionManager.description :=
         "Legend rule: duplicate Isamaru, Hound of Konda permanents destroyed";
       StateBasedActionManager.affectedCards :=
         Some [isamaru "legend-2"; isamaru "legend-3"];
       StateBasedActionManager.affectedPlayer := None;
       StateBasedActionManager.data :=
         Some [("legendName", StateBasedActionManager.VStr "Isamaru, Hound of Konda");
               ("count", StateBasedActionManager.VNum 3)] |} ].
Proof. vm_compute. reflexivity. Qed.

Lemma C7_legend_rule_keeps_first_witness :
  exists a first,
    legends_named "Isamaru, Hound of Konda"
      (get_bf (battlefield gs_three_legends) player) = first :: slated a /\
    length (slated a) =
      length (legends_named "Isamaru, Hound of Konda"
                (get_bf (battlefield gs_three_legends) player)) - 1 /\
    StateBasedActionManager.type a = "legend_rule_violation" /\
    In a (StateBasedActionManager.legendActions
            (get_bf (battlefield gs_three_legends) player)) /\
    In a (StateBasedActionManager.checkStateBasedActions gs_three_legends) /\
    (forall a', In a' (StateBasedActionManager.legendActions
                         (get_bf (battlefield gs_three_legends) player)) ->
       reported_name a' = Some "Isamaru, Hound of Konda" -> a' = a).
Proof.
  apply (C7_legend_rule_keeps_first gs_three_legends player
           "Isamaru, Hound of Konda").
  vm_compute. lia.
Defined.

Lemma C2_actions_applied_witness :
  slated_cards_buried gs_three_legends /\
  (forall a, In a (StateBasedActionManager.checkStateBasedActions gs_three_legends) ->
     StateBasedActionManager.type a <> "equipment_unattached") /\
  (forall a g,
     StateBasedActionManager.type a = "equipment_unattached" ->
     StateBasedActionManager.executeAction a g = g) /\
  (forall a g,
     StateBasedActionManager.player_loss (StateBasedActionManager.type a) = true ->
     StateBasedActionManager.executeAction a g = g).
Proof.
  apply (C2_actions_applied gs_three_legends).
  unfold distinct_on_battlefield. vm_compute.
  repeat (apply NoDup_cons_2; [rewrite list_elem_of_In; simpl; intuition discriminate|]).
  apply NoDup_nil_2.
Defined.

Example test_three_legends_applied :
  let gs' :=
    StateBasedActionManager.executeStateBasedActions
      (StateBasedActionManager.checkStateBasedActions gs_three_legends)
      gs_three_legends in
  bf_player (battlefield gs') = [isamaru "legend-1"] /\
  graveyard (pl_player (players gs')) = [isamaru "legend-2"; isamaru "legend-3"].
Proof. vm_compute. split; reflexivity. Qed.

(** Why C2 asks for distinct identifiers. [moveCardsToGraveyard] finds a
    card by its identifier, battlefield by battlefield in the order of the
    keys (here [player]'s first); were one identifier to lie on both
    battlefields, the legend [ai] has twice would be taken from
    [player]. *)
Example shared_identifier_takes_first_holder :
  let gs' :=
    StateBasedActionManager.executeStateBasedActions
      (StateBasedActionManager.checkStateBasedActions gs_shared_identifier)
      gs_shared_identifier in
  bf_player (battlefield gs') = [] /\
  bf_ai (battlefield gs') = [isamaru "legend-1"; isamaru "legend-1"] /\
  graveyard (pl_player (players gs')) = [isamaru "legend-1"] /\
  graveyard (pl_ai (players gs')) = [].
Proof. vm_compute. repeat split; reflexivity. Qed.

(** ** The remaining operations of the zone manager *)

Section LibraryOperations.
Import ZoneManager.

Lemma drawCard_empty p : library p = [] -> drawCard p = (None, p).
Proof. unfold drawCard. intros ->. reflexivity. Qed.

Lemma drawCard_top p c rest :
  library p = c :: rest ->
  fst (drawCard p) = Some c /\
  library (snd (drawCard p)) = rest /\
  hand (snd (drawCard p)) = hand p ++ [c].
Proof. unfold drawCard. intros ->. repeat split; reflexivity. Qed.

Lemma millCards_loop_spec n : forall p milled,
  fst (millCards_loop n p milled) = milled ++ take n (library p) /\
  library (snd (millCards_loop n p milled)) = drop n (library p) /\
  graveyard (snd (millCards_loop n p milled)) = graveyard p ++ take n (library p).
Proof.
  induction n as [|n IH]; intros p milled; simpl.
  - rewrite !app_nil_r, drop_0. repeat split; reflexivity.
  - destruct (library p) as [|c rest] eqn:E; simpl.
    + rewrite !app_nil_r, E. repeat split; reflexivity.
    + destruct (IH (with_graveyard (with_library p rest) (graveyard p ++ [c]))
                  (milled ++ [c])) as (H1 & H2 & H3).
      simpl in H1, H2, H3. rewrite H1, H2, H3, <- !app_assoc.
      repeat split; reflexivity.
Qed.

(** [millCards] moves the top [count] cards, or the whole library when it
    is shorter, in library order. *)
Lemma millCards_moves p count :
  fst (millCards p count) = take (Z.to_nat count) (library p) /\
  length (fst (millCards p count)) =
    Nat.min (Z.to_nat count) (length (library p)).
Proof.
  unfold millCards.
  destruct (millCards_loop_spec (Z.to_nat count) p []) as (H & _ & _).
  rewrite H. simpl. split; [reflexivity|]. apply length_take.
Qed.

(** An accepted move leaves the snapshot it was given in the store. *)
Lemma accepted_move_keeps_input event r (h : gmap nat GameState) gs :
  h !! r = Some gs ->
  validateZoneChange event gs = Ok true ->
  snd (executeZoneChange event r h) !! r = Some gs.
Proof.
  intros Hr Hok. rewrite (executeZoneChange_ok event r h gs Hr Hok). simpl.
  rewrite lookup_insert_ne; [exact Hr|].
  intros E. pose proof (fresh_address_unused h) as Hf. congruence.
Qed.

End LibraryOperations.

(** ** The string readings, on small inputs *)

Example parseInt_cases :
  JS.parseInt "2" = Some 2%Z /\ JS.parseInt " -13x" = Some (-13)%Z /\
  JS.parseInt "*" = None /\ JS.parseInt "" = None /\ JS.parseInt "+07" = Some 7%Z.
Proof. repeat split; reflexivity. Qed.

Example loyalty_cases :
  StateBasedActionManager.getPlaneswalkerLoyalty
    (a_card "pw-1" "Jace" "Legendary Planeswalker" None
       (Some "[+2]: Look at the top card. [-1]: Draw.") None) = 2%Z /\
  StateBasedActionManager.getPlaneswalkerLoyalty
    (a_card "pw-2" "Jace" "Legendary Planeswalker" None
       (Some "[0]: Draw a card.") None) = 0%Z /\
  StateBasedActionManager.getPlaneswalkerLoyalty
    (a_card "pw-3" "Jace" "Legendary Planeswalker" None None None) = 0%Z.
Proof. repeat split; reflexivity. Qed.

Example legendary_name_cases :
  StateBasedActionManager.getLegendaryName
    (a_card "dfc-1" "Delver of Secrets // Insectile Aberration" "Creature"
       None None None) = "Delver of Secrets" /\
  StateBasedActionManager.getLegendaryName
    (a_card "x-1" " // Back" "Creature" None None None) = " // Back".
Proof. split; reflexivity. Qed.

(** A count word is read only when a second "target" follows it inside one
    clause; this is also the only way into the "up" case. *)
Example count_word_cases :
  TargetingManager.parseTargetRequirements
    (a_card "s-1" "Bolt" "Instant" None
       (Some "Lightning Bolt deals 3 damage to target creature or player.") None) =
    [ {| TargetingManager.type := TargetingManager.t_creature;
         TargetingManager.count := 1; TargetingManager.optional := false;
         TargetingManager.restrictions := [] |} ] /\
  TargetingManager.parseTargetRequirements
    (a_card "s-2" "Pair" "Sorcery" None
       (Some "Tap target creature and two target lands.") None) =
    [ {| TargetingManager.type := TargetingManager.t_creature;
         TargetingManager.count := 2; TargetingManager.optional := false;
         TargetingManager.restrictions := [] |} ] /\
  TargetingManager.parseTargetRequirements
    (a_card "s-3" "Odd" "Sorcery" None
       (Some "Target player. Up to two target spells.") None) =
    [ {| TargetingManager.type := TargetingManager.t_player;
         TargetingManager.count := 1; TargetingManager.optional := false;
         TargetingManager.restrictions := [] |};
      {| TargetingManager.type := TargetingManager.t_spell;
         TargetingManager.count := 1; TargetingManager.optional := false;
         TargetingManager.restrictions := [] |} ].
Proof. repeat split; reflexivity. Qed.

Example count_target_cases :
  MTGRulesEngine.count_target 0 "Target creature fights another target creature." = 2 /\
  MTGRulesEngine.count_target 0 "Destroy all creatures." = 0 /\
  MTGRulesEngine.count_target 0 "targetTARGET" = 2.
Proof. repeat split; reflexivity. Qed.

(** * Further properties of the code *)

(** ** Zone manager: library operations *)

Section LibraryFacts.
Import ZoneManager.

Lemma swap_length {A} (xs : list A) i j : length (swap xs i j) = length xs.
Proof.
  unfold swap. destruct (xs !! i), (xs !! j); try reflexivity.
  rewrite !length_insert. reflexivity.
Qed.

Lemma swap_permutation {A} (xs : list A) i j : swap xs i j ≡ₚ xs.
Proof.
  unfold swap. destruct (xs !! i) as [x|] eqn:Ei; [|reflexivity].
  destruct (xs !! j) as [y|] eqn:Ej; [|reflexivity].
  apply Permutation_insert_swap; assumption.
Qed.

Lemma swap_above {A} (xs : list A) i j k :
  i < k -> j < k -> swap xs i j !! k = xs !! k.
Proof.
  intros Hi Hj. unfold swap. destruct (xs !! i), (xs !! j); try reflexivity.
  rewrite !list_lookup_insert_ne by lia. reflexivity.
Qed.

Lemma swap_at {A} (xs : list A) i j :
  i < length xs -> j < length xs -> swap xs i j !! i = xs !! j.
Proof.
  intros Hi Hj. unfold swap.
  destruct (lookup_lt_is_Some_2 xs i Hi) as [x Ex].
  destruct (lookup_lt_is_Some_2 xs j Hj) as [y Ey].
  rewrite Ex, Ey. destruct (decide (i = j)) as [-> | Hne].
  - rewrite list_lookup_insert_eq by (rewrite length_insert; lia). congruence.
  - rewrite list_lookup_insert_ne by congruence.
    rewrite list_lookup_insert_eq by lia. reflexivity.
Qed.

Lemma shuffle_from_length pick i : forall xs,
  length (shuffle_from pick i xs) = length xs.
Proof.
  induction i as [|i IH]; intros xs; simpl; [reflexivity|].
  rewrite IH. apply swap_length.
Qed.

Lemma shuffle_from_permutation pick i : forall xs,
  shuffle_from pick i xs ≡ₚ xs.
Proof.
  induction i as [|i IH]; intros xs; simpl; [reflexivity|].
  rewrite IH. apply swap_permutation.
Qed.

(** The loop from [i] down leaves the cells above [i] alone. *)
Lemma shuffle_from_above pick i : forall xs k,
  (forall n, pick n <= n) -> i < k -> shuffle_from pick i xs !! k = xs !! k.
Proof.
  induction i as [|i IH]; intros xs k Hpick Hk; simpl; [reflexivity|].
  rewrite IH by (assumption || lia). apply swap_above; [lia|].
  specialize (Hpick (S i)). lia.
Qed.

End LibraryFacts.

(** X1. [shuffleLibrary] rearranges the library and nothing else: the
    shuffled library is a permutation of the old one, the other fields of
    the player are untouched, and the bottom cell receives the card the
    first draw of the random number picked (the later turns of the loop
    work below it). The picks are the values of
    [Math.floor(Math.random() * (i + 1))], each at most [i]. *)
Theorem shuffleLibrary_permutes (pick : nat -> nat) (p : PlayerState) :
  (forall i, pick i <= i) ->
  library (ZoneManager.shuffleLibrary pick p) ≡ₚ library p /\
  hand (ZoneManager.shuffleLibrary pick p) = hand p /\
  graveyard (ZoneManager.shuffleLibrary pick p) = graveyard p /\
  exile (ZoneManager.shuffleLibrary pick p) = exile p /\
  (2 <= length (library p) ->
   library (ZoneManager.shuffleLibrary pick p) !! (length (library p) - 1) =
   library p !! pick (length (library p) - 1)).
Proof.
  intros Hpick. unfold ZoneManager.shuffleLibrary. simpl.
  split; [apply shuffle_from_permutation|]. repeat split.
  intros Hlen. destruct (length (library p) - 1) as [|i] eqn:Ei; [lia|].
  simpl. rewrite shuffle_from_above by (assumption || lia).
  apply swap_at; [lia|]. specialize (Hpick (S i)). lia.
Qed.

Lemma shuffleLibrary_permutes_witness :
  library (ZoneManager.shuffleLibrary pick_first three_cards) ≡ₚ
    library three_cards /\
  library (ZoneManager.shuffleLibrary pick_first three_cards) =
    [isamaru "legend-2"; isamaru "legend-3"; isamaru "legend-1"].
Proof.
  split; [|reflexivity].
  apply (shuffleLibrary_permutes pick_first three_cards).
  intros i. unfold pick_first. lia.
Defined.

(** X2. [millCards] moves the top [count] cards of the library, or all of
    it when it is shorter, onto the graveyard in library order; it returns
    those cards, leaves the rest of the library, and does not touch the
    hand or the exile zone. *)
Theorem millCards_takes_top (p : PlayerState) (count : Z) :
  let n := Z.to_nat count in
  let '(milled, p') := ZoneManager.millCards p count in
  milled = take n (library p) /\
  length milled = Nat.min n (length (library p)) /\
  library p' = drop n (library p) /\
  graveyard p' = graveyard p ++ milled /\
  hand p' = hand p /\ exile p' = exile p.
Proof.
  intros n. unfold ZoneManager.millCards. fold n.
  assert (Hkeep : forall k q milled,
            hand (snd (ZoneManager.millCards_loop k q milled)) = hand q /\
            exile (snd (ZoneManager.millCards_loop k q milled)) = exile q).
  { induction k as [|k IH]; intros q milled; simpl; [tauto|].
    destruct (library q) as [|c rest]; simpl; [tauto|].
    destruct (IH (with_graveyard (with_library q rest) (graveyard q ++ [c]))
                 (milled ++ [c])) as [H1 H2].
    split; [exact H1 | exact H2]. }
  destruct (millCards_loop_spec n p []) as (H1 & H2 & H3).
  destruct (Hkeep n p []) as [H4 H5].
  destruct (ZoneManager.millCards_loop n p []) as [milled p'].
  simpl in *. subst milled. rewrite length_take.
  repeat split; assumption.
Qed.

(** ** Zone manager: what a move leaves alone *)

Section FrameFacts.
Import ZoneManager.

Lemma differs_self c : differs c c = false.
Proof. unfold differs. rewrite same_id_refl. reflexivity. Qed.

Lemma others_filtered c l : others c (List.filter (differs c) l) = others c l.
Proof.
  unfold others. induction l as [|d l IH]; simpl; [reflexivity|].
  destruct (differs c d) eqn:E; simpl; [rewrite E, IH; reflexivity | exact IH].
Qed.

Lemma other_objects_filtered c l :
  other_objects c (List.filter (fun obj => differs c (source obj)) l) =
  other_objects c l.
Proof.
  unfold other_objects. induction l as [|d l IH]; simpl; [reflexivity|].
  destruct (differs c (source d)) eqn:E; simpl; [rewrite E, IH; reflexivity | exact IH].
Qed.

Lemma others_push c l : others c (l ++ [c]) = others c l.
Proof.
  unfold others. rewrite List.filter_app. simpl. rewrite differs_self.
  apply app_nil_r.
Qed.

Lemma others_unshift c l : others c (c :: l) = others c l.
Proof. unfold others. simpl. rewrite differs_self. reflexivity. Qed.

Lemma others_splice c i l : others c (JS.splice_insert i c l) = others c l.
Proof.
  unfold others, JS.splice_insert. rewrite List.filter_app. simpl.
  rewrite differs_self, <- List.filter_app, take_drop. reflexivity.
Qed.

Lemma same_but_refl c g : same_but c g g.
Proof. unfold same_but. repeat split. Qed.

Lemma same_but_trans c g1 g2 g3 :
  same_but c g1 g2 -> same_but c g2 g3 -> same_but c g1 g3.
Proof.
  unfold same_but.
  intros (Hk & Hs & H1 & H2 & H3 & H4 & H5 & H6 & H7 & H8 & H9 & H10)
         (Hk' & Hs' & H1' & H2' & H3' & H4' & H5' & H6' & H7' & H8' & H9' & H10').
  split.
  - intros k. destruct (Hk k) as (A1 & A2 & A3 & A4 & A5 & A6 & A7).
    destruct (Hk' k) as (B1 & B2 & B3 & B4 & B5 & B6 & B7).
    repeat split; congruence.
  - repeat split; congruence.
Qed.

Ltac frame_step :=
  unfold same_but; split;
  [ intros []; simpl;
    repeat split;
    first [ reflexivity | apply others_filtered | apply others_push
          | apply others_unshift | apply others_splice ]
  | simpl; repeat split;
    first [ reflexivity | apply other_objects_filtered ] ].

Lemma removeCardFromZone_frame c z k g :
  same_but c g (removeCardFromZone c z k g).
Proof.
  destruct z, k; unfold removeCardFromZone;
    try destruct (existsb (same_id c) (bf_player (battlefield g)));
    frame_step.
Qed.

Lemma addCardToZone_frame c z k g pos fd :
  same_but c g (addCardToZone c z k g pos fd).
Proof.
  destruct z, k, pos; unfold addCardToZone; frame_step.
Qed.

Lemma moved_frame event g : same_but (card event) g (moved event g).
Proof.
  unfold moved. eapply same_but_trans;
    [apply removeCardFromZone_frame | apply addCardToZone_frame].
Qed.

End FrameFacts.

(** X3. An accepted move touches nothing but the card it moves: in the new
    snapshot every zone of either player, both battlefields and the stack
    hold the same other cards in the same order as before, and life totals,
    mana pools, turn, phase, step, priority, combat, the log and the order
    of the keys of [players] and [battlefield] are equal; the snapshot that
    was passed in is still in the store. *)
Theorem executeZoneChange_frame (event : ZoneManager.ZoneChangeEvent) (r : nat)
    (h : gmap nat GameState) (gs : GameState) :
  h !! r = Some gs ->
  ZoneManager.validateZoneChange event gs = Ok true ->
  exists r' gs' h',
    ZoneManager.executeZoneChange event r h = (Ok r', h') /\
    h' !! r' = Some gs' /\ h' !! r = Some gs /\
    same_but (ZoneManager.card event) gs gs'.
Proof.
  intros Hr Hok.
  exists (fresh (dom h)), (moved event gs), (<[fresh (dom h) := moved event gs]> h).
  split; [apply executeZoneChange_ok; assumption|].
  split; [apply lookup_insert_eq|].
  split; [|apply moved_frame].
  rewrite lookup_insert_ne; [exact Hr|].
  intros E. pose proof (fresh_address_unused h) as Hf. congruence.
Qed.

Lemma executeZoneChange_frame_witness :
  exists r' gs' h',
    ZoneManager.executeZoneChange cast_bolt 0 {[ 0 := gs_bolt_in_hand ]}
      = (Ok r', h') /\
    h' !! r' = Some gs' /\ h' !! 0 = Some gs_bolt_in_hand /\
    same_but (ZoneManager.card cast_bolt) gs_bolt_in_hand gs'.
Proof.
  apply (executeZoneChange_frame cast_bolt 0 {[ 0 := gs_bolt_in_hand ]}
           gs_bolt_in_hand).
  - apply lookup_singleton_eq.
  - reflexivity.
Defined.

Section LibraryMoves.
Import ZoneManager.

Lemma removal_keeps_library c z k g :
  z <> zlibrary ->
  library (get_player (players (removeCardFromZone c z k g)) k) =
  library (get_player (players g) k).
Proof.
  intros Hz. destruct z, k; try contradiction; unfold removeCardFromZone;
    try destruct (existsb (same_id c) (bf_player (battlefield g))); reflexivity.
Qed.

Lemma library_after_move event g :
  to event = zlibrary -> from event <> zlibrary ->
  library (get_player (players (moved event g)) (ev_owner event)) =
  match position event with
  | Some i => JS.splice_insert i (card event)
                (library (get_player (players g) (ev_owner event)))
  | None => card event :: library (get_player (players g) (ev_owner event))
  end.
Proof.
  intros Hto Hfrom. unfold moved. rewrite Hto.
  rewrite <- (removal_keeps_library (card event) (from event) (ev_owner event) g Hfrom).
  unfold addCardToZone.
  destruct (position event), (ev_owner event); reflexivity.
Qed.

Lemma accepted_into_library event g :
  validateZoneChange event g = Ok true -> to event = zlibrary ->
  from event <> zlibrary.
Proof.
  intros Hok Hto Hfrom. apply validateZoneChange_ok_iff in Hok.
  destruct Hok as [_ Ht]. rewrite Hto, Hfrom in Ht. discriminate Ht.
Qed.

End LibraryMoves.

(** X4. A card moved to a library without a position goes on top: in the
    new snapshot [drawCard] for that player returns the moved card, and
    after that draw the library is the one the player had before the
    move. *)
Theorem put_on_top_then_draw (event : ZoneManager.ZoneChangeEvent) (r : nat)
    (h : gmap nat GameState) (gs : GameState) :
  h !! r = Some gs ->
  ZoneManager.validateZoneChange event gs = Ok true ->
  ZoneManager.to event = ZoneManager.zlibrary ->
  ZoneManager.position event = None ->
  exists r' gs' h',
    ZoneManager.executeZoneChange event r h = (Ok r', h') /\
    h' !! r' = Some gs' /\
    let owner := get_player (players gs') (ZoneManager.ev_owner event) in
    fst (ZoneManager.drawCard owner) = Some (ZoneManager.card event) /\
    library (snd (ZoneManager.drawCard owner)) =
      library (get_player (players gs) (ZoneManager.ev_owner event)) /\
    hand (snd (ZoneManager.drawCard owner)) = hand owner ++ [ZoneManager.card event].
Proof.
  intros Hr Hok Hto Hpos.
  exists (fresh (dom h)), (moved event gs), (<[fresh (dom h) := moved event gs]> h).
  split; [apply executeZoneChange_ok; assumption|].
  split; [apply lookup_insert_eq|].
  pose proof (library_after_move event gs Hto
                (accepted_into_library event gs Hok Hto)) as Hlib.
  rewrite Hpos in Hlib. cbv zeta.
  destruct (drawCard_top _ _ _ Hlib) as (H1 & H2 & H3).
  repeat split; assumption.
Qed.

Lemma put_on_top_then_draw_witness :
  exists r' gs' h',
    ZoneManager.executeZoneChange bolt_to_library 0 {[ 0 := gs_bolt_in_hand ]}
      = (Ok r', h') /\
    h' !! r' = Some gs' /\
    let owner := get_player (players gs') (ZoneManager.ev_owner bolt_to_library) in
    fst (ZoneManager.drawCard owner) = Some (ZoneManager.card bolt_to_library) /\
    library (snd (ZoneManager.drawCard owner)) =
      library (get_player (players gs_bolt_in_hand)
                 (ZoneManager.ev_owner bolt_to_library)) /\
    hand (snd (ZoneManager.drawCard owner)) =
      hand owner ++ [ZoneManager.card bolt_to_library].
Proof.
  apply (put_on_top_then_draw bolt_to_library 0 {[ 0 := gs_bolt_in_hand ]}
           gs_bolt_in_hand); reflexivity.
Defined.

(** X5. A card moved to a library at a position inside the library lands at
    that index: the cards above it keep their places and the cards from
    that index on move down by one. A position past the end appends, and a
    negative position counts from the end, stopping at the top. *)
Theorem move_to_library_position (event : ZoneManager.ZoneChangeEvent)
    (gs : GameState) (i : Z) :
  ZoneManager.validateZoneChange event gs = Ok true ->
  ZoneManager.to event = ZoneManager.zlibrary ->
  ZoneManager.position event = Some i ->
  let old := library (get_player (players gs) (ZoneManager.ev_owner event)) in
  let new := library (get_player (players (moved event gs))
                        (ZoneManager.ev_owner event)) in
  let len := Z.of_nat (length old) in
  let at_index := if (i <? 0)%Z then Z.max (len + i) 0 else Z.min i len in
  new = take (Z.to_nat at_index) old ++ ZoneManager.card event ::
        drop (Z.to_nat at_index) old /\
  new !! Z.to_nat at_index = Some (ZoneManager.card event) /\
  length new = S (length old) /\
  ((0 <= i <= len)%Z -> new !! Z.to_nat i = Some (ZoneManager.card event)).
Proof.
  intros Hok Hto Hpos old new len at_index.
  pose proof (library_after_move event gs Hto
                (accepted_into_library event gs Hok Hto)) as Hlib.
  rewrite Hpos in Hlib. fold old new in Hlib.
  assert (Hnew : new = take (Z.to_nat at_index) old ++ ZoneManager.card event ::
                       drop (Z.to_nat at_index) old) by exact Hlib.
  assert (Hbound : Z.to_nat at_index <= length old).
  { subst at_index len. destruct (Z.ltb_spec i 0); lia. }
  assert (Hat : new !! Z.to_nat at_index = Some (ZoneManager.card event)).
  { rewrite Hnew. rewrite lookup_app_r by (rewrite length_take; lia).
    rewrite length_take, Nat.min_l by lia. rewrite Nat.sub_diag. reflexivity. }
  split; [exact Hnew|]. split; [exact Hat|]. split.
  - rewrite Hnew, length_app, length_take. simpl. rewrite length_drop. lia.
  - intros Hi. replace (Z.to_nat i) with (Z.to_nat at_index); [exact Hat|].
    subst at_index. destruct (Z.ltb_spec i 0); lia.
Qed.

Lemma move_to_library_position_witness :
  library (get_player (players (moved bolt_to_library_at_1 gs_bolt_and_library))
             player) = [isamaru "lib-1"; bolt; isamaru "lib-2"] /\
  library (get_player (players (moved bolt_to_library_at_1 gs_bolt_and_library))
             player) !! 1 = Some bolt.
Proof.
  pose proof (move_to_library_position bolt_to_library_at_1 gs_bolt_and_library 1
                eq_refl eq_refl eq_refl) as (H1 & H2 & _ & _).
  split; [exact H1 | exact H2].
Defined.

(** ** Timing: lands, abilities, flash, and the engine's own check *)

Section TimingMore.
Import TimingManager.

Lemma stack_is_empty_iff gs : stack_is_empty gs = true <-> stack gs = [].
Proof.
  unfold stack_is_empty. destruct (stack gs); simpl; split;
    (reflexivity || discriminate).
Qed.

Lemma in_main_iff gs :
  in_main gs = true <-> phase gs = main1 \/ phase gs = main2.
Proof.
  unfold in_main. rewrite orb_true_iff, !bool_decide_eq_true. tauto.
Qed.

Lemma stack_nonempty_false gs :
  stack gs = [] -> Nat.ltb 0 (length (stack gs)) = false.
Proof. intros ->. reflexivity. Qed.

(** The check for a sorcery-speed restriction with no special condition. *)
Lemma validateTiming_sorcery_iff conds gs p :
  (forall c, conds = Some c ->
     forallb (fun condition => checkSpecialCondition condition gs p) c = true <->
     active_player gs = p) ->
  validateTiming (sorcery_timing conds) gs p = true <-> sorcery_moment gs p.
Proof.
  intros Hconds. unfold validateTiming, sorcery_moment. simpl.
  destruct (in_main gs) eqn:Hm; simpl.
  2:{ split; [discriminate|]. intros (H & _). apply in_main_iff in H. congruence. }
  destruct (stack_is_empty gs) eqn:Hs; simpl.
  2:{ split; [discriminate|]. intros (_ & H & _). apply stack_is_empty_iff in H.
      congruence. }
  apply in_main_iff in Hm. apply stack_is_empty_iff in Hs.
  rewrite (stack_nonempty_false gs Hs). simpl.
  destruct (bool_decide (active_player gs = p)) eqn:Ha; simpl.
  2:{ apply bool_decide_eq_false in Ha. split; [discriminate|tauto]. }
  apply bool_decide_eq_true in Ha.
  destruct (bool_decide (priority gs = p)) eqn:Hp; simpl.
  2:{ apply bool_decide_eq_false in Hp. split; [discriminate|tauto]. }
  apply bool_decide_eq_true in Hp.
  destruct conds as [c|]; [rewrite (Hconds c eq_refl)|]; tauto.
Qed.

Lemma only_your_turn_condition gs p :
  forallb (fun condition => checkSpecialCondition condition gs p)
    ["only_your_turn"] = true <-> active_player gs = p.
Proof.
  simpl. rewrite andb_true_r. unfold checkSpecialCondition. simpl.
  apply bool_decide_eq_true.
Qed.

End TimingMore.

(** X6. A land may be played exactly when the phase is main1 or main2, the
    stack is empty, and the player is the active player and holds
    priority. *)
Theorem canPlayLand_iff (gs : GameState) (p : PlayerKey) :
  TimingManager.canPlayLand gs p = true <-> sorcery_moment gs p.
Proof.
  unfold TimingManager.canPlayLand. apply validateTiming_sorcery_iff.
  intros c Hc. discriminate Hc.
Qed.

(** X7. What an activated ability needs, by the phrase its text carries:
    "activate only as a sorcery" (or "only any time you could cast a
    sorcery") needs the sorcery moment; otherwise "activate only during
    combat" needs the combat phase and priority; otherwise "activate only
    during your turn" needs the player's own turn and priority; an ability
    with none of the phrases needs priority alone, in any phase and with
    any stack. *)
Theorem canActivateAbility_by_phrase (c : MTGCard) (abilityText : option string)
    (gs : GameState) (p : PlayerKey) :
  let text := ability_text c abilityText in
  (sorcery_only text = true ->
   (TimingManager.canActivateAbility c gs p abilityText = true <->
    sorcery_moment gs p)) /\
  (sorcery_only text = false ->
   JS.includes text "activate only during combat" = true ->
   (TimingManager.canActivateAbility c gs p abilityText = true <->
    phase gs = combat /\ priority gs = p)) /\
  (sorcery_only text = false ->
   JS.includes text "activate only during combat" = false ->
   JS.includes text "activate only during your turn" = true ->
   (TimingManager.canActivateAbility c gs p abilityText = true <->
    active_player gs = p /\ priority gs = p)) /\
  (sorcery_only text = false ->
   JS.includes text "activate only during combat" = false ->
   JS.includes text "activate only during your turn" = false ->
   (TimingManager.canActivateAbility c gs p abilityText = true <->
    priority gs = p)).
Proof.
  intros text.
  unfold TimingManager.canActivateAbility, TimingManager.getAbilityTiming.
  change (JS.toLowerCase
            match abilityText with
            | Some t => if String.eqb t "" then default "" (oracle_text c) else t
            | None => default "" (oracle_text c)
            end) with text.
  change (JS.includes text "activate only as a sorcery" ||
          JS.includes text
            "activate this ability only any time you could cast a sorcery")
    with (sorcery_only text).
  split; [|split; [|split]].
  - intros ->. apply validateTiming_sorcery_iff. intros cs Hcs. discriminate Hcs.
  - intros -> ->. unfold TimingManager.validateTiming. simpl.
    destruct (bool_decide (phase gs = combat)) eqn:Hc; simpl.
    + apply bool_decide_eq_true in Hc.
      destruct (bool_decide (priority gs = p)) eqn:Hp; simpl.
      * apply bool_decide_eq_true in Hp. tauto.
      * apply bool_decide_eq_false in Hp. split; [discriminate|tauto].
    + apply bool_decide_eq_false in Hc. split; [discriminate|tauto].
  - intros -> -> ->. unfold TimingManager.validateTiming. simpl.
    destruct (bool_decide (priority gs = p)) eqn:Hp; simpl.
    + apply bool_decide_eq_true in Hp. rewrite andb_true_r.
      unfold TimingManager.checkSpecialCondition. simpl.
      rewrite bool_decide_eq_true. tauto.
    + apply bool_decide_eq_false in Hp. split; [discriminate|tauto].
  - intros -> -> ->. unfold TimingManager.validateTiming. simpl.
    destruct (bool_decide (priority gs = p)) eqn:Hp; simpl.
    + apply bool_decide_eq_true in Hp. tauto.
    + apply bool_decide_eq_false in Hp. split; [discriminate|tauto].
Qed.

Lemma canActivateAbility_by_phrase_witness :
  TimingManager.canActivateAbility tap_ability gs_ai_turn_stack player None = true.
Proof.
  pose proof (canActivateAbility_by_phrase tap_ability None gs_ai_turn_stack player)
    as (_ & _ & _ & H).
  apply H; reflexivity.
Defined.

Section FlashFacts.
Import TimingManager.

(** A card of one of the six named kinds gets no special condition from its
    type line. *)
Lemma typed_without_condition c :
  instant_typed c = true \/ sorcery_speed_typed c = true ->
  specialConditions (getTypeBasedTiming c) = None.
Proof.
  unfold instant_typed, sorcery_speed_typed, getTypeBasedTiming.
  intros H.
  destruct (JS.includes (JS.toLowerCase (type_line c)) "instant"); [reflexivity|].
  destruct H as [H|H]; [discriminate|].
  destruct (JS.includes (JS.toLowerCase (type_line c)) "sorcery"); [reflexivity|].
  simpl in H. rewrite <- !orb_assoc in H. rewrite orb_assoc in H.
  destruct (JS.includes _ "creature" || JS.includes _ "artifact" ||
            JS.includes _ "enchantment" || JS.includes _ "planeswalker") eqn:E;
    [reflexivity|].
  rewrite !orb_false_iff in E. destruct E as [[[E1 E2] E3] E4].
  rewrite E1, E2, E3, E4 in H. discriminate H.
Qed.

End FlashFacts.

(** X8. The word "flash" anywhere in the text (so also "flashback") makes
    a card of any of the six named kinds castable at instant speed: with no
    "can only be cast" phrase in the text, it passes the timing check
    exactly when the player holds priority, whatever the phase, the stack
    and the active player. *)
Theorem flash_casts_at_instant_speed (c : MTGCard) (gs : GameState) (p : PlayerKey) :
  JS.includes (TimingManager.lower_text c) "flash" = true ->
  imposes_no_condition c = true ->
  instant_typed c = true \/ sorcery_speed_typed c = true ->
  (TimingManager.canCastSpell c gs p = true <-> priority gs = p).
Proof.
  intros Hflash Hcond Htyped.
  unfold TimingManager.canCastSpell, TimingManager.getCardTiming.
  rewrite (typed_without_condition c Htyped).
  destruct (getTextBasedTiming_unconditioned c Hcond) as [Hs Hw].
  destruct (getTextBasedTiming_flash c)
    as [(_ & Esp & Est & Eac) | (E & _)]; [|congruence].
  assert (Hwin : TimingManager.p_window (TimingManager.getTextBasedTiming c)
                 = Some TimingManager.any_time).
  { unfold TimingManager.getTextBasedTiming. rewrite Hflash.
    unfold imposes_no_condition in Hcond.
    repeat (apply andb_true_iff in Hcond; destruct Hcond as [Hcond ?]).
    repeat match goal with
           | E : negb ?b = true |- _ => apply negb_true_iff in E; rewrite E
           end.
    reflexivity. }
  unfold TimingManager.validateTiming. simpl.
  rewrite Esp, Est, Eac, Hs, Hwin. simpl.
  destruct (bool_decide (priority gs = p)) eqn:Hp; simpl.
  - apply bool_decide_eq_true in Hp. tauto.
  - apply bool_decide_eq_false in Hp. split; [discriminate|tauto].
Qed.

Lemma flash_casts_at_instant_speed_witness :
  TimingManager.canCastSpell flash_sorcery gs_ai_turn_stack player = true.
Proof.
  apply (flash_casts_at_instant_speed flash_sorcery gs_ai_turn_stack player);
    try reflexivity.
  right. reflexivity.
Defined.

(** X9. How the next priority holder and the phase advance are derived:
    with an empty stack priority goes to the active player; with objects on
    the stack it goes to the player who does not hold it, so passing twice
    comes back to the same player; and [shouldAdvancePhase] is true exactly
    when the stack is empty, as its test of the two passes always
    succeeds. *)
Theorem priority_and_phase_advance (gs : GameState) :
  (stack gs = [] ->
   TimingManager.getNextPriorityPlayer gs = active_player gs) /\
  (stack gs <> [] ->
   TimingManager.getNextPriorityPlayer gs <> priority gs /\
   forall gs',
     stack gs' = stack gs ->
     priority gs' = TimingManager.getNextPriorityPlayer gs ->
     TimingManager.getNextPriorityPlayer gs' = priority gs) /\
  (TimingManager.shouldAdvancePhase gs = true <-> stack gs = []).
Proof.
  unfold TimingManager.getNextPriorityPlayer, TimingManager.shouldAdvancePhase,
    TimingManager.bothPlayersPassedPriority.
  rewrite andb_true_r. split; [|split].
  - intros H. apply stack_is_empty_iff in H. rewrite H. reflexivity.
  - intros H.
    assert (E : TimingManager.stack_is_empty gs = false).
    { destruct (TimingManager.stack_is_empty gs) eqn:E; [|reflexivity].
      apply stack_is_empty_iff in E. contradiction. }
    rewrite E. split; [destruct (priority gs); discriminate|].
    intros gs' Hs Hp.
    assert (E' : TimingManager.stack_is_empty gs' = false)
      by (unfold TimingManager.stack_is_empty in *; rewrite Hs; exact E).
    rewrite E', Hp. destruct (priority gs); reflexivity.
  - apply stack_is_empty_iff.
Qed.

Lemma priority_and_phase_advance_witness :
  TimingManager.getNextPriorityPlayer gs_bolt_in_hand = player /\
  TimingManager.getNextPriorityPlayer gs_ai_turn_stack = ai.
Proof.
  split.
  - destruct (priority_and_phase_advance gs_bolt_in_hand) as (H & _).
    exact (H eq_refl).
  - destruct (priority_and_phase_advance gs_ai_turn_stack) as (_ & H & _).
    assert (Hne : stack gs_ai_turn_stack <> []) by discriminate.
    destruct (H Hne) as [H' _].
    destruct (TimingManager.getNextPriorityPlayer gs_ai_turn_stack) eqn:E;
      [|reflexivity].
    exfalso. apply H'. reflexivity.
Defined.

Section CastHelpers.
Import TimingManager.

Lemma getTypeBasedTiming_conditions c :
  instant_typed c = false ->
  getTypeBasedTiming c = sorcery_timing None \/
  getTypeBasedTiming c = sorcery_timing (Some ["only_your_turn"]).
Proof.
  unfold instant_typed, getTypeBasedTiming. intros ->.
  repeat match goal with |- context [if ?b then _ else _] => destruct b end;
    tauto.
Qed.

Lemma instant_typed_passes c gs p :
  priority gs = p -> instant_typed c = true -> imposes_no_condition c = true ->
  canCastSpell c gs p = true.
Proof.
  intros Hprio Hi Hc. unfold canCastSpell, getCardTiming.
  rewrite (getTypeBasedTiming_instant c Hi).
  destruct (getTextBasedTiming_unconditioned c Hc) as [Hs Hw].
  unfold validateTiming. simpl. rewrite Hs.
  assert (Hwin : default any_time (p_window (getTextBasedTiming c)) = any_time)
    by (destruct Hw as [-> | ->]; reflexivity).
  rewrite Hwin.
  destruct (getTextBasedTiming_flash c)
    as [(_ & -> & -> & ->) | (_ & -> & -> & ->)]; simpl;
    rewrite (bool_decide_eq_true_2 _ Hprio); reflexivity.
Qed.

Lemma sorcery_typed_passes c gs p :
  instant_typed c = false -> imposes_no_condition c = true ->
  phase gs = main1 \/ phase gs = main2 -> stack gs = [] ->
  active_player gs = p -> priority gs = p ->
  canCastSpell c gs p = true.
Proof.
  intros Hi Hc Hm Hs Hact Hprio. unfold canCastSpell, getCardTiming.
  destruct (getTextBasedTiming_unconditioned c Hc) as [Hsp Hw].
  apply in_main_iff in Hm.
  assert (Hse : stack_is_empty gs = true) by (apply stack_is_empty_iff; exact Hs).
  unfold validateTiming. simpl. rewrite Hsp.
  rewrite (stack_nonempty_false gs Hs), andb_false_r.
  rewrite (bool_decide_eq_true_2 _ Hact), (bool_decide_eq_true_2 _ Hprio).
  rewrite andb_false_r. simpl.
  assert (Hspeed : checkSpeedTiming
            (default (speed (getTypeBasedTiming c)) (p_speed (getTextBasedTiming c)))
            gs = true).
  { destruct (default _ _); simpl; [rewrite Hm, Hse|..]; reflexivity. }
  assert (Hwin : checkWindowTiming
            (default (window (getTypeBasedTiming c)) (p_window (getTextBasedTiming c)))
            gs = true).
  { destruct (getTypeBasedTiming_conditions c Hi) as [-> | ->];
      destruct Hw as [-> | ->]; simpl; (exact Hm || reflexivity). }
  rewrite Hspeed, Hwin. simpl.
  destruct (getTypeBasedTiming_conditions c Hi) as [-> | ->]; simpl;
    [reflexivity|].
  unfold checkSpecialCondition. simpl.
  rewrite (bool_decide_eq_true_2 _ Hact). reflexivity.
Qed.

End CastHelpers.

(** X10. The engine's own timing test for a cast and the timing manager
    agree as follows. Whatever the timing manager allows, for a card of a
    kind the engine knows and without "flash" in its text, the engine
    allows too. What the engine allows, the timing manager allows as well
    once the caster is the active player, holds priority, and the text has
    no "can only be cast" phrase: the engine looks at neither the caster
    nor the text. *)
Theorem engine_and_manager_timing (c : MTGCard) (gs : GameState) (p : PlayerKey) :
  (known_kind c = true ->
   JS.includes (TimingManager.lower_text c) "flash" = false ->
   TimingManager.canCastSpell c gs p = true ->
   MTGRulesEngine.canCastAtCurrentTiming c gs = true) /\
  (MTGRulesEngine.canCastAtCurrentTiming c gs = true ->
   active_player gs = p -> priority gs = p ->
   imposes_no_condition c = true ->
   TimingManager.canCastSpell c gs p = true).
Proof.
  split.
  - intros Hkind Hflash Hcast.
    unfold MTGRulesEngine.canCastAtCurrentTiming.
    destruct (MTGRulesEngine.isInstant c) eqn:Hi; [reflexivity|].
    unfold known_kind in Hkind. rewrite Hi in Hkind. simpl in Hkind.
    rewrite Hkind.
    pose proof (sorcery_speed_of_type c Hi Hflash) as Hspeed.
    destruct (validateTiming_sorcery (TimingManager.getCardTiming c) gs p Hspeed
                (sorcery_speed_active_only c Hspeed) Hcast) as (Hm & Hs & _).
    unfold MTGRulesEngine.main_phase_empty_stack.
    rewrite Hs. simpl. rewrite andb_true_r.
    apply orb_true_iff. rewrite !bool_decide_eq_true. exact Hm.
  - intros Heng Hact Hprio Hcond.
    destruct (instant_typed c) eqn:Hi.
    + apply (instant_typed_passes c gs p Hprio Hi Hcond).
    + unfold MTGRulesEngine.canCastAtCurrentTiming in Heng.
      change (MTGRulesEngine.isInstant c) with (instant_typed c) in Heng.
      rewrite Hi in Heng.
      destruct (MTGRulesEngine.isSorcery c || MTGRulesEngine.isPermanent c);
        [|discriminate].
      unfold MTGRulesEngine.main_phase_empty_stack in Heng.
      apply andb_true_iff in Heng. destruct Heng as [Hm Hs].
      apply (sorcery_typed_passes c gs p Hi Hcond); try assumption.
      * apply orb_true_iff in Hm. rewrite !bool_decide_eq_true in Hm. exact Hm.
      * destruct (stack gs); [reflexivity|discriminate].
Qed.

Lemma engine_and_manager_timing_witness :
  MTGRulesEngine.canCastAtCurrentTiming forked_lightning gs_bolt_in_hand = true /\
  TimingManager.canCastSpell bolt gs_bolt_in_hand player = true.
Proof.
  split.
  - apply (engine_and_manager_timing forked_lightning gs_bolt_in_hand player);
      reflexivity.
  - apply (engine_and_manager_timing bolt gs_bolt_in_hand player); reflexivity.
Defined.

(** ** Targeting: lookup, validation and enumeration *)

Section LookupFacts.
Import TargetingManager.

Lemma find_app_first {A} (f : A -> bool) (l1 l2 : list A) :
  List.find f (l1 ++ l2) =
  match List.find f l1 with Some a => Some a | None => List.find f l2 end.
Proof.
  induction l1 as [|x l1 IH]; simpl; [reflexivity|].
  destruct (f x); [reflexivity|exact IH].
Qed.

Lemma first_some_find {A} (f : A -> bool) (ls : list (list A)) (last : option A) :
  first_some (map (List.find f) ls ++ [last]) =
  match List.find f (concat ls) with
  | Some a => Some a
  | None => last
  end.
Proof.
  induction ls as [|l ls IH]; simpl; [destruct last; reflexivity|].
  rewrite find_app_first. destruct (List.find f l); [reflexivity|exact IH].
Qed.

Lemma find_map_source (f : MTGCard -> bool) (l : list StackObject) :
  option_map source (List.find (fun obj => f (source obj)) l) =
  List.find f (map source l).
Proof.
  induction l as [|o l IH]; simpl; [reflexivity|].
  destruct (f (source o)); [reflexivity|exact IH].
Qed.

(** [findCardById] is one search through [searched_cards]. *)
Lemma findCardById_find i gs :
  findCardById i gs =
  List.find (fun c => String.eqb (card_id c) i) (searched_cards gs).
Proof.
  unfold findCardById, find_by_id, searched_cards, bf_entries, player_entries.
  destruct (bf_keys (battlefield gs)), (pl_keys (players gs));
    rewrite (find_map_source (fun c => String.eqb (card_id c) i));
    cbn [keys_of map flat_map app snd get_bf get_player concat first_some];
    rewrite ?app_nil_r, ?find_app_first;
  repeat match goal with
         | |- context [List.find ?f ?l] =>
             lazymatch l with
             | _ ++ _ => fail
             | _ => destruct (List.find f l); [reflexivity|]
             end
         end.
  all: reflexivity.
Qed.

End LookupFacts.

(** X11. [findCardById] returns the first card bearing the identifier in
    this order: the battlefields, in the order of the keys of
    [battlefield]; then, for each player in the order of the keys of
    [players], the hand, the graveyard and the exile zone; then the sources
    of the stack objects. A card it returns bears the identifier and lies in
    one of those zones, it returns nothing exactly when none of them holds
    the identifier, and the libraries are never looked at. *)
Theorem findCardById_searches (i : string) (gs : GameState) :
  TargetingManager.findCardById i gs =
    List.find (fun c => String.eqb (card_id c) i) (searched_cards gs) /\
  (forall c, TargetingManager.findCardById i gs = Some c ->
     card_id c = i /\ In c (searched_cards gs)) /\
  (TargetingManager.findCardById i gs = None <->
   forall c, In c (searched_cards gs) -> card_id c <> i) /\
  (forall k cards,
     TargetingManager.findCardById i
       (update_player k (fun p => with_library p cards) gs) =
     TargetingManager.findCardById i gs).
Proof.
  split; [apply findCardById_find|].
  rewrite findCardById_find. split; [|split].
  - intros c H. apply find_some in H. destruct H as [Hin Hid].
    apply String.eqb_eq in Hid. tauto.
  - split.
    + intros H c Hc. apply String.eqb_neq. apply (find_none _ _ H c Hc).
    + intros H. destruct (List.find _ _) as [c|] eqn:E; [|reflexivity].
      apply find_some in E. destruct E as [Hin Hid].
      apply String.eqb_eq in Hid. exfalso. apply (H c Hin Hid).
  - intros k cards. rewrite findCardById_find. unfold searched_cards.
    destruct k, (pl_keys (players gs)) eqn:Ek; simpl; rewrite Ek; reflexivity.
Qed.

Section ValidationFacts.
Import TargetingManager.

Lemma validateSingleTarget_fits r t gs :
  validateSingleTarget r t gs = true <-> target_fits r t gs.
Proof.
  unfold validateSingleTarget, target_fits.
  destruct (targetExists t gs); simpl; [|split; [discriminate|intros [? _]; discriminate]].
  destruct (bool_decide (type r = t_any)) eqn:Ea; simpl.
  - apply bool_decide_eq_true in Ea. rewrite forallb_forall. tauto.
  - apply bool_decide_eq_false in Ea.
    destruct (bool_decide (type r = target_type t)) eqn:Et; simpl.
    + apply bool_decide_eq_true in Et. rewrite forallb_forall. tauto.
    + apply bool_decide_eq_false in Et. split; [discriminate|tauto].
Qed.

Lemma validate_each_Forall2 rs : forall ts gs,
  length rs = length ts ->
  (validate_each rs ts gs = true <->
   Forall2 (fun r t => target_fits r t gs) rs ts).
Proof.
  induction rs as [|r rs IH]; intros [|t ts] gs Hlen; simpl in *; try discriminate.
  - split; [intros _; constructor | reflexivity].
  - rewrite andb_true_iff, validateSingleTarget_fits,
      (IH ts gs ltac:(congruence)).
    split.
    + intros [H1 H2]. constructor; assumption.
    + intros H. inversion H; subst. tauto.
Qed.

End ValidationFacts.

(** X12. A list of chosen targets is accepted for a card exactly when it
    has one target for each parsed requirement, in order, and each target
    exists in the snapshot, is of the required kind (any kind when the
    requirement says so) and satisfies every restriction of its
    requirement; in particular a list of another length is refused, and the
    count a requirement carries plays no part. *)
Theorem validateTargets_iff (c : MTGCard) (ts : list TargetingManager.Target)
    (gs : GameState) :
  (TargetingManager.validateTargets c ts gs = true <->
   Forall2 (fun r t => target_fits r t gs)
     (TargetingManager.parseTargetRequirements c) ts) /\
  (length ts <> length (TargetingManager.parseTargetRequirements c) ->
   TargetingManager.validateTargets c ts gs = false).
Proof.
  assert (Hiff : TargetingManager.validateTargets c ts gs = true <->
                 Forall2 (fun r t => target_fits r t gs)
                   (TargetingManager.parseTargetRequirements c) ts).
  { unfold TargetingManager.validateTargets.
    destruct (Nat.eqb (length (TargetingManager.parseTargetRequirements c)) 0 &&
              Nat.eqb (length ts) 0) eqn:E0.
    - apply andb_true_iff in E0. destruct E0 as [E1 E2].
      apply Nat.eqb_eq in E1, E2.
      destruct (TargetingManager.parseTargetRequirements c); [|discriminate].
      destruct ts; [|discriminate]. split; [intros _; constructor|reflexivity].
    - destruct (Nat.eqb (length (TargetingManager.parseTargetRequirements c))
                  (length ts)) eqn:El; simpl.
      + apply Nat.eqb_eq in El. apply validate_each_Forall2. exact El.
      + apply Nat.eqb_neq in El. split; [discriminate|].
        intros H. apply Forall2_length in H. contradiction. }
  split; [exact Hiff|].
  intros Hlen. apply not_true_is_false. intros H. apply Hiff in H.
  apply Forall2_length in H. congruence.
Qed.

Lemma validateTargets_iff_witness :
  TargetingManager.validateTargets giant_growth [] gs_two_creatures = false.
Proof.
  apply (validateTargets_iff giant_growth [] gs_two_creatures).
  vm_compute. discriminate.
Defined.

Section EnumerationFacts.
Import TargetingManager.

Lemma found_when_searched c gs :
  In c (searched_cards gs) ->
  exists d, findCardById (card_id c) gs = Some d.
Proof.
  intros Hin. destruct (findCardById (card_id c) gs) as [d|] eqn:E; [eauto|].
  rewrite findCardById_find in E.
  pose proof (find_none _ _ E c Hin) as Hno. simpl in Hno.
  rewrite String.eqb_refl in Hno. discriminate Hno.
Qed.

Lemma card_target_exists c ty k gs :
  ty <> t_player -> In c (searched_cards gs) ->
  targetExists {| id := card_id c; target_type := ty; controller := k |} gs = true.
Proof.
  intros Hty Hin. unfold targetExists. simpl.
  rewrite bool_decide_eq_false_2 by exact Hty.
  destruct (found_when_searched c gs Hin) as [d ->]. reflexivity.
Qed.

Lemma targets_on_In t k ty keep cards :
  In t (targets_on k ty keep cards) ->
  exists c, In c cards /\
    t = {| id := card_id c; target_type := ty; controller := k |}.
Proof.
  unfold targets_on. intros H. apply in_map_iff in H.
  destruct H as (c & <- & Hc). apply filter_In in Hc. exists c. tauto.
Qed.

Lemma battlefield_searched gs k c :
  In c (get_bf (battlefield gs) k) -> In c (searched_cards gs).
Proof.
  intros H. unfold searched_cards. apply in_or_app. left.
  apply in_concat. exists (get_bf (battlefield gs) k).
  split; [apply in_map, in_keys_of | exact H].
Qed.

Lemma graveyard_searched gs k c :
  In c (graveyard (get_player (players gs) k)) -> In c (searched_cards gs).
Proof.
  intros H. unfold searched_cards. apply in_or_app. right.
  apply in_or_app. left. apply in_concat.
  exists (hand (get_player (players gs) k) ++
          graveyard (get_player (players gs) k) ++
          exile (get_player (players gs) k)).
  split.
  - apply (in_map (fun k => hand (get_player (players gs) k) ++
                            graveyard (get_player (players gs) k) ++
                            exile (get_player (players gs) k))), in_keys_of.
  - apply in_or_app. right. apply in_or_app. left. exact H.
Qed.

(** A candidate of a kind other than spell exists and has the kind that
    was asked for. *)
Lemma candidate_exists r gs p t :
  type r <> t_spell ->
  In t (match type r with
        | t_creature => findCreatureTargets gs r p
        | t_player => findPlayerTargets gs r p
        | t_planeswalker => findPlaneswalkerTargets gs r p
        | t_permanent => findPermanentTargets gs r p
        | t_spell => findSpellTargets gs r p
        | t_card_in_graveyard => findGraveyardTargets gs r p
        | t_any => []
        end) ->
  targetExists t gs = true /\ type r = target_type t.
Proof.
  intros Hspell Hin.
  destruct (type r) eqn:Ety; [ | | |contradiction| | |destruct Hin].
  - unfold findCreatureTargets in Hin.
    apply in_flat_map_bf_entries in Hin. destruct Hin as [k Hin].
    apply targets_on_In in Hin. destruct Hin as (c & Hc & ->).
    split; [|reflexivity]. apply card_target_exists; [discriminate|].
    apply (battlefield_searched gs k), Hc.
  - unfold findPlayerTargets in Hin.
    destruct Hin as [<- | [<- | []]]; split; reflexivity.
  - unfold findPlaneswalkerTargets in Hin.
    apply in_flat_map_bf_entries in Hin. destruct Hin as [k Hin].
    apply targets_on_In in Hin. destruct Hin as (c & Hc & ->).
    split; [|reflexivity]. apply card_target_exists; [discriminate|].
    apply (battlefield_searched gs k), Hc.
  - unfold findPermanentTargets in Hin.
    apply in_flat_map_bf_entries in Hin. destruct Hin as [k Hin].
    apply targets_on_In in Hin. destruct Hin as (c & Hc & ->).
    split; [|reflexivity]. apply card_target_exists; [discriminate|].
    apply (battlefield_searched gs k), Hc.
  - unfold findGraveyardTargets in Hin.
    apply in_flat_map_player_entries in Hin. destruct Hin as [k Hin].
    apply targets_on_In in Hin. destruct Hin as (c & Hc & ->).
    split; [|reflexivity]. apply card_target_exists; [discriminate|].
    apply (graveyard_searched gs k), Hc.
Qed.

End EnumerationFacts.

(** X13. Every candidate that the enumeration offers for a requirement of a
    kind other than spell is accepted by the validation of a single target
    against that requirement: it exists in the snapshot, has the kind asked
    for and satisfies the restrictions. (Spell candidates carry the
    identifier of the stack object, while the existence test looks for the
    identifier of a card, so they are left out.) *)
Theorem enumerated_candidates_validate (r : TargetingManager.TargetRestriction)
    (gs : GameState) (p : PlayerKey) (t : TargetingManager.Target) :
  TargetingManager.type r <> TargetingManager.t_spell ->
  In t (TargetingManager.findValidTargetsForRequirement r gs p) ->
  TargetingManager.validateSingleTarget r t gs = true.
Proof.
  intros Hspell Hin. unfold TargetingManager.findValidTargetsForRequirement in Hin.
  apply filter_In in Hin. destruct Hin as [Hcand Hres].
  destruct (candidate_exists r gs p t Hspell Hcand) as [Hex Hty].
  apply validateSingleTarget_fits. split; [exact Hex|].
  split; [right; exact Hty|].
  intros x Hx. rewrite forallb_forall in Hres. apply Hres, Hx.
Qed.

Lemma enumerated_candidates_validate_witness :
  TargetingManager.validateSingleTarget
    {| TargetingManager.type := TargetingManager.t_creature;
       TargetingManager.count := 1; TargetingManager.optional := false;
       TargetingManager.restrictions := ["you_control"] |}
    {| TargetingManager.id := "creature-1";
       TargetingManager.target_type := TargetingManager.t_creature;
       TargetingManager.controller := player |} gs_two_creatures = true.
Proof.
  apply (enumerated_candidates_validate _ gs_two_creatures player).
  - discriminate.
  - vm_compute. left. reflexivity.
Defined.

(** ** Targeting: the resolver's clauses against the engine's word count *)

Section CountFacts.
Import TargetingManager.

Lemma append_length a b :
  String.length (a +:+ b) = String.length a + String.length b.
Proof. induction a as [|ch a IH]; simpl; [reflexivity | rewrite IH; reflexivity]. Qed.

Lemma match_target_clause_long s m :
  match_target_clause s = Some m ->
  String.eqb (JS.toLowerCase (substring 0 6 s)) "target" = true /\
  7 <= String.length m.
Proof.
  unfold match_target_clause.
  destruct (String.eqb (JS.toLowerCase (substring 0 6 s)) "target") eqn:E;
    [|discriminate].
  destruct (JS.span JS.is_space _) as [ws rest].
  destruct ws as [|w0 ws]; [discriminate|].
  destruct (JS.span _ rest) as [body tail]. intros [= <-].
  split; [reflexivity|].
  apply String.eqb_eq in E.
  assert (Hlen : String.length (substring 0 6 s) = 6)
    by (rewrite <- toLowerCase_length, E; reflexivity).
  rewrite !append_length, Hlen. simpl. lia.
Qed.

Lemma target_matches_here ch s :
  target_matches 0 (String ch s) =
  match match_target_clause (String ch s) with
  | Some m => m :: target_matches (String.length m - 1) s
  | None => target_matches 0 s
  end.
Proof. reflexivity. Qed.

Lemma count_target_here ch s :
  MTGRulesEngine.count_target 0 (String ch s) =
  if String.eqb (JS.toLowerCase (substring 0 6 (String ch s))) "target"
  then S (MTGRulesEngine.count_target 5 s)
  else MTGRulesEngine.count_target 0 s.
Proof. reflexivity. Qed.

(** The clauses found from a point on are at most the words counted from
    there, with one clause to spare while the count is still passing over a
    word that the clause search has already left. *)
Lemma clauses_bounded_by_words s : forall k j,
  j <= 5 ->
  length (target_matches k s) <=
  MTGRulesEngine.count_target j s + (if Nat.ltb k j then 1 else 0).
Proof.
  induction s as [|ch s IH]; intros k j Hj; [simpl; lia|].
  destruct k as [|k], j as [|j].
  - rewrite target_matches_here, count_target_here.
    destruct (match_target_clause (String ch s)) as [m|] eqn:Em.
    + destruct (match_target_clause_long _ _ Em) as [-> Hm]. simpl length.
      specialize (IH (String.length m - 1) 5 ltac:(lia)).
      destruct (Nat.ltb_spec (String.length m - 1) 5); simpl in *; lia.
    + destruct (String.eqb _ "target").
      * specialize (IH 0 5 ltac:(lia)). simpl in *. lia.
      * specialize (IH 0 0 ltac:(lia)). simpl in *. lia.
  - rewrite target_matches_here.
    change (MTGRulesEngine.count_target (S j) (String ch s))
      with (MTGRulesEngine.count_target j s).
    change (if Nat.ltb 0 (S j) then 1 else 0) with 1.
    destruct (match_target_clause (String ch s)) as [m|] eqn:Em.
    + destruct (match_target_clause_long _ _ Em) as [_ Hm]. simpl length.
      specialize (IH (String.length m - 1) j ltac:(lia)).
      destruct (Nat.ltb_spec (String.length m - 1) j); lia.
    + specialize (IH 0 j ltac:(lia)).
      destruct (Nat.ltb 0 j); lia.
  - change (target_matches (S k) (String ch s)) with (target_matches k s).
    rewrite count_target_here. change (if Nat.ltb (S k) 0 then 1 else 0) with 0.
    destruct (String.eqb _ "target").
    + specialize (IH k 5 ltac:(lia)). destruct (Nat.ltb k 5); lia.
    + specialize (IH k 0 ltac:(lia)). simpl in IH. lia.
  - change (target_matches (S k) (String ch s)) with (target_matches k s).
    change (MTGRulesEngine.count_target (S j) (String ch s))
      with (MTGRulesEngine.count_target j s).
    specialize (IH k j ltac:(lia)).
    change (Nat.ltb (S k) (S j)) with (Nat.ltb k j). exact IH.
Qed.

Lemma parse_every_clause ms :
  length (omap parseTargetClause ms) = length ms.
Proof.
  induction ms as [|m ms IH]; [reflexivity|].
  change (omap parseTargetClause (m :: ms)) with
    (match parseTargetClause m with
     | Some r => r :: omap parseTargetClause ms
     | None => omap parseTargetClause ms
     end).
  unfold parseTargetClause at 1.
  destruct (match first_match match_count_word (JS.toLowerCase m) with
            | Some _ => _ | None => _ end) as [cnt opt].
  simpl. rewrite IH. reflexivity.
Qed.

End CountFacts.

(** X14. The resolver never has more requirements for a card than the
    engine counts occurrences of the word "target" in its text: each
    requirement comes from a clause that starts at one of them. So a list
    of targets that the engine's cast validation accepts is at least as
    long as the list of requirements, and when it is longer (a clause with
    the word twice) the resolver refuses it. *)
Theorem requirements_at_most_target_words (c : MTGCard) (text : string)
    (ids : list string) (gs : GameState) :
  oracle_text c = Some text -> text <> "" ->
  length (TargetingManager.parseTargetRequirements c) <=
    MTGRulesEngine.count_target 0 text /\
  (MTGRulesEngine.validateTargets c ids gs = true ->
   length (TargetingManager.parseTargetRequirements c) <= length ids).
Proof.
  intros Htext Hne.
  assert (Hle : length (TargetingManager.parseTargetRequirements c) <=
                MTGRulesEngine.count_target 0 text).
  { unfold TargetingManager.parseTargetRequirements. rewrite Htext. simpl.
    rewrite parse_every_clause.
    pose proof (clauses_bounded_by_words text 0 0 ltac:(lia)) as H.
    simpl in H. lia. }
  split; [exact Hle|].
  unfold MTGRulesEngine.validateTargets. rewrite Htext.
  destruct (String.eqb text "") eqn:E; [apply String.eqb_eq in E; contradiction|].
  intros H. apply Nat.eqb_eq in H. lia.
Qed.

Lemma requirements_at_most_target_words_witness :
  length (TargetingManager.parseTargetRequirements
            (a_card "s-2" "Pair" "Sorcery" None
               (Some "Tap target creature and two target lands.") None)) <= 2.
Proof.
  apply (requirements_at_most_target_words
           (a_card "s-2" "Pair" "Sorcery" None
              (Some "Tap target creature and two target lands.") None)
           "Tap target creature and two target lands." [] gs_bolt_in_hand).
  - reflexivity.
  - discriminate.
Defined.

(** ** State-based actions: what the scan reports *)

Section ScanKinds.
Import StateBasedActionManager.

Local Abbreviation bf_of g k := (get_bf (battlefield g) k).

(** The one action a creature can get: the branches for marked damage and
    for deathtouch compare against a damage that is always 0. *)
Lemma creatureActions_eq x :
  creatureActions x =
  if isCreature x && (getCreatureToughness x <=? 0)%Z then
    [ {| type := "creature_dies_toughness";
         description := card_name x +:+ " is put into graveyard (0 toughness)";
         affectedCards := Some [x]; affectedPlayer := None;
         data := Some [("toughness", VNum (getCreatureToughness x));
                       ("reason", VStr "0_toughness")] |} ]
  else [].
Proof.
  unfold creatureActions, getCreatureDamage.
  destruct (isCreature x); simpl; [|reflexivity].
  rewrite andb_false_r, app_nil_r.
  destruct (Z.leb_spec (getCreatureToughness x) 0) as [H|H]; [reflexivity|].
  destruct (Z.leb_spec (getCreatureToughness x) 0); [lia|reflexivity].
Qed.

Lemma auraActions_eq gs x :
  auraActions gs x =
  if isAura x then
    [ {| type := "aura_unattached";
         description := card_name x +:+
                        " is put into graveyard (not attached to legal object)";
         affectedCards := Some [x]; affectedPlayer := None;
         data := Some [("attachedTo", VUndefined)] |} ]
  else [].
Proof. unfold auraActions, getAttachmentTarget. destruct (isAura x); reflexivity. Qed.

Lemma over_battlefields_nothing gs body :
  (forall k, body (bf_of gs k) = []) -> over_battlefields gs body = [].
Proof.
  intros H. unfold over_battlefields, bf_entries.
  destruct (bf_keys (battlefield gs)); cbn [keys_of map flat_map];
    rewrite (H player), (H ai); reflexivity.
Qed.

Lemma in_over_battlefields gs body a :
  In a (over_battlefields gs body) <->
  exists k, In a (body (bf_of gs k)).
Proof.
  unfold over_battlefields. rewrite in_flat_map_bf_entries. reflexivity.
Qed.

(** Membership in the scan, by the check that produced the action. *)
Lemma in_scan gs a :
  In a (checkStateBasedActions gs) <->
  In a (checkPlayerStateActions gs) \/
  (exists k x, In x (bf_of gs k) /\ In a (creatureActions x)) \/
  (exists k x, In x (bf_of gs k) /\ In a (planeswalkerActions x)) \/
  (exists k, In a (legendActions (bf_of gs k))) \/
  In a (checkWorldRuleActions gs) \/
  (exists k x, In x (bf_of gs k) /\ In a (auraActions gs x)).
Proof.
  unfold checkStateBasedActions.
  rewrite checkEquipmentStateActions_none, app_nil_r, !in_app_iff.
  unfold checkCreatureStateActions, checkPlaneswalkerStateActions,
    checkLegendRuleActions, checkAuraStateActions.
  rewrite !in_over_battlefields.
  assert (Hflat : forall (f : MTGCard -> list StateBasedAction),
            (exists k, In a (flat_map f (bf_of gs k))) <->
            (exists k x, In x (bf_of gs k) /\ In a (f x))).
  { intros f. split.
    - intros [k H]. apply in_flat_map in H. destruct H as (x & Hx & Ha). eauto.
    - intros (k & x & Hx & Ha). exists k. apply in_flat_map. eauto. }
  rewrite !Hflat. tauto.
Qed.

Lemma in_playerActions k p a :
  In a (playerActions k p) ->
  affectedPlayer a = Some k /\ affectedCards a = None /\
  ((type a = "player_loses_life" /\ (life p <= 0)%Z) \/
   (type a = "player_loses_library" /\ library p = [])).
Proof.
  unfold playerActions, countPoisonCounters. simpl. rewrite app_nil_r.
  intros H. apply in_app_or in H. destruct H as [H|H].
  - destruct (Z.leb_spec (life p) 0); [|destruct H].
    destruct H as [<- | []]. simpl. tauto.
  - destruct (library p) eqn:E; simpl in H; [|destruct H].
    destruct H as [<- | []]. simpl. tauto.
Qed.

Lemma in_checkPlayerStateActions gs a :
  In a (checkPlayerStateActions gs) <->
  exists k, In a (playerActions k (get_player (players gs) k)).
Proof.
  unfold checkPlayerStateActions. rewrite in_flat_map_player_entries.
  reflexivity.
Qed.

Lemma in_planeswalkerActions x a :
  In a (planeswalkerActions x) ->
  type a = "planeswalker_dies" /\ slated a = [x] /\ affectedPlayer a = None /\
  isPlaneswalker x = true /\ (getPlaneswalkerLoyalty x <= 0)%Z.
Proof.
  unfold planeswalkerActions. destruct (isPlaneswalker x); simpl; [|intros []].
  destruct (Z.leb_spec (getPlaneswalkerLoyalty x) 0); [|intros []].
  intros [<- | []]. repeat split; assumption.
Qed.

Lemma world_permanents_entries gs :
  flat_map (fun '(_, bf) => List.filter isWorld bf) (bf_entries (battlefield gs)) =
  world_permanents gs.
Proof.
  unfold world_permanents, bf_entries.
  destruct (bf_keys (battlefield gs)); reflexivity.
Qed.

Lemma in_checkWorldRuleActions gs a :
  In a (checkWorldRuleActions gs) ->
  type a = "world_rule_violation" /\ affectedPlayer a = None /\
  slated a = world_permanents gs /\
  1 < length (slated a).
Proof.
  unfold checkWorldRuleActions. rewrite world_permanents_entries.
  destruct (Nat.ltb_spec 1 (length (world_permanents gs))); [|intros []].
  intros [<- | []]. repeat split. assumption.
Qed.

(** The kind and the reach of every action of the scan. *)
Lemma scan_action_shape gs a :
  In a (checkStateBasedActions gs) ->
  In (type a) reported_kinds /\
  (player_loss (type a) = true /\ slated a = [] /\
     exists k, affectedPlayer a = Some k) \/
  (In (type a) reported_kinds /\ graveyard_bound (type a) = true /\
     affectedPlayer a = None).
Proof.
  intros H. apply in_scan in H.
  destruct H as [H | [(k & x & Hx & H) | [(k & x & Hx & H) | [(k & H) | [H | (k & x & Hx & H)]]]]].
  - apply in_checkPlayerStateActions in H. destruct H as [k H].
    apply in_playerActions in H. destruct H as (Hp & Hc & [[Ht _] | [Ht _]]);
      left; unfold slated; rewrite Ht, Hc;
      (split; [simpl; tauto|]); repeat split; eauto.
  - rewrite creatureActions_eq in H.
    destruct (isCreature x && _); [|destruct H]. destruct H as [<- | []].
    right. simpl. tauto.
  - apply in_planeswalkerActions in H. destruct H as (Ht & _ & Hp & _).
    right. rewrite Ht. simpl. tauto.
  - unfold legendActions in H. apply in_flat_map in H.
    destruct H as ([n ls] & _ & H). unfold legendAction in H.
    destruct (Nat.ltb 1 (length ls)); [|destruct H]. destruct H as [<- | []].
    right. simpl. tauto.
  - apply in_checkWorldRuleActions in H. destruct H as (Ht & Hp & _).
    right. rewrite Ht. simpl. tauto.
  - rewrite auraActions_eq in H. destruct (isAura x); [|destruct H].
    destruct H as [<- | []]. right. simpl. tauto.
Qed.

End ScanKinds.

(** X15. What the scan never reports. Every action of the scan is of one of
    seven kinds: loss by life, loss by empty library, death by toughness,
    planeswalker death, legend rule, world rule, unattached aura. It never
    reports a loss by poison, a death by marked damage or by deathtouch, or
    an equipment to unattach: the poison counters, the marked damage and
    the attachment it reads are constants. *)
Theorem scan_reports_seven_kinds (gs : GameState) (a : StateBasedActionManager.StateBasedAction) :
  In a (StateBasedActionManager.checkStateBasedActions gs) ->
  In (StateBasedActionManager.type a) reported_kinds /\
  ~ In (StateBasedActionManager.type a) silent_kinds.
Proof.
  intros H.
  assert (Hk : In (StateBasedActionManager.type a) reported_kinds).
  { destruct (scan_action_shape gs a H) as [[Hk _] | [Hk _]]; exact Hk. }
  split; [exact Hk|].
  intros Hs. unfold reported_kinds, silent_kinds in *. simpl in Hk, Hs.
  repeat (destruct Hk as [Hk | Hk]; [rewrite <- Hk in Hs; intuition discriminate|]).
  destruct Hk.
Qed.

Lemma scan_reports_seven_kinds_witness :
  In "aura_unattached" reported_kinds /\ ~ In "aura_unattached" silent_kinds.
Proof.
  apply (scan_reports_seven_kinds gs_aura_and_bear
           {| StateBasedActionManager.type := "aura_unattached";
              StateBasedActionManager.description :=
                "Holy Strength is put into graveyard (not attached to legal object)";
              StateBasedActionManager.affectedCards := Some [holy_strength];
              StateBasedActionManager.affectedPlayer := None;
              StateBasedActionManager.data :=
                Some [("attachedTo", StateBasedActionManager.VUndefined)] |}).
  vm_compute. tauto.
Defined.

Section ScanExact.
Import StateBasedActionManager.

Local Abbreviation bf_of g k := (get_bf (battlefield g) k).

(** The kind of an action, by the check that made it. *)
Lemma scan_kind_source gs a :
  In a (checkStateBasedActions gs) ->
  (exists k, In a (playerActions k (get_player (players gs) k))) \/
  (type a = "creature_dies_toughness" /\
     exists k x, In x (bf_of gs k) /\ slated a = [x] /\ isCreature x = true /\
                 (getCreatureToughness x <= 0)%Z) \/
  (type a = "planeswalker_dies" /\
     exists k x, In x (bf_of gs k) /\ slated a = [x] /\ isPlaneswalker x = true /\
                 (getPlaneswalkerLoyalty x <= 0)%Z) \/
  (type a = "legend_rule_violation" /\
     exists k, In a (legendActions (bf_of gs k))) \/
  (type a = "world_rule_violation" /\ In a (checkWorldRuleActions gs)) \/
  (type a = "aura_unattached" /\
     exists k x, In x (bf_of gs k) /\ slated a = [x] /\ isAura x = true).
Proof.
  intros H. apply in_scan in H.
  destruct H as [H | [(k & x & Hx & H) | [(k & x & Hx & H) | [(k & H) | [H | (k & x & Hx & H)]]]]].
  - left. apply in_checkPlayerStateActions. exact H.
  - right; left. rewrite creatureActions_eq in H.
    destruct (isCreature x && _) eqn:E; [|destruct H]. destruct H as [<- | []].
    apply andb_true_iff in E. destruct E as [E1 E2]. apply Z.leb_le in E2.
    split; [reflexivity|]. exists k, x. tauto.
  - right; right; left.
    apply in_planeswalkerActions in H. destruct H as (Ht & Hs & _ & Hp & Hl).
    split; [exact Ht|]. exists k, x. tauto.
  - right; right; right; left. split; [|eauto].
    unfold legendActions in H. apply in_flat_map in H.
    destruct H as ([n ls] & _ & H).
    apply legendAction_inv in H. tauto.
  - right; right; right; right; left. split; [|exact H].
    apply in_checkWorldRuleActions in H. tauto.
  - right; right; right; right; right. rewrite auraActions_eq in H.
    destruct (isAura x) eqn:E; [|destruct H]. destruct H as [<- | []].
    split; [reflexivity|]. exists k, x. tauto.
Qed.

Lemma playerActions_life k p :
  (life p <= 0)%Z ->
  exists a, In a (playerActions k p) /\ type a = "player_loses_life" /\
            affectedPlayer a = Some k.
Proof.
  intros H. unfold playerActions.
  destruct (Z.leb_spec (life p) 0); [|lia].
  eexists. split; [apply in_or_app; left; left; reflexivity|]. split; reflexivity.
Qed.

Lemma playerActions_library k p :
  library p = [] ->
  exists a, In a (playerActions k p) /\ type a = "player_loses_library" /\
            affectedPlayer a = Some k.
Proof.
  intros H. unfold playerActions. rewrite H.
  eexists. split;
    [apply in_or_app; right; apply in_or_app; left; simpl; left; reflexivity|].
  split; reflexivity.
Qed.

Lemma scanned_player gs k a :
  In a (playerActions k (get_player (players gs) k)) ->
  In a (checkStateBasedActions gs).
Proof.
  intros H. apply in_scan. left. apply in_checkPlayerStateActions. eauto.
Qed.

End ScanExact.

(** X16. When exactly the scan reports a loss or slates a single card. A
    player is reported to lose by life exactly when the life total is 0 or
    less, and by library exactly when the library is empty. A card is
    slated for death by toughness exactly when it lies on a battlefield, is
    a creature and its printed toughness reads 0 or less (a missing or
    unreadable toughness reads 0); as a planeswalker exactly when its
    loyalty reads 0 or less; and as an unattached aura exactly when it is an
    aura on a battlefield, whatever else is on the board. *)
Theorem scan_reports_exactly (gs : GameState) :
  (forall k, reports_loss gs "player_loses_life" k <->
     (life (get_player (players gs) k) <= 0)%Z) /\
  (forall k, reports_loss gs "player_loses_library" k <->
     library (get_player (players gs) k) = []) /\
  (forall c, slates_alone gs "creature_dies_toughness" c <->
     on_battlefield gs c /\ StateBasedActionManager.isCreature c = true /\
     (StateBasedActionManager.getCreatureToughness c <= 0)%Z) /\
  (forall c, slates_alone gs "planeswalker_dies" c <->
     on_battlefield gs c /\ StateBasedActionManager.isPlaneswalker c = true /\
     (StateBasedActionManager.getPlaneswalkerLoyalty c <= 0)%Z) /\
  (forall c, slates_alone gs "aura_unattached" c <->
     on_battlefield gs c /\ StateBasedActionManager.isAura c = true).
Proof.
  unfold reports_loss, slates_alone, on_battlefield.
  split; [|split; [|split; [|split]]].
  - intros k. split.
    + intros (a & Ha & Ht & Hp). apply scan_kind_source in Ha.
      destruct Ha as [(k' & Ha) | [[Ht' _] | [[Ht' _] | [[Ht' _] | [[Ht' _] | [Ht' _]]]]]];
        try congruence.
      apply in_playerActions in Ha. destruct Ha as (Hp' & _ & [[_ Hl] | [Ht' _]]);
        [|congruence].
      assert (k' = k) by congruence. subst k'. exact Hl.
    + intros Hl. destruct (playerActions_life k _ Hl) as (a & Ha & Ht & Hp).
      exists a. split; [apply (scanned_player gs k), Ha | tauto].
  - intros k. split.
    + intros (a & Ha & Ht & Hp). apply scan_kind_source in Ha.
      destruct Ha as [(k' & Ha) | [[Ht' _] | [[Ht' _] | [[Ht' _] | [[Ht' _] | [Ht' _]]]]]];
        try congruence.
      apply in_playerActions in Ha. destruct Ha as (Hp' & _ & [[Ht' _] | [_ Hl]]);
        [congruence|].
      assert (k' = k) by congruence. subst k'. exact Hl.
    + intros Hl. destruct (playerActions_library k _ Hl) as (a & Ha & Ht & Hp).
      exists a. split; [apply (scanned_player gs k), Ha | tauto].
  - intros c. split.
    + intros (a & Ha & Ht & Hs). apply scan_kind_source in Ha.
      destruct Ha as [(k' & Ha) | [[_ H] | [[Ht' _] | [[Ht' _] | [[Ht' _] | [Ht' _]]]]]];
        try congruence.
      * apply in_playerActions in Ha.
        destruct Ha as (_ & _ & [[Ht' _] | [Ht' _]]); congruence.
      * destruct H as (k & x & Hx & Hsx & Hc & Hto).
        assert (x = c) by congruence. subst x. eauto.
    + intros ((k & Hk) & Hc & Hto). eexists. split; [|split].
      * apply in_scan. right; left. exists k, c. split; [exact Hk|].
        rewrite creatureActions_eq, Hc. apply Z.leb_le in Hto. rewrite Hto.
        left. reflexivity.
      * reflexivity.
      * reflexivity.
  - intros c. split.
    + intros (a & Ha & Ht & Hs). apply scan_kind_source in Ha.
      destruct Ha as [(k' & Ha) | [[Ht' _] | [[_ H] | [[Ht' _] | [[Ht' _] | [Ht' _]]]]]];
        try congruence.
      * apply in_playerActions in Ha.
        destruct Ha as (_ & _ & [[Ht' _] | [Ht' _]]); congruence.
      * destruct H as (k & x & Hx & Hsx & Hc & Hto).
        assert (x = c) by congruence. subst x. eauto.
    + intros ((k & Hk) & Hc & Hlo). eexists. split; [|split].
      * apply in_scan. right; right; left. exists k, c. split; [exact Hk|].
        unfold StateBasedActionManager.planeswalkerActions. rewrite Hc.
        apply Z.leb_le in Hlo. rewrite Hlo. left. reflexivity.
      * reflexivity.
      * reflexivity.
  - intros c. split.
    + intros (a & Ha & Ht & Hs). apply scan_kind_source in Ha.
      destruct Ha as [(k' & Ha) | [[Ht' _] | [[Ht' _] | [[Ht' _] | [[Ht' _] | [_ H]]]]]];
        try congruence.
      * apply in_playerActions in Ha.
        destruct Ha as (_ & _ & [[Ht' _] | [Ht' _]]); congruence.
      * destruct H as (k & x & Hx & Hsx & Hc).
        assert (x = c) by congruence. subst x. eauto.
    + intros ((k & Hk) & Hc). eexists. split; [|split].
      * apply in_scan. right; right; right; right; right. exists k, c.
        split; [exact Hk|]. rewrite auraActions_eq, Hc. left. reflexivity.
      * reflexivity.
      * reflexivity.
Qed.

(** X17. The world rule: when the two battlefields together hold more than
    one world permanent, the scan has one world-rule action and it slates
    all of them, none is kept: the world permanents of each battlefield in
    battlefield order, the battlefields in the order of the keys of
    [battlefield] (so [player]'s come first only when that key was created
    first). With one world permanent or none, the scan has no world-rule
    action. *)
Theorem world_rule_all_or_none (gs : GameState) :
  (1 < length (world_permanents gs) ->
   exists a, In a (StateBasedActionManager.checkStateBasedActions gs) /\
     StateBasedActionManager.type a = "world_rule_violation" /\
     slated a = world_permanents gs) /\
  (forall a, In a (StateBasedActionManager.checkStateBasedActions gs) ->
     StateBasedActionManager.type a = "world_rule_violation" ->
     1 < length (world_permanents gs) /\ slated a = world_permanents gs) /\
  (forall c, In c (world_permanents gs) <->
     on_battlefield gs c /\ StateBasedActionManager.isWorld c = true).
Proof.
  split; [|split].
  - intros Hn. eexists. split; [|split].
    + apply in_scan. right; right; right; right; left.
      unfold StateBasedActionManager.checkWorldRuleActions.
      rewrite world_permanents_entries.
      apply Nat.ltb_lt in Hn. rewrite Hn. left. reflexivity.
    + reflexivity.
    + reflexivity.
  - intros a Ha Ht. apply scan_kind_source in Ha.
    destruct Ha as [(k' & Ha) | [[Ht' _] | [[Ht' _] | [[Ht' _] | [[_ H] | [Ht' _]]]]]];
      try congruence.
    + apply in_playerActions in Ha.
      destruct Ha as (_ & _ & [[Ht' _] | [Ht' _]]); congruence.
    + apply in_checkWorldRuleActions in H. destruct H as (_ & _ & Hs & Hl).
      rewrite Hs in Hl. tauto.
  - intros c. unfold world_permanents, on_battlefield. rewrite in_concat. split.
    + intros (l & Hl & Hc). apply in_map_iff in Hl. destruct Hl as (k & <- & _).
      apply filter_In in Hc. destruct Hc as [Hc Hw]. eauto.
    + intros ((k & Hc) & Hw).
      exists (List.filter StateBasedActionManager.isWorld
                (get_bf (battlefield gs) k)).
      split.
      * apply (in_map (fun k => List.filter StateBasedActionManager.isWorld
                                  (get_bf (battlefield gs) k))), in_keys_of.
      * apply filter_In. tauto.
Qed.

Lemma world_rule_all_or_none_witness :
  (exists a, In a (StateBasedActionManager.checkStateBasedActions gs_two_worlds) /\
     StateBasedActionManager.type a = "world_rule_violation" /\
     slated a = [world_a; world_b]) /\
  (exists a,
     In a (StateBasedActionManager.checkStateBasedActions gs_two_worlds_ai_first) /\
     StateBasedActionManager.type a = "world_rule_violation" /\
     slated a = [world_b; world_a]).
Proof.
  split.
  - destruct (world_rule_all_or_none gs_two_worlds) as [H _].
    apply H. vm_compute. lia.
  - destruct (world_rule_all_or_none gs_two_worlds_ai_first) as [H _].
    apply H. vm_compute. lia.
Defined.

(** ** State-based actions: what applying them conserves *)

Section Conservation.
Import StateBasedActionManager.

Local Abbreviation bf_of g k := (get_bf (battlefield g) k).
Local Abbreviation yard_of g k := (graveyard (get_player (players g) k)).

Lemma same_off_board_refl g : same_off_board g g.
Proof. unfold same_off_board. repeat split. Qed.

Lemma same_off_board_trans g1 g2 g3 :
  same_off_board g1 g2 -> same_off_board g2 g3 -> same_off_board g1 g3.
Proof.
  unfold same_off_board.
  intros (Hk & H1 & H2 & H3 & H4 & H5 & H6 & H7 & H8 & H9 & H10 & H11)
         (Hk' & H1' & H2' & H3' & H4' & H5' & H6' & H7' & H8' & H9' & H10' & H11').
  split.
  - intros k. destruct (Hk k) as (A1 & A2 & A3 & A4 & A5).
    destruct (Hk' k) as (B1 & B2 & B3 & B4 & B5).
    repeat split; congruence.
  - repeat split; congruence.
Qed.

Lemma moveCardToGraveyard_off_board c g :
  same_off_board g (moveCardToGraveyard g c).
Proof.
  unfold moveCardToGraveyard.
  induction (bf_entries (battlefield g)) as [|[k bf] entries IH]; simpl;
    [apply same_off_board_refl|].
  destruct (JS.remove_first (has_id c) bf) as [[d rest]|]; [|exact IH].
  unfold same_off_board. destruct k; (split; [intros []|]; repeat split).
Qed.

Lemma moveCardToGraveyard_count c g k :
  length (bf_of (moveCardToGraveyard g c) k) +
    length (yard_of (moveCardToGraveyard g c) k) =
  length (bf_of g k) + length (yard_of g k).
Proof.
  destruct (moveCardToGraveyard_outcome c g)
    as [k0 d l1 l2 _ Hbf _ _ Hbf' Hrest Hy Hyrest | _ ->]; [|reflexivity].
  destruct (decide (k = k0)) as [-> | Hne].
  - rewrite Hbf, Hbf', Hy, !length_app. simpl. lia.
  - rewrite (Hrest k Hne), (Hyrest k Hne). reflexivity.
Qed.

Lemma moves_off_board cs : forall g,
  same_off_board g (moveCardsToGraveyard cs g).
Proof.
  induction cs as [|c cs IH]; intros g; [apply same_off_board_refl|].
  rewrite moveCardsToGraveyard_cons.
  eapply same_off_board_trans; [apply moveCardToGraveyard_off_board | apply IH].
Qed.

Lemma moves_count cs : forall g k,
  length (bf_of (moveCardsToGraveyard cs g) k) +
    length (yard_of (moveCardsToGraveyard cs g) k) =
  length (bf_of g k) + length (yard_of g k).
Proof.
  induction cs as [|c cs IH]; intros g k; [reflexivity|].
  rewrite moveCardsToGraveyard_cons, IH. apply moveCardToGraveyard_count.
Qed.

End Conservation.

(** X18. Applying any list of state-based actions to any snapshot conserves
    the cards of each player: the cards on a player's battlefield and in
    that player's graveyard are as many afterwards as before, the
    graveyard keeps what it held and only grows at its end, every card
    still on a battlefield was there before, and the hands, libraries,
    exile zones, life totals, mana pools, the stack, the turn data and the
    order of the keys of [players] and [battlefield] are untouched. *)
Theorem executeStateBasedActions_conserves
    (actions : list StateBasedActionManager.StateBasedAction) (gs : GameState) :
  let gs' := StateBasedActionManager.executeStateBasedActions actions gs in
  (forall k,
     length (get_bf (battlefield gs') k) +
       length (graveyard (get_player (players gs') k)) =
     length (get_bf (battlefield gs) k) +
       length (graveyard (get_player (players gs) k))) /\
  (forall k, exists extra,
     graveyard (get_player (players gs') k) =
     graveyard (get_player (players gs) k) ++ extra) /\
  (forall k x, In x (get_bf (battlefield gs') k) ->
     In x (get_bf (battlefield gs) k)) /\
  same_off_board gs gs'.
Proof.
  intros gs'. subst gs'. rewrite executeStateBasedActions_moves.
  split; [intros k; apply moves_count|].
  split; [intros k; apply moves_extend_graveyard|].
  split; [intros k x; apply moves_shrink|apply moves_off_board].
Qed.

(** ** State-based actions: one pass is enough *)

Section OnePass.
Import StateBasedActionManager.

Local Abbreviation bf_of g k := (get_bf (battlefield g) k).

Lemma filter_keeps_all {A} (f : A -> bool) (l : list A) :
  (forall x, In x l -> f x = true) -> List.filter f l = l.
Proof.
  induction l as [|x l IH]; simpl; intros H; [reflexivity|].
  rewrite (H x (or_introl eq_refl)), IH; [reflexivity|].
  intros y Hy. apply H. right. exact Hy.
Qed.

Lemma filter_twice {A} (f g : A -> bool) (l : list A) :
  List.filter f (List.filter g l) = List.filter (fun x => g x && f x) l.
Proof.
  induction l as [|x l IH]; simpl; [reflexivity|].
  destruct (g x); simpl; [destruct (f x); rewrite IH; reflexivity | exact IH].
Qed.

Lemma filter_swap {A} (f g : A -> bool) (l : list A) :
  List.filter f (List.filter g l) = List.filter g (List.filter f l).
Proof.
  rewrite !filter_twice. apply filter_ext. intros x. apply andb_comm.
Qed.

Lemma flat_map_nothing {A B} (f : A -> list B) (l : list A) :
  (forall x, In x l -> f x = []) -> flat_map f l = [].
Proof.
  induction l as [|x l IH]; simpl; intros H; [reflexivity|].
  rewrite (H x (or_introl eq_refl)), IH; [reflexivity|].
  intros y Hy. apply H. right. exact Hy.
Qed.

(** Under distinct identifiers, one move takes the identifier of the card
    off both battlefields and leaves the rest in place. *)
Lemma move_filters c g k :
  distinct_on_battlefield g ->
  bf_of (moveCardToGraveyard g c) k =
  List.filter (fun x => negb (has_id c x)) (bf_of g k).
Proof.
  intros Hnd.
  assert (Hclear : forall x, In x (bf_of (moveCardToGraveyard g c) k) ->
                     negb (has_id c x) = true).
  { intros x Hx. apply negb_true_iff, has_id_false.
    apply (move_clears_id c g k x Hnd Hx). }
  destruct (moveCardToGraveyard_outcome c g)
    as [k0 d l1 l2 Hd Hbf _ _ Hbf' Hrest _ _ | Hnone E].
  - destruct (decide (k = k0)) as [-> | Hne].
    + rewrite Hbf' in Hclear |- *. rewrite Hbf, List.filter_app. simpl.
      apply has_id_true in Hd. rewrite Hd. simpl.
      rewrite <- List.filter_app. symmetry. apply filter_keeps_all. exact Hclear.
    + rewrite (Hrest k Hne) in Hclear |- *. symmetry.
      apply filter_keeps_all. exact Hclear.
  - rewrite E. symmetry. apply filter_keeps_all.
    intros x Hx. apply negb_true_iff, has_id_false. apply (Hnone k x Hx).
Qed.

Lemma moves_keep_distinct cs : forall g,
  distinct_on_battlefield g ->
  distinct_on_battlefield (moveCardsToGraveyard cs g).
Proof.
  induction cs as [|c cs IH]; intros g Hnd; [exact Hnd|].
  rewrite moveCardsToGraveyard_cons. apply IH, move_keeps_distinct, Hnd.
Qed.

(** After the moves a battlefield holds the cards whose identifier was not
    on the list, in their old order. *)
Lemma moves_filter cs : forall g k,
  distinct_on_battlefield g ->
  bf_of (moveCardsToGraveyard cs g) k = List.filter (stays cs) (bf_of g k).
Proof.
  induction cs as [|c cs IH]; intros g k Hnd.
  - symmetry. apply filter_keeps_all. reflexivity.
  - rewrite moveCardsToGraveyard_cons, IH by (apply move_keeps_distinct, Hnd).
    rewrite (move_filters c g k Hnd), filter_twice.
    apply filter_ext. intros x. unfold stays. simpl.
    rewrite negb_orb. reflexivity.
Qed.

Lemma listed_card_goes cs x : In x cs -> stays cs x = false.
Proof.
  intros H. unfold stays. apply negb_false_iff. apply existsb_exists.
  exists x. split; [exact H|]. apply has_id_true. reflexivity.
Qed.

Lemma playerActions_same k p p' :
  life p' = life p -> library p' = library p ->
  playerActions k p' = playerActions k p.
Proof. unfold playerActions. intros -> ->. reflexivity. Qed.

Lemma planeswalkerActions_cases x :
  planeswalkerActions x = [] \/
  exists a, In a (planeswalkerActions x) /\ graveyard_bound (type a) = true /\
            In x (slated a).
Proof.
  unfold planeswalkerActions. destruct (negb (isPlaneswalker x)); [tauto|].
  destruct (_ <=? _)%Z; [|tauto]. right. eexists.
  split; [left; reflexivity|]. split; [reflexivity | left; reflexivity].
Qed.

(** A duplicated legend name has its action among the legend actions. *)
Lemma legend_action_present bf n first rest :
  legends_named n bf = first :: rest -> rest <> [] ->
  exists a, In a (legendActions bf) /\ graveyard_bound (type a) = true /\
            slated a = rest.
Proof.
  intros Hl Hrest. pose proof (collect_legends_under n bf) as Hu.
  rewrite Hl in Hu. apply legends_under_In in Hu.
  eexists. split; [|split].
  - unfold legendActions. apply in_flat_map. exists (n, first :: rest).
    split; [exact Hu|]. unfold legendAction.
    destruct rest; [contradiction|]. left. reflexivity.
  - reflexivity.
  - unfold slated. simpl. apply drop_0.
Qed.

Lemma length_filter_le {A} (f : A -> bool) (l : list A) :
  length (List.filter f l) <= length l.
Proof.
  induction l as [|x l IH]; simpl; [lia|]. destruct (f x); simpl; lia.
Qed.

End OnePass.

Section OnePassScan.
Import StateBasedActionManager.

Local Abbreviation bf_of g k := (get_bf (battlefield g) k).

Variable gs : GameState.
Hypothesis Hdistinct : distinct_on_battlefield gs.

Let M := cards_to_move (checkStateBasedActions gs).
Let gs' := moveCardsToGraveyard M gs.

Lemma after_pass_battlefield k :
  bf_of gs' k = List.filter (stays M) (bf_of gs k).
Proof. apply moves_filter, Hdistinct. Qed.

Lemma slated_card_goes a c :
  In a (checkStateBasedActions gs) -> graveyard_bound (type a) = true ->
  In c (slated a) -> stays M c = false.
Proof.
  intros Ha Hg Hc. apply listed_card_goes. apply cards_to_move_In. eauto.
Qed.

Lemma filter_nothing {A} (f : A -> bool) (l : list A) :
  (forall x, In x l -> f x = false) -> List.filter f l = [].
Proof.
  induction l as [|x l IH]; simpl; intros H; [reflexivity|].
  rewrite (H x (or_introl eq_refl)). apply IH.
  intros y Hy. apply H. right. exact Hy.
Qed.

(** A check that looks at one card at a time finds nothing after the
    pass: a card it would act on was slated and is gone. *)
Lemma per_card_check_vanishes (f : MTGCard -> list StateBasedAction) :
  (forall x, f x = [] \/
     exists a, In a (f x) /\ graveyard_bound (type a) = true /\ In x (slated a)) ->
  (forall k x a, In x (bf_of gs k) -> In a (f x) ->
     In a (checkStateBasedActions gs)) ->
  over_battlefields gs' (flat_map f) = [].
Proof.
  intros Hcases Hscan. apply over_battlefields_nothing.
  assert (H : forall k, flat_map f (bf_of gs' k) = []).
  { intros k. apply flat_map_nothing. intros x Hx.
    rewrite after_pass_battlefield in Hx. apply filter_In in Hx.
    destruct Hx as [Hx Hstay].
    destruct (Hcases x) as [E | (a & Ha & Hg & Hs)]; [exact E|].
    rewrite (slated_card_goes a x (Hscan k x a Hx Ha) Hg Hs) in Hstay.
    discriminate Hstay. }
  exact H.
Qed.

Lemma creatures_settled : checkCreatureStateActions gs' = [].
Proof.
  apply per_card_check_vanishes.
  - intros x. rewrite creatureActions_eq.
    destruct (isCreature x && _); [|tauto]. right. eexists.
    split; [left; reflexivity|]. split; [reflexivity | left; reflexivity].
  - intros k x a Hx Ha. apply in_scan. right; left. eauto.
Qed.

Lemma planeswalkers_settled : checkPlaneswalkerStateActions gs' = [].
Proof.
  apply per_card_check_vanishes.
  - apply planeswalkerActions_cases.
  - intros k x a Hx Ha. apply in_scan. right; right; left. eauto.
Qed.

Lemma auras_settled : checkAuraStateActions gs' = [].
Proof.
  unfold checkAuraStateActions.
  apply (per_card_check_vanishes (auraActions gs')).
  - intros x. rewrite auraActions_eq.
    destruct (isAura x); [|tauto]. right. eexists.
    split; [left; reflexivity|]. split; [reflexivity | left; reflexivity].
  - intros k x a Hx Ha. apply in_scan. do 5 right. exists k, x.
    split; [exact Hx|]. rewrite auraActions_eq in Ha |- *. exact Ha.
Qed.

Lemma legends_after_pass n k :
  length (legends_named n (bf_of gs' k)) <= 1.
Proof.
  unfold legends_named. rewrite after_pass_battlefield, filter_swap.
  fold (legends_named n (bf_of gs k)).
  destruct (legends_named n (bf_of gs k)) as [|first [|second rest]] eqn:El.
  - simpl. lia.
  - simpl. destruct (stays M first); simpl; lia.
  - destruct (legend_action_present _ _ _ _ El ltac:(discriminate))
      as (a & Ha & Hg & Hs).
    pose proof (legendActions_scanned gs k a Ha) as Hsc.
    change (first :: second :: rest) with ([first] ++ (second :: rest)).
    rewrite List.filter_app, (filter_nothing (stays M) (second :: rest)).
    + rewrite app_nil_r. simpl. destruct (stays M first); simpl; lia.
    + intros y Hy. apply (slated_card_goes a y Hsc Hg). rewrite Hs. exact Hy.
Qed.

Lemma legends_settled : checkLegendRuleActions gs' = [].
Proof.
  unfold checkLegendRuleActions. apply over_battlefields_nothing.
  assert (H : forall k, legendActions (bf_of gs' k) = []).
  { intros k. unfold legendActions. apply flat_map_nothing.
    intros [n ls] Hin.
    pose proof (In_legends_under _ _ _ (collect_legends_keys _) Hin) as E.
    rewrite collect_legends_under in E.
    pose proof (legends_after_pass n k) as Hlen.
    destruct (legends_named n (bf_of gs' k)) eqn:El; [discriminate|].
    injection E as <-. unfold legendAction.
    destruct (Nat.ltb_spec 1 (length (m :: l))); [lia|reflexivity]. }
  exact H.
Qed.

Lemma worlds_after_pass :
  world_permanents gs' = List.filter (stays M) (world_permanents gs).
Proof.
  unfold world_permanents.
  pose proof (moves_off_board M gs) as Hoff. fold gs' in Hoff.
  destruct Hoff as (_ & _ & _ & _ & _ & _ & _ & _ & _ & _ & _ & Hkeys).
  rewrite Hkeys.
  destruct (bf_keys (battlefield gs)); cbn [keys_of map concat];
    rewrite !after_pass_battlefield, !(filter_swap isWorld), !List.filter_app;
    reflexivity.
Qed.

Lemma worlds_settled : checkWorldRuleActions gs' = [].
Proof.
  unfold checkWorldRuleActions.
  rewrite world_permanents_entries, worlds_after_pass.
  set (worlds := world_permanents gs).
  destruct (Nat.ltb_spec 1 (length (List.filter (stays M) worlds))) as [Hn|];
    [|reflexivity].
  exfalso.
  assert (Hw : 1 < length worlds)
    by (pose proof (length_filter_le (stays M) worlds); lia).
  assert (Ha : In {| type := "world_rule_violation";
                     description := "World rule: all world permanents destroyed";
                     affectedCards := Some worlds; affectedPlayer := None;
                     data := Some [("count", VNum (Z.of_nat (length worlds)))] |}
                  (checkStateBasedActions gs)).
  { apply in_scan. do 4 right. left. unfold checkWorldRuleActions.
    rewrite world_permanents_entries. fold worlds.
    apply Nat.ltb_lt in Hw. rewrite Hw. left. reflexivity. }
  rewrite (filter_nothing (stays M) worlds) in Hn; [simpl in Hn; lia|].
  intros y Hy. apply (slated_card_goes _ y Ha eq_refl). exact Hy.
Qed.

Lemma players_unchanged :
  checkPlayerStateActions gs' = checkPlayerStateActions gs.
Proof.
  pose proof (moves_off_board M gs) as Hoff. fold gs' in Hoff.
  destruct Hoff as (Hk & _ & _ & _ & _ & _ & _ & _ & _ & _ & Hpk & _).
  unfold checkPlayerStateActions, player_entries. rewrite Hpk.
  destruct (Hk player) as (_ & Hl & _ & Hlife & _).
  destruct (Hk ai) as (_ & Hl' & _ & Hlife' & _).
  destruct (pl_keys (players gs)); cbn [keys_of map flat_map];
    rewrite (playerActions_same player _ _ Hlife Hl),
            (playerActions_same ai _ _ Hlife' Hl');
    reflexivity.
Qed.

Lemma rescan_after_pass :
  checkStateBasedActions gs' = checkPlayerStateActions gs.
Proof.
  unfold checkStateBasedActions.
  rewrite creatures_settled, planeswalkers_settled, legends_settled,
    worlds_settled, auras_settled, checkEquipmentStateActions_none,
    players_unchanged.
  rewrite !app_nil_r. reflexivity.
Qed.

End OnePassScan.

Section OnePassEnd.
Import StateBasedActionManager.

Lemma player_checks_slate_nothing gs :
  cards_to_move (checkPlayerStateActions gs) = [].
Proof.
  unfold cards_to_move. apply flat_map_nothing. intros a Ha.
  apply in_checkPlayerStateActions in Ha. destruct Ha as [k Ha].
  apply in_playerActions in Ha. destruct Ha as (_ & Hc & _).
  unfold slated. rewrite Hc. destruct (graveyard_bound _); reflexivity.
Qed.

End OnePassEnd.

(** X19. One pass settles the board. In a snapshot whose battlefield cards
    bear distinct identifiers, scanning and applying once gives a snapshot
    whose own scan reports nothing but the player losses the first scan
    already reported: no card is slated any more, and applying that second
    scan changes nothing. *)
Theorem one_pass_settles (gs : GameState) :
  distinct_on_battlefield gs ->
  let gs' :=
    StateBasedActionManager.executeStateBasedActions
      (StateBasedActionManager.checkStateBasedActions gs) gs in
  StateBasedActionManager.checkStateBasedActions gs' =
    StateBasedActionManager.checkPlayerStateActions gs /\
  (forall a, In a (StateBasedActionManager.checkStateBasedActions gs') ->
     slated a = []) /\
  StateBasedActionManager.executeStateBasedActions
    (StateBasedActionManager.checkStateBasedActions gs') gs' = gs'.
Proof.
  intros Hnd gs'. subst gs'. rewrite executeStateBasedActions_moves.
  pose proof (rescan_after_pass gs Hnd) as Hre. simpl in Hre.
  rewrite Hre. split; [reflexivity|]. split.
  - intros a Ha. apply in_checkPlayerStateActions in Ha. destruct Ha as [k Ha].
    apply in_playerActions in Ha. destruct Ha as (_ & Hc & _).
    unfold slated. rewrite Hc. reflexivity.
  - rewrite executeStateBasedActions_moves, player_checks_slate_nothing.
    reflexivity.
Qed.

Lemma one_pass_settles_witness :
  StateBasedActionManager.checkStateBasedActions
    (StateBasedActionManager.executeStateBasedActions
       (StateBasedActionManager.checkStateBasedActions gs_aura_and_bear)
       gs_aura_and_bear) =
  StateBasedActionManager.checkPlayerStateActions gs_aura_and_bear.
Proof.
  apply (one_pass_settles gs_aura_and_bear).
  unfold distinct_on_battlefield. vm_compute.
  repeat (apply NoDup_cons_2; [rewrite list_elem_of_In; simpl; intuition discriminate|]).
  apply NoDup_nil_2.
Defined.

(** ** The engine: what makes an action valid *)

Section ActionFacts.
Import MTGRulesEngine.

Lemma isValid_report msg r : isValid (report msg r) = false.
Proof. reflexivity. Qed.

Lemma isValid_when b msg r :
  isValid (when b (report msg) r) = isValid r && negb b.
Proof. destruct b; simpl; [rewrite andb_false_r | rewrite andb_true_r]; reflexivity. Qed.

Lemma in_step_iff gs s :
  in_step gs s = true <-> phase gs = combat /\ step gs = Some s.
Proof.
  unfold in_step. rewrite andb_true_iff, !bool_decide_eq_true. tauto.
Qed.

Lemma main_phase_empty_stack_iff gs :
  main_phase_empty_stack gs = true <->
  (phase gs = main1 \/ phase gs = main2) /\ stack gs = [].
Proof.
  unfold main_phase_empty_stack.
  rewrite andb_true_iff, orb_true_iff, !bool_decide_eq_true.
  destruct (stack gs); simpl; intuition (discriminate || auto).
Qed.

End ActionFacts.

(** X20. Declaring attackers is valid exactly in the combat phase, in the
    declare-attackers step, for the active player; declaring blockers
    exactly in the combat phase, in the declare-blockers step, for the
    player who is not active; passing priority exactly for the player who
    holds it. So no snapshot lets attackers and blockers both be declared,
    by whomever. *)
Theorem declarations_valid_iff (gs : GameState) (who : PlayerKey) :
  (MTGRulesEngine.isValid
     (MTGRulesEngine.validateAction
        (declare MTGRulesEngine.declare_attackers_action who) gs) = true <->
   phase gs = combat /\ step gs = Some declare_attackers /\
   active_player gs = who) /\
  (MTGRulesEngine.isValid
     (MTGRulesEngine.validateAction
        (declare MTGRulesEngine.declare_blockers_action who) gs) = true <->
   phase gs = combat /\ step gs = Some declare_blockers /\
   active_player gs <> who) /\
  (MTGRulesEngine.isValid
     (MTGRulesEngine.validateAction
        (declare MTGRulesEngine.pass_priority who) gs) = true <->
   priority gs = who) /\
  (forall other,
     MTGRulesEngine.isValid
       (MTGRulesEngine.validateAction
          (declare MTGRulesEngine.declare_attackers_action who) gs) = true ->
     MTGRulesEngine.isValid
       (MTGRulesEngine.validateAction
          (declare MTGRulesEngine.declare_blockers_action other) gs) = false).
Proof.
  assert (Hatt : forall w,
    MTGRulesEngine.isValid
      (MTGRulesEngine.validateAction
         (declare MTGRulesEngine.declare_attackers_action w) gs) = true <->
    phase gs = combat /\ step gs = Some declare_attackers /\
    active_player gs = w).
  { intros w. unfold MTGRulesEngine.validateAction. simpl.
    unfold MTGRulesEngine.validateAttackerDeclaration.
    rewrite !isValid_when. simpl.
    rewrite andb_true_iff, !negb_true_iff, !negb_false_iff,
      in_step_iff, bool_decide_eq_true. tauto. }
  assert (Hblk : forall w,
    MTGRulesEngine.isValid
      (MTGRulesEngine.validateAction
         (declare MTGRulesEngine.declare_blockers_action w) gs) = true <->
    phase gs = combat /\ step gs = Some declare_blockers /\
    active_player gs <> w).
  { intros w. unfold MTGRulesEngine.validateAction. simpl.
    unfold MTGRulesEngine.validateBlockerDeclaration.
    rewrite !isValid_when. simpl.
    rewrite andb_true_iff, !negb_true_iff, !negb_false_iff,
      in_step_iff, bool_decide_eq_true.
    destruct (bool_decide (active_player gs = player)) eqn:E;
      [apply bool_decide_eq_true in E | apply bool_decide_eq_false in E];
      destruct (active_player gs), w; intuition congruence. }
  split; [apply Hatt|]. split; [apply Hblk|]. split.
  - unfold MTGRulesEngine.validateAction. simpl.
    unfold MTGRulesEngine.validatePriorityPass.
    rewrite isValid_when. simpl. rewrite negb_true_iff, negb_false_iff.
    apply bool_decide_eq_true.
  - intros other Ha. apply Hatt in Ha. destruct Ha as (_ & Hs & _).
    apply not_true_is_false. intros Hb. apply Hblk in Hb.
    destruct Hb as (_ & Hs' & _). congruence.
Qed.

Lemma declarations_valid_iff_witness :
  MTGRulesEngine.isValid
    (MTGRulesEngine.validateAction
       (declare MTGRulesEngine.declare_blockers_action ai) gs_declare_attackers)
  = false.
Proof.
  apply (declarations_valid_iff gs_declare_attackers player). reflexivity.
Defined.

(** X21. A land play is valid exactly when the acting player's hand holds a
    card with the named identifier, the first such card is a land, the
    phase is main1 or main2 and the stack is empty. Whose turn it is and
    who holds priority play no part, so the engine accepts land plays that
    [canPlayLand] of the timing manager refuses. *)
Theorem land_play_valid_iff (action : MTGRulesEngine.GameAction) (gs : GameState) :
  MTGRulesEngine.type action = MTGRulesEngine.play_land ->
  (MTGRulesEngine.isValid (MTGRulesEngine.validateAction action gs) = true <->
   exists c, named_card action gs = Some c /\ MTGRulesEngine.isLand c = true /\
     (phase gs = main1 \/ phase gs = main2) /\ stack gs = []).
Proof.
  intros Ht. unfold MTGRulesEngine.validateAction, named_card. rewrite Ht.
  unfold MTGRulesEngine.validateLandPlay.
  destruct (MTGRulesEngine.given_id action) as [i|];
    [|simpl; split; [discriminate | intros (c & H & _); discriminate]].
  destruct (MTGRulesEngine.findCardInHand i _) as [c|];
    [|simpl; split; [discriminate | intros (c & H & _); discriminate]].
  rewrite !isValid_when. simpl.
  unfold MTGRulesEngine.canPlayLandAtCurrentTiming.
  rewrite andb_true_iff, !negb_true_iff, !negb_false_iff,
    main_phase_empty_stack_iff.
  split.
  - intros (H1 & H2 & H3). exists c. tauto.
  - intros (c' & [= <-] & H1 & H2 & H3). tauto.
Qed.

Lemma land_play_valid_iff_witness :
  MTGRulesEngine.isValid
    (MTGRulesEngine.validateAction play_mountain gs_land_in_ai_hand) = true /\
  TimingManager.canPlayLand gs_land_in_ai_hand ai = false.
Proof.
  split; [|reflexivity].
  apply (land_play_valid_iff play_mountain gs_land_in_ai_hand eq_refl).
  exists mountain. repeat split; try reflexivity. left. reflexivity.
Defined.

(** X22. A cast is valid exactly when the acting player's hand holds a card
    with the named identifier and, for the first such card, the engine's
    timing test passes, the payment (none declared counts as empty) matches
    the cost within the player's pool, and the declared targets, if any are
    declared, are as many as the text has the word "target". Each test
    that fails adds one error: a cast never gets more than three, and a
    cast that is not valid gets at least one. *)
Theorem cast_valid_iff (action : MTGRulesEngine.GameAction) (gs : GameState) :
  MTGRulesEngine.type action = MTGRulesEngine.cast_spell ->
  (MTGRulesEngine.isValid (MTGRulesEngine.validateAction action gs) = true <->
   exists c, named_card action gs = Some c /\
     MTGRulesEngine.canCastAtCurrentTiming c gs = true /\
     MTGRulesEngine.validateManaCost c
       (default MTGRulesEngine.no_payment (MTGRulesEngine.manaPayment action))
       (mana_pool (get_player (players gs) (MTGRulesEngine.actor action))) = true /\
     targets_counted action c gs = true) /\
  1 <= length (MTGRulesEngine.errors (MTGRulesEngine.validateAction action gs)) +
       (if MTGRulesEngine.isValid (MTGRulesEngine.validateAction action gs)
        then 1 else 0) <= 3.
Proof.
  intros Ht. unfold MTGRulesEngine.validateAction, named_card. rewrite Ht.
  unfold MTGRulesEngine.validateSpellCast.
  destruct (MTGRulesEngine.given_id action) as [i|];
    [|simpl; split; [split; [discriminate | intros (c & H & _); discriminate] | lia]].
  destruct (MTGRulesEngine.findCardInHand i _) as [c|];
    [|simpl; split; [split; [discriminate | intros (c & H & _); discriminate] | lia]].
  unfold targets_counted. split.
  - rewrite !isValid_when. simpl.
    rewrite !andb_true_iff, !negb_true_iff, !negb_false_iff.
    split.
    + intros ((H1 & H2) & H3). exists c. repeat split; try assumption.
      destruct (MTGRulesEngine.targets action); [|reflexivity].
      apply negb_false_iff in H3. exact H3.
    + intros (c' & [= <-] & H1 & H2 & H3). repeat split; try assumption.
      destruct (MTGRulesEngine.targets action); [|reflexivity].
      rewrite H3. reflexivity.
  - destruct (negb (MTGRulesEngine.canCastAtCurrentTiming c gs)),
      (negb (MTGRulesEngine.validateManaCost c _ _)),
      (match MTGRulesEngine.targets action with
       | Some ts => negb (MTGRulesEngine.validateTargets c ts gs)
       | None => false
       end); simpl; lia.
Qed.

Lemma cast_valid_iff_witness :
  MTGRulesEngine.isValid
    (MTGRulesEngine.validateAction (cast_with pay_one_red) gs_engine) = true.
Proof.
  apply (cast_valid_iff (cast_with pay_one_red) gs_engine eq_refl).
  exists engine_bolt. repeat split; reflexivity.
Defined.

(** ** The engine: mana costs *)

Section ManaFacts.
Import MTGRulesEngine.

Lemma pool_plus_zero m : pool_plus m no_mana_cost = m.
Proof.
  destruct m. unfold pool_plus, add_mana. simpl. f_equal; lia.
Qed.

Lemma pool_plus_assoc a b c :
  pool_plus (pool_plus a b) c = pool_plus a (pool_plus b c).
Proof.
  destruct a, b, c. unfold pool_plus, add_mana. simpl. f_equal; lia.
Qed.

Lemma count_symbol_plus m ch :
  count_symbol m ch = pool_plus m (count_symbol no_mana_cost ch).
Proof.
  unfold count_symbol.
  repeat match goal with
         | |- context [if ?b then _ else _] => destruct b
         end;
    destruct m; unfold pool_plus, add_mana; simpl; f_equal; lia.
Qed.

Lemma fold_count_symbol_plus l m :
  fold_left count_symbol l m =
  pool_plus m (fold_left count_symbol l no_mana_cost).
Proof.
  revert m. induction l as [|ch l IH]; intros m; simpl.
  - symmetry. apply pool_plus_zero.
  - rewrite IH. rewrite (IH (count_symbol no_mana_cost ch)).
    rewrite <- pool_plus_assoc. f_equal. apply count_symbol_plus.
Qed.

Lemma strip_braces_app a b :
  JS.strip_braces (a +:+ b) = JS.strip_braces a +:+ JS.strip_braces b.
Proof.
  induction a as [|ch a IH]; simpl; [reflexivity|].
  destruct (Ascii.eqb ch "{" || Ascii.eqb ch "}"); simpl; rewrite IH; reflexivity.
Qed.

Lemma list_ascii_of_string_app a b :
  list_ascii_of_string (a +:+ b) =
  list_ascii_of_string a ++ list_ascii_of_string b.
Proof. induction a as [|ch a IH]; simpl; [reflexivity | rewrite IH; reflexivity]. Qed.

End ManaFacts.

(** X23. A mana cost is read symbol by symbol: the cost of two strings put
    together is the sum of their costs, colour by colour, and braces count
    for nothing wherever they stand. A generic cost of several digits is
    therefore the sum of its digits, not the number they spell. *)
Theorem parseManaCost_concat (a b : string) :
  MTGRulesEngine.parseManaCost (a +:+ b) =
    pool_plus (MTGRulesEngine.parseManaCost a) (MTGRulesEngine.parseManaCost b) /\
  MTGRulesEngine.parseManaCost (JS.strip_braces a) =
    MTGRulesEngine.parseManaCost a /\
  (forall d1 d2 : ascii,
     JS.is_digit d1 = true -> JS.is_digit d2 = true ->
     colorless (MTGRulesEngine.parseManaCost (String d1 (String d2 EmptyString))) =
       (JS.digit_value d1 + JS.digit_value d2)%Z).
Proof.
  split; [|split].
  - unfold MTGRulesEngine.parseManaCost.
    rewrite strip_braces_app, list_ascii_of_string_app, fold_left_app.
    apply fold_count_symbol_plus.
  - unfold MTGRulesEngine.parseManaCost. f_equal. f_equal.
    induction a as [|ch a IH]; simpl; [reflexivity|].
    destruct (Ascii.eqb ch "{" || Ascii.eqb ch "}") eqn:E; simpl.
    + exact IH.
    + rewrite E, IH. reflexivity.
  - intros d1 d2 H1 H2.
    destruct d1 as [[] [] [] [] [] [] [] []]; try discriminate H1;
      destruct d2 as [[] [] [] [] [] [] [] []]; try discriminate H2;
      reflexivity.
Qed.

Lemma parseManaCost_concat_witness :
  colorless (MTGRulesEngine.parseManaCost "10") = 1%Z.
Proof.
  destruct (parseManaCost_concat "R" "G") as (_ & _ & H).
  apply (H "1"%char "0"%char); reflexivity.
Defined.

(** ** The engine: format legality *)

Section FormatFacts.
Import MTGRulesEngine.

Lemma getFormatRules_bounds format :
  positive_bound (maxDeckSize (getFormatRules format)) = None /\
  positive_bound (exactDeckSize (getFormatRules format)) =
    exactDeckSize (getFormatRules format) /\
  (0 <= maxCopies (getFormatRules format))%Z.
Proof.
  unfold getFormatRules.
  repeat match goal with
         | |- context [if ?b then _ else _] => destruct b
         end; simpl; repeat split; lia.
Qed.

Lemma copies_in_snoc name l d :
  copies_in name (l ++ [d]) =
  if String.eqb (entry_name d) name then (copies_in name l + quantity d)%Z
  else copies_in name l.
Proof. unfold copies_in. rewrite fold_left_app. reflexivity. Qed.

Lemma deck_total_snoc l d :
  deck_total (l ++ [d]) = (deck_total l + quantity d)%Z.
Proof. unfold deck_total. rewrite fold_left_app. reflexivity. Qed.

Lemma lower_char_idem c : JS.lower_char (JS.lower_char c) = JS.lower_char c.
Proof. destruct c as [[] [] [] [] [] [] [] []]; reflexivity. Qed.

Lemma toLowerCase_idem s : JS.toLowerCase (JS.toLowerCase s) = JS.toLowerCase s.
Proof.
  induction s as [|c s IH]; simpl; [reflexivity|].
  rewrite lower_char_idem, IH. reflexivity.
Qed.

(** A string in lower case names a member of [Object.prototype] only if it
    is one of the two names that have no capital letter. *)
Lemma inherited_key format :
  existsb (String.eqb (JS.toLowerCase format)) JS.object_prototype_keys = true <->
  JS.toLowerCase format = "constructor" \/ JS.toLowerCase format = "__proto__".
Proof.
  pose proof (toLowerCase_idem format) as Hidem.
  set (key := JS.toLowerCase format) in *.
  split.
  - intros H. unfold JS.object_prototype_keys in H. cbn [existsb] in H.
    repeat (apply orb_true_iff in H; destruct H as [H|H]);
      try discriminate H; apply String.eqb_eq in H;
      first [ left; exact H | right; exact H
            | rewrite H in Hidem; vm_compute in Hidem; discriminate Hidem ].
  - intros [-> | ->]; reflexivity.
Qed.

Lemma legality_test format (d : DeckCard) (r : RuleValidationResult) m1 m2 m3 :
  let legality :=
    JS.get_member (legalities (deck_card d)) (JS.toLowerCase format) in
  isValid
    (if bool_decide (legality = JS.Own "banned") then report m1 r
     else if bool_decide (legality = JS.Own "restricted") &&
             (1 <? quantity d)%Z then report m2 r
     else if JS.falsy legality || bool_decide (legality = JS.Own "not_legal")
     then report m3 r
     else r) = true <->
  isValid r = true /\ entry_legal format d.
Proof.
  cbv zeta. unfold JS.get_member, entry_legal.
  destruct (legalities (deck_card d) !! JS.toLowerCase format) as [l|] eqn:El.
  - destruct (bool_decide (JS.Own l = JS.Own "banned")) eqn:E1;
      [apply bool_decide_eq_true in E1 | apply bool_decide_eq_false in E1].
    { simpl. injection E1 as ->. split; [discriminate|]. tauto. }
    destruct (bool_decide (JS.Own l = JS.Own "restricted")) eqn:E2;
      [apply bool_decide_eq_true in E2 | apply bool_decide_eq_false in E2].
    { injection E2 as ->.
      destruct (Z.ltb_spec 1 (quantity d)) as [Hq|Hq]; simpl.
      - split; [discriminate|]. intros (_ & _ & _ & _ & Hr).
        specialize (Hr eq_refl). lia.
      - split; [|tauto]. intros Hv. split; [exact Hv|].
        repeat split; try discriminate. intros _. exact Hq. }
    cbn [andb JS.falsy].
    destruct (String.eqb_spec l "") as [->|E3]; cbn [orb].
    { simpl. split; [discriminate|]. tauto. }
    destruct (bool_decide (JS.Own l = JS.Own "not_legal")) eqn:E4;
      [apply bool_decide_eq_true in E4 | apply bool_decide_eq_false in E4].
    { simpl. injection E4 as ->. split; [discriminate|]. tauto. }
    split; [|tauto]. intros Hv. split; [exact Hv|].
    repeat split; try congruence.
  - rewrite <- inherited_key.
    destruct (existsb (String.eqb (JS.toLowerCase format))
                JS.object_prototype_keys).
    + rewrite !bool_decide_eq_false_2 by discriminate. simpl. tauto.
    + rewrite !bool_decide_eq_false_2 by discriminate. simpl.
      split; [discriminate|]. intros [_ H]. discriminate H.
Qed.

Lemma tally_entry_valid format rules t d :
  isValid (verdict (tally_entry format rules t d)) = true <->
  isValid (verdict t) = true /\ entry_legal format d /\
  (isBasicLand (entry_name d) = true \/
   (default 0%Z (cardCounts t !! entry_name d) <= maxCopies rules)%Z).
Proof.
  unfold tally_entry, entry_name. cbn [verdict].
  rewrite isValid_when, andb_true_iff, negb_true_iff, andb_false_iff,
    negb_false_iff, Z.ltb_ge.
  rewrite legality_test. tauto.
Qed.

Lemma tally_entry_counts format rules t d name :
  default 0%Z (cardCounts (tally_entry format rules t d) !! name) =
  if String.eqb (entry_name d) name
  then (default 0%Z (cardCounts t !! name) + quantity d)%Z
  else default 0%Z (cardCounts t !! name).
Proof.
  unfold tally_entry, entry_name. simpl.
  destruct (String.eqb_spec (card_name (deck_card d)) name) as [->|Hne].
  - rewrite lookup_insert_eq. reflexivity.
  - rewrite lookup_insert_ne by exact Hne. reflexivity.
Qed.

Lemma fold_tally format rules l :
  let t :=
    fold_left (tally_entry format rules) l
      {| cardCounts := ∅; totalCards := 0; verdict := fresh_result |} in
  (forall name, default 0%Z (cardCounts t !! name) = copies_in name l) /\
  totalCards t = deck_total l /\
  (isValid (verdict t) = true <->
   forall pre d post, l = pre ++ d :: post ->
     entry_legal format d /\
     (isBasicLand (entry_name d) = true \/
      (copies_in (entry_name d) pre <= maxCopies rules)%Z)).
Proof.
  induction l as [|x l IH] using rev_ind; cbv zeta in *.
  - simpl. repeat split; try reflexivity; destruct pre; discriminate.
  - rewrite fold_left_app. cbn [fold_left].
    destruct IH as (Hc & Ht & Hv). split; [|split].
    + intros name. rewrite tally_entry_counts, copies_in_snoc, Hc. reflexivity.
    + rewrite deck_total_snoc, <- Ht. reflexivity.
    + rewrite tally_entry_valid, Hv, Hc. split.
      * intros (Hall & Hx & Hcap) pre d post E.
        destruct post as [|y post _] using rev_ind.
        -- apply app_inj_tail in E. destruct E as [<- <-]. tauto.
        -- rewrite app_comm_cons, app_assoc in E.
           apply app_inj_tail in E. destruct E as [-> _].
           apply (Hall pre d post eq_refl).
      * intros Hall. split; [|apply (Hall l x [] eq_refl)].
        intros pre d post ->. apply (Hall pre d (post ++ [x])).
        rewrite <- app_assoc. reflexivity.
Qed.

Lemma validateFormatLegality_checks mainboard format :
  isValid (validateFormatLegality mainboard format) = true <->
  isValid
    (verdict
       (fold_left (tally_entry format (getFormatRules format)) mainboard
          {| cardCounts := ∅; totalCards := 0; verdict := fresh_result |})) =
    true /\
  deck_sized format mainboard.
Proof.
  unfold validateFormatLegality, deck_sized.
  destruct (fold_tally format (getFormatRules format) mainboard)
    as (_ & Ht & _).
  destruct (getFormatRules_bounds format) as (Hmax & Hex & _).
  simpl in Ht. rewrite Hmax, Hex, Ht.
  rewrite isValid_when, andb_true_iff, negb_true_iff, andb_false_iff,
    negb_false_iff.
  destruct (exactDeckSize (getFormatRules format)) as [e|] eqn:Ee.
  - rewrite !isValid_when, !andb_true_iff, !negb_true_iff, negb_false_iff,
      Z.ltb_ge, Z.eqb_eq.
    split.
    + intros (((H1 & H2) & H3) & H4). split; [exact H1|]. split; [exact H2|].
      split; [intros e' [= <-]; exact H3|].
      intros Hc. destruct H4 as [H4|H4]; congruence.
    + intros (H1 & H2 & H3 & H4).
      split; [split; [split; [exact H1 | exact H2] | apply H3; reflexivity]|].
      destruct (commanderRequired (getFormatRules format)); auto.
  - rewrite !isValid_when, !andb_true_iff, !negb_true_iff, Z.ltb_ge.
    split.
    + intros ((H1 & H2) & H4). split; [exact H1|]. split; [exact H2|].
      split; [intros e' [=]|].
      intros Hc. destruct H4 as [H4|H4]; congruence.
    + intros (H1 & H2 & H3 & H4).
      split; [split; [exact H1 | exact H2]|].
      destruct (commanderRequired (getFormatRules format)); auto.
Qed.

Lemma copies_in_fresh name l :
  ~ In name (map entry_name l) -> copies_in name l = 0%Z.
Proof.
  induction l as [|x l IH] using rev_ind; [reflexivity|].
  intros Hn. rewrite copies_in_snoc.
  rewrite map_app, in_app_iff in Hn. simpl in Hn.
  destruct (String.eqb_spec (entry_name x) name) as [E|_]; [tauto|].
  apply IH. tauto.
Qed.

End FormatFacts.

(** X24. When a deck is legal in a format. The verdict is valid exactly when
    every entry passes the legality test, every entry either is a basic
    land or has at most [maxCopies] copies of its name in the entries
    BEFORE it, the total reaches the format's minimum, equals its exact size
    when it has one, and a commander is present when the format requires
    one. An entry passes the legality test when its card's own legality for
    the format (looked up in lower case) is none of empty, banned and
    not_legal, and restricted only with a quantity of at most one; a card
    without a legality of its own for the format passes only under the two
    format names "constructor" and "__proto__", for which the lookup finds
    a member that every object inherits. The copy limit is tested against
    what came before an entry, never against the entry's own quantity. *)
Theorem format_legality_iff (mainboard : list MTGRulesEngine.DeckCard)
    (format : string) :
  MTGRulesEngine.isValid
    (MTGRulesEngine.validateFormatLegality mainboard format) = true <->
  (forall pre d post, mainboard = pre ++ d :: post ->
     entry_legal format d /\
     (MTGRulesEngine.isBasicLand (entry_name d) = true \/
      (copies_in (entry_name d) pre <=
       MTGRulesEngine.maxCopies (MTGRulesEngine.getFormatRules format))%Z)) /\
  deck_sized format mainboard.
Proof.
  rewrite validateFormatLegality_checks.
  destruct (fold_tally format (MTGRulesEngine.getFormatRules format) mainboard)
    as (_ & _ & Hv).
  cbv zeta in Hv. rewrite Hv. reflexivity.
Qed.

(** X25. In a deck whose entries have pairwise different names the copy
    limit never fires, whatever the quantities: the deck is valid exactly
    when every entry passes the legality test (as in X24, inherited members
    included) and the size conditions hold. One entry of sixty copies of a
    card that is no basic land is a valid standard deck. *)
Theorem distinct_names_escape_copy_limit
    (mainboard : list MTGRulesEngine.DeckCard) (format : string) :
  List.NoDup (map entry_name mainboard) ->
  (MTGRulesEngine.isValid
     (MTGRulesEngine.validateFormatLegality mainboard format) = true <->
   (forall d, In d mainboard -> entry_legal format d) /\
   deck_sized format mainboard).
Proof.
  intros Hnd. rewrite validateFormatLegality_checks.
  destruct (fold_tally format (MTGRulesEngine.getFormatRules format) mainboard)
    as (_ & _ & Hv).
  cbv zeta in Hv. rewrite Hv. split.
  - intros (Hall & Hs). split; [|exact Hs].
    intros d Hin. apply in_split in Hin. destruct Hin as (pre & post & ->).
    apply (Hall pre d post eq_refl).
  - intros (Hall & Hs). split; [|exact Hs].
    intros pre d post ->. split.
    + apply Hall. apply in_or_app. right. left. reflexivity.
    + right. rewrite copies_in_fresh.
      * apply getFormatRules_bounds.
      * rewrite map_app in Hnd. simpl in Hnd.
        apply List.NoDup_remove_2 in Hnd.
        intros Hin. apply Hnd. apply in_or_app. left. exact Hin.
Qed.

Lemma distinct_names_escape_copy_limit_witness :
  MTGRulesEngine.isValid
    (MTGRulesEngine.validateFormatLegality sixty_bolts "standard") = true.
Proof.
  apply (distinct_names_escape_copy_limit sixty_bolts "standard").
  - simpl. constructor; [simpl; tauto | constructor].
  - split.
    + intros d [<-|[]]. vm_compute. repeat split; discriminate.
    + unfold deck_sized. vm_compute. repeat split; discriminate.
Defined.

(** The same deck under a format name that every object answers with an
    inherited member: no legality error is reported, and a name that is
    neither a key of the card nor such a member is refused. *)
Example test_inherited_legality :
  MTGRulesEngine.isValid
    (MTGRulesEngine.validateFormatLegality sixty_bolts "Constructor") = true /\
  MTGRulesEngine.errors
    (MTGRulesEngine.validateFormatLegality sixty_bolts "pioneer") =
    ["Lightning Bolt is not legal in pioneer"].
Proof. vm_compute. split; reflexivity. Qed.

(** ** The engine's scan and the manager's scan *)

Section TwoScans.
Import MTGRulesEngine.

Lemma player_sentences_length k p :
  length (player_sentences k p) =
  length (StateBasedActionManager.playerActions k p).
Proof.
  unfold player_sentences, StateBasedActionManager.playerActions.
  rewrite !length_app.
  destruct (life p <=? 0)%Z, (Nat.eqb (length (library p)) 0); reflexivity.
Qed.

Lemma creature_sentence_length k c :
  length
    (if isCreature c && (getCreatureToughness c <=? 0)%Z
     then [card_name c +:+ " is put into " +:+ key_name k +:+
           "'s graveyard (0 toughness)"]
     else []) =
  length (StateBasedActionManager.creatureActions c).
Proof.
  unfold StateBasedActionManager.creatureActions.
  change (StateBasedActionManager.isCreature c) with (isCreature c).
  change (StateBasedActionManager.getCreatureToughness c)
    with (getCreatureToughness c).
  unfold StateBasedActionManager.getCreatureDamage.
  destruct (isCreature c); simpl; [|reflexivity].
  rewrite andb_false_r, length_app. simpl.
  destruct (getCreatureToughness c <=? 0)%Z; reflexivity.
Qed.

Lemma creature_sentences_length k bf :
  length (creature_sentences k bf) =
  length (flat_map StateBasedActionManager.creatureActions bf).
Proof.
  unfold creature_sentences.
  induction bf as [|c bf IH]; [reflexivity|].
  cbn [flat_map]. rewrite !length_app, IH, creature_sentence_length.
  reflexivity.
Qed.

End TwoScans.

(** X26. The engine's own scan, which returns sentences, and the manager's
    scan agree on what they both look at: the engine reports as many
    sentences as the manager reports player losses and creature deaths
    together. Planeswalkers, legends, world permanents and auras, which the
    manager's scan also reports, are invisible to the engine's scan. *)
Theorem engine_scan_counts_like_manager (gs : GameState) :
  length (MTGRulesEngine.checkStateBasedActions gs) =
    length (loss_and_toughness_actions gs) /\
  (MTGRulesEngine.checkStateBasedActions gs = [] <->
   StateBasedActionManager.checkPlayerStateActions gs = [] /\
   StateBasedActionManager.checkCreatureStateActions gs = []).
Proof.
  assert (Hlen : length (MTGRulesEngine.checkStateBasedActions gs) =
                 length (loss_and_toughness_actions gs)).
  { unfold MTGRulesEngine.checkStateBasedActions, loss_and_toughness_actions,
      StateBasedActionManager.checkPlayerStateActions,
      StateBasedActionManager.checkCreatureStateActions,
      StateBasedActionManager.over_battlefields.
    rewrite !length_app, !length_flat_map_player_entries,
      !length_flat_map_bf_entries.
    cbn beta iota.
    rewrite !player_sentences_length, !creature_sentences_length.
    reflexivity. }
  split; [exact Hlen|].
  unfold loss_and_toughness_actions in Hlen. rewrite length_app in Hlen.
  split.
  - intros E. rewrite E in Hlen. simpl in Hlen.
    split; apply length_zero_iff_nil; lia.
  - intros [E1 E2]. rewrite E1, E2 in Hlen. simpl in Hlen.
    apply length_zero_iff_nil. exact Hlen.
Qed.

(** X27. The two tables of formats agree: for every format name
    [getMinDeckSize] is the minimum of [getFormatRules], a name that is in
    neither table gets the standard rules, no format has a maximum size,
    and only commander and edh fix the size, at one hundred cards with a
    commander required. *)
Theorem format_tables_agree (format : string) :
  MTGRulesEngine.getMinDeckSize format =
    MTGRulesEngine.minDeckSize (MTGRulesEngine.getFormatRules format) /\
  MTGRulesEngine.maxDeckSize (MTGRulesEngine.getFormatRules format) = None /\
  (MTGRulesEngine.exactDeckSize (MTGRulesEngine.getFormatRules format) <> None <->
   JS.toLowerCase format = "commander" \/ JS.toLowerCase format = "edh") /\
  (MTGRulesEngine.commanderRequired (MTGRulesEngine.getFormatRules format) = true <->
   MTGRulesEngine.exactDeckSize (MTGRulesEngine.getFormatRules format) = Some 100%Z) /\
  (MTGRulesEngine.getFormatRules format <> MTGRulesEngine.standard_rules ->
   In (JS.toLowerCase format) ["commander"; "edh"; "limited"; "draft"; "sealed"]).
Proof.
  unfold MTGRulesEngine.getMinDeckSize, MTGRulesEngine.getFormatRules.
  destruct (existsb (String.eqb (JS.toLowerCase format))
              ["standard"; "modern"; "legacy"; "vintage"]) eqn:E1.
  - simpl. repeat split; try tauto; try discriminate.
    intros [H|H]; rewrite H in E1; discriminate E1.
  - destruct (existsb (String.eqb (JS.toLowerCase format)) ["commander"; "edh"])
      eqn:E2.
    + simpl in E2. rewrite orb_false_r, orb_true_iff, !String.eqb_eq in E2.
      simpl. repeat split; try tauto; try discriminate.
      intros _. destruct E2 as [-> | ->]; simpl; tauto.
    + destruct (existsb (String.eqb (JS.toLowerCase format))
                  ["limited"; "draft"; "sealed"]) eqn:E3.
      * simpl in E2. rewrite orb_false_r, orb_false_iff, !String.eqb_neq in E2.
        simpl in E3.
        rewrite orb_false_r, !orb_true_iff, !String.eqb_eq in E3.
        simpl. repeat split; try tauto; try discriminate.
        intros _. destruct E3 as [-> | [-> | ->]]; simpl; tauto.
      * simpl in E2. rewrite orb_false_r, orb_false_iff, !String.eqb_neq in E2.
        simpl. repeat split; try tauto; try discriminate.
Qed.
